(** * The backup engine of create-dropbox-backup-folder

    A shallow embedding of [internal/backup/engine.go] (package [backup]):
    the exclusion filter, the skip decision, the concurrent download phase,
    the orphan reconciler, the orchestration in [Run] and [formatBytes].

    Go strings are [string] (a sequence of bytes), [uint64] and [int64] are
    [Z] with the conversions written out, [time.Time] is a pair of seconds
    and nanoseconds, the local file system is a finite map from paths to
    file metadata, and the Dropbox client is an interface whose answers are
    supplied by the environment. *)

From stdpp Require Import base option list gmap strings.
From Stdlib Require Import ZArith Lia Ascii String.
From Equations Require Import Equations.

Local Open Scope string_scope.
Local Open Scope Z_scope.

(** ** Machine integers *)

Module Int.

Definition uint64_max : Z := 2 ^ 64 - 1.

Definition is_uint64 (z : Z) : Prop := 0 <= z <= uint64_max.

Definition wrap_uint64 (z : Z) : Z := z mod 2 ^ 64.

(** The conversion [int64(x)] of a [uint64]: values from [2^63] on wrap to
    the negative half. *)
Definition int64_of_uint64 (z : Z) : Z :=
  if z <? 2 ^ 63 then z else z - 2 ^ 64.

(** [x++] on a Go [int] (64 bits, two's complement). *)
Definition wrap_int64 (z : Z) : Z := (z + 2 ^ 63) mod 2 ^ 64 - 2 ^ 63.

Definition is_int64 (z : Z) : Prop := - 2 ^ 63 <= z < 2 ^ 63.

End Int.

(** ** [time.Time]

    An instant without monotonic clock reading, which is what [os.Stat] and
    the Dropbox metadata both produce: seconds since January 1, year 1 UTC
    and nanoseconds within the second. *)

Module Time.

Record t : Type := mk { sec : Z; nsec : Z }.

(** [time.Time{}] *)
Definition zero : t := mk 0 0.

(** [func (t Time) IsZero() bool] *)
Definition IsZero (x : t) : bool := (sec x =? 0) && (nsec x =? 0).

(** [func (t Time) After(u Time) bool] *)
Definition After (x u : t) : bool :=
  (sec x >? sec u) || ((sec x =? sec u) && (nsec x >? nsec u)).

(** [func (t Time) Equal(u Time) bool] *)
Definition Equal (x u : t) : bool :=
  (sec x =? sec u) && (nsec x =? nsec u).

End Time.

(** ** Data model *)

(** [dropbox.FileInfo] *)
Record FileInfo : Type := mkFileInfo {
  Path : string;
  Name : string;
  Size : Z;              (* uint64 *)
  ModTime : Time.t;
  IsFolder : bool;
  ContentHash : string;
  Rev : string
}.

(** The fields of [config.Config] that the engine reads. *)
Record Config : Type := mkConfig {
  BackupDir : string;
  Delete : bool;
  Exclude : list string;
  MaxConcurrency : nat
}.

(** [backup.Stats], without the two wall-clock stamps. *)
Record Stats : Type := mkStats {
  TotalFiles : Z;
  TotalFolders : Z;
  DownloadedFiles : Z;
  SkippedFiles : Z;
  DeletedFiles : Z;
  TotalBytes : Z         (* uint64 *)
}.

Definition emptyStats : Stats := mkStats 0 0 0 0 0 0.

(** What [os.Stat] reports of a local entry. *)
Record FileStat : Type := mkFileStat {
  stSize : Z;            (* int64 *)
  stModTime : Time.t;
  stIsDir : bool
}.

(** The local file system: a path that is not in the map makes [os.Stat]
    return an error. *)
Abbreviation FS := (gmap string FileStat).

(** ** The skip decision *)

(** [func (e *Engine) shouldSkipFile(localPath string, remoteFile dropbox.FileInfo) bool] *)
Definition shouldSkipFile (fs : FS) (localPath : string) (remoteFile : FileInfo) : bool :=
  match fs !! localPath with
  | None => false
  | Some stat =>
      if negb (Time.IsZero (ModTime remoteFile))
         && Time.After (stModTime stat) (ModTime remoteFile)
      then true
      else if (stSize stat =? Int.int64_of_uint64 (Size remoteFile))
              && negb (Time.IsZero (ModTime remoteFile))
              && Time.Equal (stModTime stat) (ModTime remoteFile)
      then true
      else false
  end.

(** ** Go's [strings] package, on byte strings *)

Module Strings.

(** [strings.HasPrefix(s, prefix)] *)
Definition HasPrefix (s prefix : string) : bool := String.prefix prefix s.

(** [strings.HasSuffix(s, suffix)]:
    [len(s) >= len(suffix) && s[len(s)-len(suffix):] == suffix] *)
Definition HasSuffix (s suffix : string) : bool :=
  (String.length suffix <=? String.length s)%nat
  && String.eqb
       (substring (String.length s - String.length suffix)
                  (String.length suffix) s)
       suffix.

(** [strings.TrimPrefix(s, prefix)] *)
Definition TrimPrefix (s prefix : string) : string :=
  if HasPrefix s prefix
  then substring (String.length prefix)
                 (String.length s - String.length prefix) s
  else s.

(** [strings.Contains(s, substr)] *)
Fixpoint Contains (s substr : string) : bool :=
  String.prefix substr s
  || match s with
     | EmptyString => false
     | String _ s' => Contains s' substr
     end.

End Strings.

(** ** Errors

    A Go [error] is either an opaque error of a collaborator or an error
    wrapped by [fmt.Errorf("...: %w", err)]. *)

Inductive error : Type :=
| ErrorString (msg : string)
| Wrapped (context : string) (cause : error).

(** [context.Canceled], what [ctx.Err()] returns once [ctx.Done()] is closed. *)
Definition Canceled : error := ErrorString "context canceled".

(** ** The [path/filepath] functions the engine calls

    They belong to the Go library, not to the repository, so the engine is
    embedded over any implementation of them; [GoFilepath] below is the
    Unix one. *)

Class Filepath : Type := {
  (** [filepath.Join(a, b)] *)
  Join : string -> string -> string;
  (** [filepath.Base(path)] *)
  Base : string -> string;
  (** [filepath.Match(pattern, name)]: the match and the error *)
  Match : string -> string -> bool * option error
}.


Section Exclusion.

Context `{Filepath}.

(** [func (e *Engine) isInExcludeFile(path, excludeFile string) bool] *)
Definition isInExcludeFile (path excludeFile : string) : bool := false.

(** The body of the [for _, pattern := range e.config.Exclude] loop of
    [shouldExclude]: [true] is [return true], [false] is a [continue] or
    falling off the end of the body. *)
Definition excludeStep (pattern path : string) : bool :=
  if Strings.HasPrefix pattern "@" then
    let excludeFile := Strings.TrimPrefix pattern "@" in
    if isInExcludeFile path excludeFile then true else false
  else if Strings.HasSuffix pattern "/" then
    if Strings.HasPrefix path pattern
       || Strings.Contains path ("/" ++ pattern)
    then true else false
  else if fst (Match pattern (Base path)) then true
  else if fst (Match pattern path) then true
  else false.




(** The loop of [shouldExclude] over the configured patterns. *)
Fixpoint excludeLoop (patterns : list string) (path : string) : bool :=
  match patterns with
  | [] => false
  | pattern :: rest =>
      if excludeStep pattern path then true else excludeLoop rest path
  end.

(** [func (e *Engine) shouldExclude(path string) bool] *)
Definition shouldExclude (cfg : Config) (path : string) : bool :=
  excludeLoop (Exclude cfg) path.

(** The loop of [filterFiles]: [filtered = append(filtered, file)] for the
    files that are not excluded. *)
Fixpoint filterLoop (cfg : Config) (files filtered : list FileInfo)
  : list FileInfo :=
  match files with
  | [] => filtered
  | file :: rest =>
      if negb (shouldExclude cfg (Path file))
      then filterLoop cfg rest (filtered ++ [file])
      else filterLoop cfg rest filtered
  end.

(** [func (e *Engine) filterFiles(files []dropbox.FileInfo) []dropbox.FileInfo] *)
Definition filterFiles (cfg : Config) (files : list FileInfo) : list FileInfo :=
  if (List.length (Exclude cfg) =? 0)%nat then files
  else filterLoop cfg files [].

(** [filepath.Join(e.config.BackupDir, strings.TrimPrefix(file.Path, "/"))],
    the local path of a remote entry in [downloadFile] and in
    [deleteOrphanedFiles]. *)
Definition localPath (cfg : Config) (file : FileInfo) : string :=
  Join (BackupDir cfg) (Strings.TrimPrefix (Path file) "/").

End Exclusion.

(** ** [path/filepath] on Unix

    A model of the Go library functions on byte strings. Where
    [filepath.Match] reads a rune, of the name for [?] and for a character
    class, of the pattern for the bounds of a class, the rune is decoded
    from the bytes the way [utf8.DecodeRuneInString] does it. *)

Module GoPath.

Definition isSlash (c : ascii) : bool := Ascii.eqb c "/".

Definition nonEmpty (s : string) : bool := negb (String.eqb s "").

(** The elements of a path between its separators. *)
Fixpoint splitSlash (s : string) : list string :=
  match s with
  | EmptyString => [EmptyString]
  | String c s' =>
      match splitSlash s' with
      | [] => [String c EmptyString]
      | x :: xs => if isSlash c then EmptyString :: x :: xs
                   else String c x :: xs
      end
  end.

Fixpoint joinSlash (elems : list string) : string :=
  match elems with
  | [] => EmptyString
  | [x] => x
  | x :: rest => x ++ "/" ++ joinSlash rest
  end.

(** One element of the path in [Clean]; [out] is the output so far, last
    element first. *)
Definition cleanElem (rooted : bool) (out : list string) (elem : string)
  : list string :=
  if String.eqb elem "" || String.eqb elem "." then out
  else if String.eqb elem ".." then
    match out with
    | top :: below =>
        if String.eqb top ".." then ".." :: out else below
    | [] => if rooted then [] else [".."]
    end
  else elem :: out.

(** [filepath.Clean(path)] *)
Definition Clean (path : string) : string :=
  match path with
  | EmptyString => "."
  | String c _ =>
      let rooted := isSlash c in
      let out := fold_left (cleanElem rooted) (splitSlash path) [] in
      let body := joinSlash (rev out) in
      if rooted then "/" ++ body
      else if nonEmpty body then body else "."
  end.

(** [filepath.Join(a, b)]: the first empty elements are ignored, the rest
    is joined by the separator and cleaned. *)
Definition Join (a b : string) : string :=
  if nonEmpty a then Clean (a ++ "/" ++ b)
  else if nonEmpty b then Clean b
  else "".

Fixpoint stripTrailingSlashes (s : string) : string :=
  match s with
  | EmptyString => EmptyString
  | String c s' =>
      let r := stripTrailingSlashes s' in
      if isSlash c && String.eqb r "" then EmptyString else String c r
  end.

(** [filepath.Base(path)] *)
Definition Base (path : string) : string :=
  if String.eqb path "" then "."
  else
    let p := List.last (splitSlash (stripTrailingSlashes path)) "" in
    if String.eqb p "" then "/" else p.

(** [filepath.ErrBadPattern] *)
Definition ErrBadPattern : error := ErrorString "syntax error in pattern".

Fixpoint dropStars (pattern : string) : bool * string :=
  match pattern with
  | String c p' =>
      if Ascii.eqb c "*" then (true, snd (dropStars p')) else (false, pattern)
  | EmptyString => (false, pattern)
  end.

(** The length of the chunk that starts [pattern] in [scanChunk]. *)
Fixpoint chunkLen (pattern : string) (inrange : bool) : nat :=
  match pattern with
  | EmptyString => 0
  | String c p' =>
      if Ascii.eqb c "\" then
        match p' with
        | EmptyString => 1
        | String _ p'' => 2 + chunkLen p'' inrange
        end
      else if Ascii.eqb c "[" then 1 + chunkLen p' true
      else if Ascii.eqb c "]" then 1 + chunkLen p' false
      else if Ascii.eqb c "*" then
        if inrange then 1 + chunkLen p' inrange else 0
      else 1 + chunkLen p' inrange
  end%nat.

(** [scanChunk(pattern)]: the star, the chunk and the rest. *)
Definition scanChunk (pattern : string) : bool * string * string :=
  let '(star, p) := dropStars pattern in
  let i := chunkLen p false in
  (star, substring 0 i p, substring i (String.length p - i) p).

Definition byteOf (c : ascii) : Z := Z.of_nat (nat_of_ascii c).

(** [s[n:]] *)
Fixpoint sliceFrom (n : nat) (s : string) : string :=
  match n, s with
  | O, _ => s
  | S n', String _ t => sliceFrom n' t
  | S _, EmptyString => EmptyString
  end.

(** [utf8.RuneError] *)
Definition RuneError : Z := 65533.

(** The tables [first] and [acceptRanges] of [unicode/utf8]: for the first
    byte of a sequence of several bytes, the length of the sequence and the
    bounds of its second byte; [None] for a byte that starts no such
    sequence. *)
Definition firstByte (s0 : Z) : option (nat * Z * Z) :=
  if s0 <? 194 then None                       (* 0x80-0xC1 *)
  else if s0 <? 224 then Some (2%nat, 128, 191)    (* 0xC2-0xDF *)
  else if s0 =? 224 then Some (3%nat, 160, 191)    (* 0xE0 *)
  else if s0 =? 237 then Some (3%nat, 128, 159)    (* 0xED *)
  else if s0 <? 240 then Some (3%nat, 128, 191)    (* 0xE1-0xEF *)
  else if s0 =? 240 then Some (4%nat, 144, 191)    (* 0xF0 *)
  else if s0 <? 244 then Some (4%nat, 128, 191)    (* 0xF1-0xF3 *)
  else if s0 =? 244 then Some (4%nat, 128, 143)    (* 0xF4 *)
  else None.                                   (* 0xF5-0xFF *)

(** A continuation byte, between [locb] and [hicb]. *)
Definition continuationByte (b : Z) : bool := (128 <=? b) && (b <=? 191).

(** [utf8.DecodeRuneInString(s)]: the rune and its width in bytes. *)
Definition DecodeRuneInString (s : string) : Z * nat :=
  match s with
  | EmptyString => (RuneError, 0%nat)
  | String c0 t0 =>
      let s0 := byteOf c0 in
      if s0 <? 128 then (s0, 1%nat)
      else
        match firstByte s0 with
        | None => (RuneError, 1%nat)
        | Some (sz, lo, hi) =>
            if (String.length s <? sz)%nat then (RuneError, 1%nat)
            else
              match t0 with
              | EmptyString => (RuneError, 1%nat)
              | String c1 t1 =>
                  let s1 := byteOf c1 in
                  if (s1 <? lo) || (hi <? s1) then (RuneError, 1%nat)
                  else if (sz <=? 2)%nat then
                    (Z.lor (Z.shiftl (Z.land s0 31) 6) (Z.land s1 63), 2%nat)
                  else
                    match t1 with
                    | EmptyString => (RuneError, 1%nat)
                    | String c2 t2 =>
                        let s2 := byteOf c2 in
                        if negb (continuationByte s2) then (RuneError, 1%nat)
                        else if (sz <=? 3)%nat then
                          (Z.lor (Z.shiftl (Z.land s0 15) 12)
                                 (Z.lor (Z.shiftl (Z.land s1 63) 6)
                                        (Z.land s2 63)), 3%nat)
                        else
                          match t2 with
                          | EmptyString => (RuneError, 1%nat)
                          | String c3 _ =>
                              let s3 := byteOf c3 in
                              if negb (continuationByte s3)
                              then (RuneError, 1%nat)
                              else
                                (Z.lor (Z.shiftl (Z.land s0 7) 18)
                                   (Z.lor (Z.shiftl (Z.land s1 63) 12)
                                      (Z.lor (Z.shiftl (Z.land s2 63) 6)
                                             (Z.land s3 63))), 4%nat)
                          end
                    end
              end
        end
  end.

(** [getEsc(chunk)]: the rune and the rest of the chunk, or
    [ErrBadPattern]. *)
Definition getEsc (chunk : string) : option (Z * string) :=
  match chunk with
  | EmptyString => None
  | String c rest =>
      if Ascii.eqb c "-" || Ascii.eqb c "]" then None
      else
        let chunk' := if Ascii.eqb c "\" then rest else chunk in
        if String.eqb chunk' "" then None
        else
          let '(r, n) := DecodeRuneInString chunk' in
          let nchunk := sliceFrom n chunk' in
          if (r =? RuneError) && (n =? 1)%nat then None
          else if String.eqb nchunk "" then None
          else Some (r, nchunk)
  end.

(** The loop over the ranges of a character class in [matchChunk]. *)
Fixpoint classLoop (fuel : nat) (chunk : string) (r : Z) (nrange : nat)
  (matched : bool) : option (string * bool) :=
  match fuel with
  | O => None
  | S fuel' =>
      match chunk with
      | String c rest =>
          if Ascii.eqb c "]" && (0 <? nrange)%nat then Some (rest, matched)
          else classRange fuel' chunk r nrange matched
      | EmptyString => classRange fuel' chunk r nrange matched
      end
  end
with classRange (fuel : nat) (chunk : string) (r : Z) (nrange : nat)
  (matched : bool) {struct fuel} : option (string * bool) :=
  match fuel with
  | O => None
  | S fuel' =>
      match getEsc chunk with
      | None => None
      | Some (lo, chunk1) =>
          let next hi chunk2 :=
            classLoop fuel' chunk2 r (S nrange)
                      (matched || ((lo <=? r) && (r <=? hi))) in
          match chunk1 with
          | String d after =>
              if Ascii.eqb d "-" then
                match getEsc after with
                | None => None
                | Some (hi, chunk2) => next hi chunk2
                end
              else next lo chunk1
          | EmptyString => next lo chunk1
          end
      end
  end.

(** [matchChunk(chunk, s)]: the rest of [s], whether the chunk matched, and
    the error. [failed] is the flag of the same name. *)
Fixpoint matchChunkLoop (fuel : nat) (chunk s : string) (failed : bool)
  : string * bool * option error :=
  match fuel with
  | O => ("", false, Some ErrBadPattern)
  | S fuel' =>
      match chunk with
      | EmptyString => if failed then ("", false, None) else (s, true, None)
      | String c chunk1 =>
          let failed := failed || String.eqb s "" in
          let s0 := match s with String a _ => a | EmptyString => zero end in
          let s1 := match s with String _ t => t | EmptyString => "" end in
          let '(r0, n) := DecodeRuneInString s in
          if Ascii.eqb c "[" then
            let r := if failed then 0 else r0 in
            let s' := if failed then s else sliceFrom n s in
            let negated :=
              match chunk1 with String n _ => Ascii.eqb n "^" | _ => false end in
            let chunk2 :=
              match chunk1 with
              | String n t => if Ascii.eqb n "^" then t else chunk1
              | EmptyString => chunk1
              end in
            match classLoop (2 * S (String.length chunk2)) chunk2 r 0 false with
            | None => ("", false, Some ErrBadPattern)
            | Some (chunk3, matched) =>
                matchChunkLoop fuel' chunk3 s'
                  (failed || Bool.eqb matched negated)
            end
          else if Ascii.eqb c "?" then
            if failed then matchChunkLoop fuel' chunk1 s failed
            else matchChunkLoop fuel' chunk1 (sliceFrom n s) (isSlash s0)
          else
            let lit (ch : ascii) (chunk2 : string) :=
              if failed then matchChunkLoop fuel' chunk2 s failed
              else matchChunkLoop fuel' chunk2 s1 (negb (Ascii.eqb ch s0)) in
            if Ascii.eqb c "\" then
              match chunk1 with
              | EmptyString => ("", false, Some ErrBadPattern)
              | String ch chunk2 => lit ch chunk2
              end
            else lit c chunk1
      end
  end.

Definition matchChunk (chunk s : string) : string * bool * option error :=
  matchChunkLoop (S (String.length chunk)) chunk s false.

Inductive StarResult : Type :=
| StarFound (t : string)
| StarError (e : error)
| StarNone.

(** The loop [for i := 0; i < len(name) && name[i] != Separator; i++] of
    [Match], which tries the chunk after skipping [i+1] bytes. *)
Fixpoint starLoop (chunk : string) (lastChunk : bool) (name : string)
  : StarResult :=
  match name with
  | EmptyString => StarNone
  | String c name' =>
      if isSlash c then StarNone
      else
        let '(t, ok, err) := matchChunk chunk name' in
        if ok then
          if lastChunk && nonEmpty t then starLoop chunk lastChunk name'
          else StarFound t
        else
          match err with
          | Some e => StarError e
          | None => starLoop chunk lastChunk name'
          end
  end.

(** The check of the remaining pattern before [Match] returns
    [false, nil]. *)
Fixpoint checkRest (fuel : nat) (pattern : string) : option error :=
  match fuel with
  | O => None
  | S fuel' =>
      if nonEmpty pattern then
        let '(_, chunk, rest) := scanChunk pattern in
        match matchChunk chunk "" with
        | (_, _, Some e) => Some e
        | _ => checkRest fuel' rest
        end
      else None
  end.

(** The loop labelled [Pattern] of [Match]. *)
Fixpoint matchLoop (fuel : nat) (pattern name : string) : bool * option error :=
  match fuel with
  | O => (false, None)
  | S fuel' =>
      if nonEmpty pattern then
        let '(star, chunk, rest) := scanChunk pattern in
        if star && String.eqb chunk "" then
          (negb (Strings.Contains name "/"), None)
        else
          let '(t, ok, err) := matchChunk chunk name in
          if ok && (String.eqb t "" || nonEmpty rest) then
            matchLoop fuel' rest t
          else
            match err with
            | Some e => (false, Some e)
            | None =>
                let noMatch := (false, checkRest (String.length rest) rest) in
                if star then
                  match starLoop chunk (String.eqb rest "") name with
                  | StarFound t => matchLoop fuel' rest t
                  | StarError e => (false, Some e)
                  | StarNone => noMatch
                  end
                else noMatch
            end
      else (String.eqb name "", None)
  end.

(** [filepath.Match(pattern, name)] *)
Definition Match (pattern name : string) : bool * option error :=
  matchLoop (S (String.length pattern)) pattern name.

(** The smiling face U+263A, zeta U+03B6 and alpha U+03B1 in UTF-8. *)
Definition smiley : string :=
  String "226" (String "152" (String "186" EmptyString)).
Definition zeta : string := String "206" (String "182" EmptyString).
Definition alpha : string := String "206" (String "177" EmptyString).

(** Entries of the table of the tests of [filepath.Match] in
    [path/filepath]: pattern, name, match, and whether the error is
    [ErrBadPattern]. *)
Definition matchTests : list (string * string * bool * bool) :=
  [("abc", "abc", true, false); ("*", "abc", true, false);
   ("*c", "abc", true, false); ("a*", "a", true, false);
   ("a*", "abc", true, false); ("a*", "ab/c", false, false);
   ("a*/b", "abc/b", true, false); ("a*/b", "a/c/b", false, false);
   ("a*b*c*d*e*/f", "axbxcxdxe/f", true, false);
   ("a*b*c*d*e*/f", "axbxcxdxexxx/f", true, false);
   ("a*b*c*d*e*/f", "axbxcxdxe/xxx/f", false, false);
   ("a*b*c*d*e*/f", "axbxcxdxexxx/fff", false, false);
   ("a*b?c*x", "abxbbxdbxebxczzx", true, false);
   ("a*b?c*x", "abxbbxdbxebxczzy", false, false);
   ("ab[c]", "abc", true, false); ("ab[b-d]", "abc", true, false);
   ("ab[e-g]", "abc", false, false); ("ab[^c]", "abc", false, false);
   ("ab[^b-d]", "abc", false, false); ("ab[^e-g]", "abc", true, false);
   ("a\*b", "a*b", true, false); ("a\*b", "ab", false, false);
   ("a?b", "a/b", false, false); ("a*b", "a/b", false, false);
   ("[\]a]", "]", true, false); ("[\-]", "-", true, false);
   ("[x\-]", "x", true, false); ("[x\-]", "-", true, false);
   ("[x\-]", "z", false, false); ("[\-x]", "x", true, false);
   ("[\-x]", "-", true, false); ("[\-x]", "a", false, false);
   ("[]a]", "]", false, true); ("[-]", "-", false, true);
   ("[x-]", "x", false, true); ("[x-]", "-", false, true);
   ("[x-]", "z", false, true); ("[-x]", "x", false, true);
   ("[-x]", "-", false, true); ("[-x]", "a", false, true);
   ("\", "a", false, true); ("[a-b-c]", "a", false, true);
   ("[", "a", false, true); ("[^", "a", false, true);
   ("[^bc", "a", false, true); ("a[", "a", false, true);
   ("a[", "ab", false, true); ("a[", "x", false, true);
   ("a/b[", "x", false, true); ("*x", "xxx", true, false);
   ("a?b", "a" ++ smiley ++ "b", true, false);
   ("a[^a]b", "a" ++ smiley ++ "b", true, false);
   ("a???b", "a" ++ smiley ++ "b", false, false);
   ("a[^a][^a][^a]b", "a" ++ smiley ++ "b", false, false);
   ("[a-" ++ zeta ++ "]*", alpha, true, false);
   ("*[a-" ++ zeta ++ "]", "A", false, false)].

Definition matchTestPasses (t : string * string * bool * bool) : bool :=
  let '(pattern, name, matched, bad) := t in
  match Match pattern name with
  | (m, None) => Bool.eqb m matched && negb bad
  | (m, Some _) => Bool.eqb m matched && bad
  end.

Definition cleanTests : list (string * string) :=
  [("abc", "abc"); ("abc/def", "abc/def"); (".", "."); ("..", "..");
   ("../../abc", "../../abc"); ("/abc", "/abc"); ("/", "/"); ("", ".");
   ("abc/", "abc"); ("./", "."); ("../../", "../.."); ("/abc/", "/abc");
   ("abc//def//ghi", "abc/def/ghi"); ("abc/./def", "abc/def");
   ("/./abc/def", "/abc/def"); ("abc/def/ghi/../jkl", "abc/def/jkl");
   ("abc/def/../..", "."); ("/abc/def/../..", "/");
   ("abc/def/../../..", ".."); ("/abc/def/../../..", "/");
   ("abc/def/../../../ghi/jkl/../../../mno", "../../mno");
   ("/../abc", "/abc"); ("abc/./../def", "def");
   ("abc/../../././../def", "../../def")].

Definition baseTests : list (string * string) :=
  [("", "."); (".", "."); ("/.", "."); ("/", "/"); ("////", "/");
   ("x/", "x"); ("abc", "abc"); ("abc/def", "def"); ("a/b/.x", ".x");
   ("a/b/c.", "c."); ("a/b/c.x", "c.x")].

End GoPath.

#[export] Instance GoFilepath : Filepath :=
  {| Join := GoPath.Join; Base := GoPath.Base; Match := GoPath.Match |}.

(** ** [formatBytes] *)

(** The loop [for n := bytes / unit; n >= unit; n /= unit { div *= unit; exp++ }]
    entered with the current [n], [div] and [exp]; it returns the final
    [div] and [exp]. *)
Equations? formatLoop (n div exp : Z) : Z * Z
  by wf (Z.to_nat (Z.log2 n)) lt :=
  formatLoop n div exp with Z_le_gt_dec 1024 n := {
    | left _ => formatLoop (n / 1024) (Int.wrap_uint64 (div * 1024)) (exp + 1);
    | right _ => (div, exp) }.
Proof.
  change 1024 with (2 ^ 10) at 1. rewrite <- Z.shiftr_div_pow2 by lia.
  rewrite Z.log2_shiftr by lia.
  assert (10 <= Z.log2 n) by (apply Z.log2_le_pow2; lia).
  lia.
Qed.

(** The two shapes of the result: [fmt.Sprintf("%d B", bytes)] and
    [fmt.Sprintf("%.1f %cB", float64(bytes)/float64(div), unit)]. *)
Inductive Formatted : Type :=
| PlainBytes (bytes : Z)
| ScaledBytes (bytes div : Z) (unit : ascii).

(** [s[i]] on a Go string: [None] is the run-time panic "index out of
    range". *)
Definition byteAt (s : string) (i : Z) : option ascii :=
  if (0 <=? i) && (i <? Z.of_nat (String.length s))
  then String.get (Z.to_nat i) s
  else None.

(** [func formatBytes(bytes uint64) string]; [None] is a panic. *)
Definition formatBytes (bytes : Z) : option Formatted :=
  if bytes <? 1024 then Some (PlainBytes bytes)
  else
    let '(div, exp) := formatLoop (bytes / 1024) 1024 0 in
    match byteAt "KMGTPE" exp with
    | Some c => Some (ScaledBytes bytes div c)
    | None => None
    end.

(** ** The download phase

    [downloadFiles] starts one goroutine per file and a goroutine that
    closes the error channel once the wait group is at zero, and ranges
    over the error channel. The goroutines are interleaved by the
    scheduler: the phase is a transition system, one transition per step of
    one goroutine, and a schedule is the list of the goroutines that move.

    The steps are as fine as the shared state asks for: a worker's
    [select], the calls of [downloadFile] to the operating system and to
    the client (one step), the read and the write of each update of a
    counter of [Stats] (Go gives [x++] and [x += n] on a plain field no
    atomicity), and the end of the worker (the send of its error, the
    return of its slot and [wg.Done()], one step). *)

(** What the environment answers to the calls of [downloadFile] for one
    remote file: [os.MkdirAll], [Client.Download], [os.Create], [io.Copy]
    (bytes written and error), the modification time the file system gives
    the written file, and [os.Chtimes]. *)
Record IO : Type := mkIO {
  ioMkdirAll : option error;
  ioDownload : option error;
  ioCreate : option error;
  ioCopy : Z * option error;
  ioNow : Time.t;
  ioChtimes : option error
}.

(** The program counter of a worker goroutine. A counter update such as
    [stats.SkippedFiles++] is a read of the field followed by a write. *)
Inductive WorkerPC : Type :=
| WSelect                             (* at the [select] *)
| WDownload                           (* slot taken, [downloadFile] called *)
| WSkipLoad                           (* [stats.SkippedFiles++]: read *)
| WSkipStore (v : Z)                  (*   write of [v + 1] *)
| WDlLoad (written : Z)               (* [stats.DownloadedFiles++]: read *)
| WDlStore (written v : Z)            (*   write of [v + 1] *)
| WBytesLoad (written : Z)            (* [stats.TotalBytes += ...]: read *)
| WBytesStore (written v : Z)         (*   write of [v + written] *)
| WReturn (err : option error)        (* [downloadFile] has returned *)
| WDone (sent : option error).        (* ended; what it sent to [errChan] *)

Record Worker : Type := mkWorker { wFile : FileInfo; wPC : WorkerPC }.

(** The goroutine of [downloadFiles] itself. *)
Inductive MainPC : Type :=
| Spawning (rest : list FileInfo)     (* in [for _, file := range files] *)
| Collecting                          (* in [for err := range errChan] *)
| Returned (err : option error).

Inductive WaiterPC : Type :=
| WaiterNotStarted
| WaiterWaiting                       (* in [wg.Wait()] *)
| WaiterDone.                         (* after [close(errChan)] *)

Record DState : Type := mkDState {
  dMain : MainPC;
  dWorkers : list Worker;
  dWaiter : WaiterPC;
  dWG : nat;                          (* the counter of [wg] *)
  dErrChan : list (option error);     (* the buffer of [errChan] *)
  dClosed : bool;                     (* [errChan] is closed *)
  dSem : nat;                         (* tokens in [e.semaphore] *)
  dCancelled : bool;                  (* [ctx.Done()] is closed *)
  dStats : Stats;
  dFS : FS;
  dCreated : list string              (* paths given to [os.Create] *)
}.

Definition setMain (m : MainPC) (s : DState) : DState :=
  mkDState m (dWorkers s) (dWaiter s) (dWG s) (dErrChan s) (dClosed s)
           (dSem s) (dCancelled s) (dStats s) (dFS s) (dCreated s).

Definition setWorkers (ws : list Worker) (s : DState) : DState :=
  mkDState (dMain s) ws (dWaiter s) (dWG s) (dErrChan s) (dClosed s)
           (dSem s) (dCancelled s) (dStats s) (dFS s) (dCreated s).

Definition setWaiter (w : WaiterPC) (s : DState) : DState :=
  mkDState (dMain s) (dWorkers s) w (dWG s) (dErrChan s) (dClosed s)
           (dSem s) (dCancelled s) (dStats s) (dFS s) (dCreated s).

Definition setWG (n : nat) (s : DState) : DState :=
  mkDState (dMain s) (dWorkers s) (dWaiter s) n (dErrChan s) (dClosed s)
           (dSem s) (dCancelled s) (dStats s) (dFS s) (dCreated s).

Definition setErrChan (q : list (option error)) (s : DState) : DState :=
  mkDState (dMain s) (dWorkers s) (dWaiter s) (dWG s) q (dClosed s)
           (dSem s) (dCancelled s) (dStats s) (dFS s) (dCreated s).

Definition setClosed (b : bool) (s : DState) : DState :=
  mkDState (dMain s) (dWorkers s) (dWaiter s) (dWG s) (dErrChan s) b
           (dSem s) (dCancelled s) (dStats s) (dFS s) (dCreated s).

Definition setSem (n : nat) (s : DState) : DState :=
  mkDState (dMain s) (dWorkers s) (dWaiter s) (dWG s) (dErrChan s) (dClosed s)
           n (dCancelled s) (dStats s) (dFS s) (dCreated s).

Definition setCancelled (b : bool) (s : DState) : DState :=
  mkDState (dMain s) (dWorkers s) (dWaiter s) (dWG s) (dErrChan s) (dClosed s)
           (dSem s) b (dStats s) (dFS s) (dCreated s).

Definition setStats (st : Stats) (s : DState) : DState :=
  mkDState (dMain s) (dWorkers s) (dWaiter s) (dWG s) (dErrChan s) (dClosed s)
           (dSem s) (dCancelled s) st (dFS s) (dCreated s).

Definition setFS (fs : FS) (created : list string) (s : DState) : DState :=
  mkDState (dMain s) (dWorkers s) (dWaiter s) (dWG s) (dErrChan s) (dClosed s)
           (dSem s) (dCancelled s) (dStats s) fs created.

Definition setSkippedFiles (v : Z) (st : Stats) : Stats :=
  mkStats (TotalFiles st) (TotalFolders st) (DownloadedFiles st) v
          (DeletedFiles st) (TotalBytes st).

Definition setDownloadedFiles (v : Z) (st : Stats) : Stats :=
  mkStats (TotalFiles st) (TotalFolders st) v (SkippedFiles st)
          (DeletedFiles st) (TotalBytes st).

Definition setTotalBytes (v : Z) (st : Stats) : Stats :=
  mkStats (TotalFiles st) (TotalFolders st) (DownloadedFiles st)
          (SkippedFiles st) (DeletedFiles st) v.

Definition setDeletedFiles (v : Z) (st : Stats) : Stats :=
  mkStats (TotalFiles st) (TotalFolders st) (DownloadedFiles st)
          (SkippedFiles st) v (TotalBytes st).

Definition setTotals (files folders : Z) (st : Stats) : Stats :=
  mkStats files folders (DownloadedFiles st) (SkippedFiles st)
          (DeletedFiles st) (TotalBytes st).

(** The steps of the scheduler. *)
Inductive Label : Type :=
| LMain                 (* the goroutine of [downloadFiles] *)
| LWaiter               (* [wg.Wait(); close(errChan)] *)
| LAcquire (i : nat)    (* worker [i]: [case e.semaphore <- struct{}{}] *)
| LCtxDone (i : nat)    (* worker [i]: [case <-ctx.Done()] *)
| LWorker (i : nat)     (* worker [i]: its next step after the [select] *)
| LCancel.              (* the context of the run is cancelled *)

Section Download.

Context `{Filepath}.
Variable cfg : Config.
Variable io : FileInfo -> IO.
Variable files : list FileInfo.

(** [downloadFile] from [os.MkdirAll] to [os.Chtimes]: the file system, the
    paths created so far, and the error or the number of bytes written. *)
Definition transfer (file : FileInfo) (fs : FS) (created : list string)
  : FS * list string * (error + Z) :=
  let path := localPath cfg file in
  let r := io file in
  match ioMkdirAll r with
  | Some err => (fs, created, inl (Wrapped "failed to create directory" err))
  | None =>
  match ioDownload r with
  | Some err => (fs, created, inl (Wrapped "failed to download from Dropbox" err))
  | None =>
  match ioCreate r with
  | Some err => (fs, created, inl (Wrapped "failed to create local file" err))
  | None =>
  let written := fst (ioCopy r) in
  let fs1 := <[path := mkFileStat written (ioNow r) false]> fs in
  let created1 := (created ++ [path])%list in
  match snd (ioCopy r) with
  | Some err => (fs1, created1, inl (Wrapped "failed to write file content" err))
  | None =>
  let fs2 :=
    if negb (Time.IsZero (ModTime file)) then
      match ioChtimes r with
      | None => <[path := mkFileStat written (ModTime file) false]> fs1
      | Some _ => fs1
      end
    else fs1 in
  (fs2, created1, inr written)
  end end end end.

Definition setPC (i : nat) (w : Worker) (pc : WorkerPC) (s : DState) : DState :=
  setWorkers (<[i := mkWorker (wFile w) pc]> (dWorkers s)) s.

(** [errChan <- err]; the channel has room for [len(files)] errors. *)
Definition send (err : error) (s : DState) : option DState :=
  if (List.length (dErrChan s) <? List.length files)%nat
  then Some (setErrChan (dErrChan s ++ [Some err]) s)
  else None.

(** One step of the goroutine of [downloadFiles]. *)
Definition stepMain (s : DState) : option DState :=
  match dMain s with
  | Spawning [] =>
      Some (setMain Collecting (setWaiter WaiterWaiting s))
  | Spawning (file :: rest) =>
      if IsFolder file then Some (setMain (Spawning rest) s)
      else
        Some (setMain (Spawning rest)
               (setWG (S (dWG s))
                 (setWorkers (dWorkers s ++ [mkWorker file WSelect]) s)))
  | Collecting =>
      match dErrChan s with
      | Some err :: q => Some (setMain (Returned (Some err)) (setErrChan q s))
      | None :: q => Some (setErrChan q s)
      | [] => if dClosed s then Some (setMain (Returned None) s) else None
      end
  | Returned _ => None
  end.

(** [wg.Wait(); close(errChan)] *)
Definition stepWaiter (s : DState) : option DState :=
  match dWaiter s with
  | WaiterWaiting =>
      if (dWG s =? 0)%nat then Some (setWaiter WaiterDone (setClosed true s))
      else None
  | _ => None
  end.

(** The end of a worker that holds a slot: the error, if any, is sent, the
    slot is given back and [wg.Done()] runs. *)
Definition finish (i : nat) (w : Worker) (err : option error) (s : DState)
  : option DState :=
  let sent :=
    match err with
    | Some e => Some (Wrapped ("failed to download " ++ Path (wFile w)) e)
    | None => None
    end in
  s1 ← match sent with Some e => send e s | None => Some s end;
  Some (setPC i w (WDone sent) (setWG (pred (dWG s1)) (setSem (pred (dSem s1)) s1))).

(** One step of worker [i] after its [select]. *)
Definition stepWorker (i : nat) (s : DState) : option DState :=
  w ← dWorkers s !! i;
  match wPC w with
  | WSelect => None
  | WDownload =>
      if shouldSkipFile (dFS s) (localPath cfg (wFile w)) (wFile w)
      then Some (setPC i w WSkipLoad s)
      else
        let '(fs, created, r) := transfer (wFile w) (dFS s) (dCreated s) in
        match r with
        | inl err => Some (setPC i w (WReturn (Some err)) (setFS fs created s))
        | inr written => Some (setPC i w (WDlLoad written) (setFS fs created s))
        end
  | WSkipLoad => Some (setPC i w (WSkipStore (SkippedFiles (dStats s))) s)
  | WSkipStore v =>
      Some (setPC i w (WReturn None)
             (setStats (setSkippedFiles (Int.wrap_int64 (v + 1)) (dStats s)) s))
  | WDlLoad written =>
      Some (setPC i w (WDlStore written (DownloadedFiles (dStats s))) s)
  | WDlStore written v =>
      Some (setPC i w (WBytesLoad written)
             (setStats (setDownloadedFiles (Int.wrap_int64 (v + 1)) (dStats s)) s))
  | WBytesLoad written =>
      Some (setPC i w (WBytesStore written (TotalBytes (dStats s))) s)
  | WBytesStore written v =>
      Some (setPC i w (WReturn None)
             (setStats (setTotalBytes (Int.wrap_uint64 (v + written)) (dStats s)) s))
  | WReturn err => finish i w err s
  | WDone _ => None
  end.

(** Worker [i] takes a slot of the semaphore, whose capacity is
    [MaxConcurrency]. *)
Definition stepAcquire (i : nat) (s : DState) : option DState :=
  w ← dWorkers s !! i;
  match wPC w with
  | WSelect =>
      if (dSem s <? MaxConcurrency cfg)%nat
      then Some (setPC i w WDownload (setSem (S (dSem s)) s))
      else None
  | _ => None
  end.

(** Worker [i] sees the cancelled context: it sends [ctx.Err()] and ends. *)
Definition stepCtxDone (i : nat) (s : DState) : option DState :=
  w ← dWorkers s !! i;
  match wPC w with
  | WSelect =>
      if dCancelled s then
        s1 ← send Canceled s;
        Some (setPC i w (WDone (Some Canceled)) (setWG (pred (dWG s1)) s1))
      else None
  | _ => None
  end.

Definition dstep (l : Label) (s : DState) : option DState :=
  match l with
  | LMain => stepMain s
  | LWaiter => stepWaiter s
  | LAcquire i => stepAcquire i s
  | LCtxDone i => stepCtxDone i s
  | LWorker i => stepWorker i s
  | LCancel => Some (setCancelled true s)
  end.

(** The state after a schedule; [None] when a step of the schedule is not
    enabled. *)
Fixpoint dexec (sched : list Label) (s : DState) : option DState :=
  match sched with
  | [] => Some s
  | l :: rest => s1 ← dstep l s; dexec rest s1
  end.

(** The state in which [downloadFiles] is entered. *)
Definition dinit (stats : Stats) (fs : FS) : DState :=
  mkDState (Spawning files) [] WaiterNotStarted 0 [] false 0 false stats fs [].

(** The states an execution of the phase can be in. *)
Inductive reachable (stats : Stats) (fs : FS) : DState -> Prop :=
| reach_init : reachable stats fs (dinit stats fs)
| reach_step s l s' :
    reachable stats fs s -> dstep l s = Some s' -> reachable stats fs s'.

End Download.

(** A worker whose download is under way or still to come. *)
Definition inFlight (w : Worker) : bool :=
  match wPC w with WDone _ => false | _ => true end.

(** The number of workers that have not ended. *)
Definition pending (ws : list Worker) : nat :=
  List.length (List.filter inFlight ws).

Definition nonFolders (files : list FileInfo) : list FileInfo :=
  List.filter (fun file => negb (IsFolder file)) files.

(** The files the loop of [downloadFiles] has still to visit. *)
Definition toSpawn (m : MainPC) : list FileInfo :=
  match m with Spawning rest => rest | _ => [] end.

(** What an observer of the phase sees of a state: where [downloadFiles]
    is, where its workers are, and the statistics. *)
Definition observe (s : DState) : MainPC * list WorkerPC * Stats :=
  (dMain s, map wPC (dWorkers s), dStats s).

Section DownloadInvariant.

Context `{Filepath}.
Variable cfg : Config.
Variable files : list FileInfo.

(** The invariant of the download phase. *)
Record Inv (s : DState) : Prop := mkInv {
  (** the wait group counts the workers that have not ended *)
  inv_wg : dWG s = pending (dWorkers s);
  (** the workers and the files still to visit are the files of the
      listing that are not folders *)
  inv_files :
    (map wFile (dWorkers s) ++ nonFolders (toSpawn (dMain s)))%list
    = nonFolders files;
  (** the waiter starts after the loop *)
  inv_spawning :
    forall rest, dMain s = Spawning rest ->
                 dWaiter s = WaiterNotStarted /\ dClosed s = false;
  (** the channel is closed when the wait group is at zero *)
  inv_closed : dClosed s = true -> dWG s = 0%nat;
  (** an error a worker has sent is in the channel until it is returned *)
  inv_sent :
    forall w e, In w (dWorkers s) -> wPC w = WDone (Some e) ->
                In (Some e) (dErrChan s) \/ exists e', dMain s = Returned (Some e');
  (** [nil] is returned after every worker has ended without an error *)
  inv_nil :
    dMain s = Returned None ->
    dClosed s = true /\ forall w, In w (dWorkers s) -> wPC w = WDone None;
  (** the paths created are local paths of files of the workers *)
  inv_created :
    forall p, In p (dCreated s) ->
              exists file, In file (map wFile (dWorkers s))
                           /\ p = localPath cfg file;
  (** the channel has room for an error of every worker that has not ended
      and of every goroutine still to start *)
  inv_room :
    (List.length (dErrChan s) + pending (dWorkers s)
     + List.length (nonFolders (toSpawn (dMain s)))
     <= List.length (nonFolders files))%nat
}.

End DownloadInvariant.

(** ** The orphan reconciler *)

(** What [filepath.Walk] hands to the callback for one entry of the backup
    directory, and what [os.Remove] answers for it. *)
Record WalkEntry : Type := mkWalkEntry {
  wePath : string;
  weIsDir : bool;
  weErr : option error;
  weRemove : option error
}.

(** The local state the reconciler works on: the file system, the
    statistics and the paths removed so far. *)
Record Local : Type := mkLocal {
  lFS : FS;
  lStats : Stats;
  lRemoved : list string
}.

Section Orphans.

Context `{Filepath}.
Variable cfg : Config.

(** The map [dropboxFileMap] after the loop over [dropboxFiles]. *)
Definition dropboxFileMap (dropboxFiles : list FileInfo) : gmap string bool :=
  foldl (fun m file => <[localPath cfg file := true]> m) ∅ dropboxFiles.

(** [m[path]] on a Go [map[string]bool]: [false] for a missing key. *)
Definition mapGet (m : gmap string bool) (path : string) : bool :=
  default false (m !! path).

(** The callback of [filepath.Walk] over the entries in the order of the
    walk; the walk stops at the first error the callback returns. *)
Fixpoint walkLoop (m : gmap string bool) (entries : list WalkEntry) (l : Local)
  : option error * Local :=
  match entries with
  | [] => (None, l)
  | en :: rest =>
      match weErr en with
      | Some err => (Some err, l)
      | None =>
          if weIsDir en then walkLoop m rest l
          else if negb (mapGet m (wePath en)) then
            match weRemove en with
            | Some err =>
                (Some (Wrapped ("failed to delete file " ++ wePath en) err), l)
            | None =>
                walkLoop m rest
                  (mkLocal (delete (wePath en) (lFS l))
                     (setDeletedFiles (Int.wrap_int64 (DeletedFiles (lStats l) + 1))
                                      (lStats l))
                     (lRemoved l ++ [wePath en])%list)
            end
          else walkLoop m rest l
      end
  end.

(** [func (e *Engine) deleteOrphanedFiles(ctx, dropboxFiles, stats) error] *)
Definition deleteOrphanedFiles (walk : list WalkEntry)
  (dropboxFiles : list FileInfo) (l : Local) : option error * Local :=
  walkLoop (dropboxFileMap dropboxFiles) walk l.

End Orphans.

(** ** The Dropbox client, as the engine sees it

    Each call answers and leaves the client in a new state. *)

Class DropboxClient (C : Type) : Type := {
  (** [func (c *Client) IsTokenValid() bool] *)
  IsTokenValid : C -> bool;
  (** [func (c *Client) RefreshToken(ctx) error] *)
  RefreshToken : C -> option error * C;
  (** [func (c *Client) ListAll(ctx) ([]FileInfo, error)] *)
  ListAll : C -> (error + list FileInfo) * C
}.

(** The calls of [Run] itself to the client, the ones about the token and
    the listing, for the log of a run. [Client.Download] is not among them:
    the workers of the download phase call it, and what it answers is part
    of [IO]. *)
Inductive Call : Type :=
| CallIsTokenValid
| CallRefreshToken
| CallListAll.

(** ** [Run] *)

(** The state of a run: the client, the token and listing calls made to
    it, the local state and the paths the download phase created. *)
Record World (C : Type) : Type := mkWorld {
  wClient : C;
  wCalls : list Call;
  wLocal : Local;
  wCreated : list string
}.
Arguments mkWorld {C}.
Arguments wClient {C}.
Arguments wCalls {C}.
Arguments wLocal {C}.
Arguments wCreated {C}.

(** How a computation of the run ends: with a value, with the error it
    returns, or not at all under the schedule it was given. *)
Inductive Result (A : Type) : Type :=
| Ok (a : A)
| Fail (err : error)
| Blocked.
Arguments Ok {A}.
Arguments Fail {A}.
Arguments Blocked {A}.

Definition M (C A : Type) : Type := World C -> Result A * World C.

Definition ret {C A} (a : A) : M C A := fun w => (Ok a, w).

Definition fail {C A} (err : error) : M C A := fun w => (Fail err, w).

Definition bind {C A B} (m : M C A) (k : A -> M C B) : M C B :=
  fun w =>
    match m w with
    | (Ok a, w1) => k a w1
    | (Fail err, w1) => (Fail err, w1)
    | (Blocked, w1) => (Blocked, w1)
    end.

Declare Scope run_scope.
Delimit Scope run_scope with run.
Notation "x <- m ;; k" := (bind m (fun x => k))
  (at level 20, m at level 99, k at level 200, only parsing) : run_scope.
Notation "m ;; k" := (bind m (fun _ => k))
  (at level 100, k at level 200, right associativity, only parsing) : run_scope.

(** [if err != nil { return fmt.Errorf(context + ": %w", err) }] *)
Definition check {C} (context : string) (err : option error) : M C unit :=
  match err with
  | Some e => fail (Wrapped context e)
  | None => ret tt
  end.

(** The counts of files and folders of the listing. *)
Fixpoint countEntries (dropboxFiles : list FileInfo) (fileCount folderCount : Z)
  : Z * Z :=
  match dropboxFiles with
  | [] => (fileCount, folderCount)
  | file :: rest =>
      if IsFolder file
      then countEntries rest fileCount (Int.wrap_int64 (folderCount + 1))
      else countEntries rest (Int.wrap_int64 (fileCount + 1)) folderCount
  end.

Section Run.

Context `{Filepath} {C : Type} `{DropboxClient C}.
Variable cfg : Config.
Variable io : FileInfo -> IO.
(** The schedule of the goroutines of the download phase and what the walk
    of the backup directory meets: both are the environment's choice. *)
Variable sched : list Label.
Variable walk : list WalkEntry.

Local Open Scope run_scope.

Definition logCall (c : Call) (client : C) (w : World C) : World C :=
  mkWorld client (wCalls w ++ [c])%list (wLocal w) (wCreated w).

(** The world with the statistics of a new run, [stats := &Stats{...}]. *)
Definition freshStats (w : World C) : World C :=
  mkWorld (wClient w) (wCalls w)
          (mkLocal (lFS (wLocal w)) emptyStats (lRemoved (wLocal w)))
          (wCreated w).

Definition newStats : M C unit := fun w => (Ok tt, freshStats w).

Definition isTokenValid : M C bool :=
  fun w => (Ok (IsTokenValid (wClient w)),
            logCall CallIsTokenValid (wClient w) w).

Definition refreshToken : M C (option error) :=
  fun w => let '(err, c) := RefreshToken (wClient w) in
           (Ok err, logCall CallRefreshToken c w).

Definition listAll : M C (error + list FileInfo) :=
  fun w => let '(r, c) := ListAll (wClient w) in
           (Ok r, logCall CallListAll c w).

Definition setStatsTotals (fileCount folderCount : Z) : M C unit :=
  fun w =>
    let l := wLocal w in
    (Ok tt, mkWorld (wClient w) (wCalls w)
              (mkLocal (lFS l) (setTotals fileCount folderCount (lStats l))
                       (lRemoved l))
              (wCreated w)).

(** The call [e.downloadFiles(ctx, files, stats)] under the schedule: the
    error it returns, in the state the schedule ends in; [Blocked] when
    the schedule does not bring [downloadFiles] to its return. *)
Definition downloadFiles (files : list FileInfo) : M C (option error) :=
  fun w =>
    let l := wLocal w in
    match dexec cfg io files sched (dinit files (lStats l) (lFS l)) with
    | Some s =>
        match dMain s with
        | Returned err =>
            (Ok err, mkWorld (wClient w) (wCalls w)
                       (mkLocal (dFS s) (dStats s) (lRemoved l))
                       (wCreated w ++ dCreated s)%list)
        | _ => (Blocked, w)
        end
    | None => (Blocked, w)
    end.

Definition deleteOrphans (dropboxFiles : list FileInfo) : M C (option error) :=
  fun w =>
    let '(err, l) := deleteOrphanedFiles cfg walk dropboxFiles (wLocal w) in
    (Ok err, mkWorld (wClient w) (wCalls w) l (wCreated w)).

(** The state in which [Run] lists the files: the token is valid, or it
    has been refreshed; [None] when the refresh fails. *)
Definition afterTokenCheck (w : World C) : option (World C) :=
  let w0 := logCall CallIsTokenValid (wClient w) (freshStats w) in
  if IsTokenValid (wClient w) then Some w0
  else
    match RefreshToken (wClient w) with
    | (None, c) => Some (logCall CallRefreshToken c w0)
    | (Some _, _) => None
    end.

(** [Run] from the count of the listed entries to its end. *)
Definition runListed (dropboxFiles : list FileInfo) : M C unit :=
  let '(fileCount, folderCount) := countEntries dropboxFiles 0 0 in
  setStatsTotals fileCount folderCount ;;
  let filteredFiles := filterFiles cfg dropboxFiles in
  err <- downloadFiles filteredFiles ;;
  check "failed to download files" err ;;
  (if Delete cfg then
     err <- deleteOrphans filteredFiles ;;
     check "failed to delete orphaned files" err
   else ret tt) ;;
  ret tt.

(** [func (e *Engine) Run(ctx context.Context) error] *)
Definition Run : M C unit :=
  newStats ;;
  valid <- isTokenValid ;;
  (if negb valid then
     err <- refreshToken ;;
     check "failed to refresh token" err
   else ret tt) ;;
  r <- listAll ;;
  dropboxFiles <-
    match r with
    | inr listed => ret listed
    | inl err =>
        refreshErr <- refreshToken ;;
        match refreshErr with
        | Some _ =>
            fail (Wrapped "failed to list Dropbox files and refresh token" err)
        | None =>
            r2 <- listAll ;;
            match r2 with
            | inl err2 =>
                fail (Wrapped "failed to list Dropbox files after token refresh" err2)
            | inr listed => ret listed
            end
        end
    end ;;
  runListed dropboxFiles.

End Run.

(** ** A scripted client and concrete runs

    The client of the examples answers from a script, the way the mock
    client of the test suite does. *)

Record Script : Type := mkScript {
  scValid : bool;
  scRefresh : list (option error);
  scList : list (error + list FileInfo)
}.

#[export] Instance ScriptedClient : DropboxClient Script := {|
  IsTokenValid s := scValid s;
  RefreshToken s :=
    match scRefresh s with
    | [] => (Some (ErrorString "no token source available for refresh"), s)
    | r :: rest => (r, mkScript (scValid s) rest (scList s))
    end;
  ListAll s :=
    match scList s with
    | [] => (inl (ErrorString "failed to list files"), s)
    | r :: rest => (r, mkScript (scValid s) (scRefresh s) rest)
    end
|}.

Module Examples.

Definition cfg (exclude : list string) (del : bool) : Config :=
  mkConfig "/backup" del exclude 2.

Definition T0 : Time.t := Time.mk 63800000000 0.

Definition remoteFile (path : string) (size : Z) (mtime : Time.t) : FileInfo :=
  mkFileInfo path path size mtime false "" "".

Definition aTxt : FileInfo := remoteFile "/a.txt" 10 T0.
Definition bTxt : FileInfo := remoteFile "/b.txt" 20 T0.

(** Every call of the operating system and of the client succeeds and the
    copy writes the size the listing announced. *)
Definition ioOk (file : FileInfo) : IO :=
  mkIO None None None (Size file, None) (Time.mk 63800000100 0) None.

(** As [ioOk], but the download of [/a.txt] fails. *)
Definition ioFailA (file : FileInfo) : IO :=
  if String.eqb (Path file) "/a.txt"
  then mkIO None (Some (ErrorString "failed to download file /a.txt")) None
            (0, None) (Time.mk 63800000100 0) None
  else ioOk file.

(** Both files are in the backup directory already, in sync. *)
Definition fsSynced : FS :=
  <["/backup/a.txt" := mkFileStat 10 T0 false]>
    (<["/backup/b.txt" := mkFileStat 20 T0 false]> ∅).

(** A remote entry without modification time and a local file of the same
    size whose modification time is the zero instant too. *)
Definition aZero : FileInfo := remoteFile "/a.txt" 10 Time.zero.
Definition statZero : FileStat := mkFileStat 10 Time.zero false.
Definition fsZero : FS := <["/backup/a.txt" := statZero]> ∅.

(** The two workers take a slot each; the download of [/a.txt] fails and
    its error is received while [/b.txt] has not been transferred yet. *)
Definition schedEarlyReturn : list Label :=
  [LMain; LMain; LMain; LAcquire 0; LAcquire 1; LWorker 0; LWorker 0; LMain].

(** The two workers skip their file and run [stats.SkippedFiles++] at the
    same time: both read the counter before either writes it. *)
Definition schedRace : list Label :=
  [LMain; LMain; LMain; LAcquire 0; LAcquire 1; LWorker 0; LWorker 1;
   LWorker 0; LWorker 1; LWorker 0; LWorker 1; LWorker 0; LWorker 1;
   LWaiter; LMain].

(** The same steps with the two increments one after the other. *)
Definition schedSerial : list Label :=
  [LMain; LMain; LMain; LAcquire 0; LWorker 0; LWorker 0; LWorker 0; LWorker 0;
   LAcquire 1; LWorker 1; LWorker 1; LWorker 1; LWorker 1; LWaiter; LMain].

(** Both files are downloaded, and both workers update the counters at
    the same time. *)
Definition schedRaceDownload : list Label :=
  [LMain; LMain; LMain; LAcquire 0; LAcquire 1;
   LWorker 0; LWorker 1; LWorker 0; LWorker 1; LWorker 0; LWorker 1;
   LWorker 0; LWorker 1; LWorker 0; LWorker 1; LWorker 0; LWorker 1;
   LWaiter; LMain].

(** Both files are downloaded, one worker after the other. *)
Definition schedSerialDownload : list Label :=
  [LMain; LMain; LMain;
   LAcquire 0; LWorker 0; LWorker 0; LWorker 0; LWorker 0; LWorker 0; LWorker 0;
   LAcquire 1; LWorker 1; LWorker 1; LWorker 1; LWorker 1; LWorker 1; LWorker 1;
   LWaiter; LMain].

(** The error of the failed download of [/a.txt], as [downloadFiles]
    returns it. *)
Definition errA : error :=
  Wrapped "failed to download /a.txt"
    (Wrapped "failed to download from Dropbox"
       (ErrorString "failed to download file /a.txt")).

Definition world (client : Script) (fs : FS) : World Script :=
  mkWorld client [] (mkLocal fs emptyStats []) [].

(** A client with a valid token whose first listing succeeds. *)
Definition clientOk (listed : list FileInfo) : Script :=
  mkScript true [] [inr listed].

Definition listError : error := ErrorString "failed to list folder".

(** A client whose first listing fails, whose refresh succeeds and whose
    second listing succeeds. *)
Definition clientRetry (listed : list FileInfo) : Script :=
  mkScript true [None] [inl listError; inr listed].

Definition refreshError : error := ErrorString "failed to refresh token".

(** A client whose first listing fails and whose refresh fails. *)
Definition clientRefreshFails : Script :=
  mkScript true [Some refreshError] [inl listError].

(** A client whose two listings fail, with a refresh that succeeds in
    between. *)
Definition clientRetryFails : Script :=
  mkScript true [None] [inl listError; inl (ErrorString "failed to list files")].

(** The walk of the backup directory after the two downloads, with a file
    that is not in Dropbox. *)
Definition walkOrphan : list WalkEntry :=
  [mkWalkEntry "/backup" true None None;
   mkWalkEntry "/backup/a.txt" false None None;
   mkWalkEntry "/backup/b.txt" false None None;
   mkWalkEntry "/backup/orphan.txt" false None None].

End Examples.

(** * More of the engine and of its collaborators *)

(** ** The Dropbox client: metadata and token *)

Module Dropbox.

(** The entries of a listing ([files.IsMetadata]): the metadata of a file,
    of a folder, or of something else (a deleted entry). *)
Inductive Metadata : Type :=
| FileMetadata (PathLower Name : string) (Size : Z) (ClientModified : Time.t)
               (ContentHash Rev : string)
| FolderMetadata (PathLower Name : string)
| OtherMetadata.

(** [func (c *Client) convertToFileInfo(entry files.IsMetadata) FileInfo] *)
Definition convertToFileInfo (entry : Metadata) : FileInfo :=
  match entry with
  | FileMetadata pathLower name size clientModified contentHash rev =>
      mkFileInfo pathLower name size clientModified false contentHash rev
  | FolderMetadata pathLower name =>
      mkFileInfo pathLower name 0 Time.zero true "" ""
  | OtherMetadata =>
      mkFileInfo "/unknown" "unknown" 0 Time.zero false "" ""
  end.

(** [oauth2.Token], the fields the client reads. *)
Record Token : Type := mkToken {
  AccessToken : string;
  RefreshToken : string;
  Expiry : Time.t
}.

(** [time.Minute], in nanoseconds. *)
Definition Minute : Z := 60 * 1000000000.

(** [func (t Time) Add(d Duration) Time], as long as the seconds stay in
    [int64]: the seconds and the nanoseconds of [d] are added, with a
    carry. Instants are wall-clock instants, as everywhere in [Time]: the
    monotonic reading that [time.Now()] adds is not modelled. *)
Definition Add (t : Time.t) (d : Z) : Time.t :=
  let dsec := Z.quot d 1000000000 in
  let nsec := Time.nsec t + Z.rem d 1000000000 in
  if nsec >=? 1000000000 then Time.mk (Time.sec t + (dsec + 1)) (nsec - 1000000000)
  else if nsec <? 0 then Time.mk (Time.sec t + (dsec - 1)) (nsec + 1000000000)
  else Time.mk (Time.sec t + dsec) nsec.

(** [func (c *Client) IsTokenValid() bool], with [c.token] ([None] is
    [nil]) and the instant [time.Now()] returns. *)
Definition IsTokenValid (token : option Token) (now : Time.t) : bool :=
  match token with
  | None => false
  | Some tok =>
      if negb (Time.IsZero (Expiry tok))
         && Time.After (Add now (5 * Minute)) (Expiry tok)
      then false
      else negb (String.eqb (AccessToken tok) "")
  end.

(** The instant as a number of nanoseconds since the zero instant. *)
Definition nanos (t : Time.t) : Z := Time.sec t * 1000000000 + Time.nsec t.

(** The nanoseconds of an instant are within a second. *)
Definition normal (t : Time.t) : Prop := 0 <= Time.nsec t < 1000000000.

End Dropbox.

(** ** Slots, errors and counters of the download phase *)

(** A worker between its [select] and its end holds a slot of the
    semaphore. *)
Definition holdsSlot (w : Worker) : bool :=
  match wPC w with
  | WSelect | WDone _ => false
  | _ => true
  end.

Definition slotsHeld (ws : list Worker) : nat :=
  List.length (List.filter holdsSlot ws).

(** A worker that has run [stats.SkippedFiles++] or
    [stats.DownloadedFiles++]. *)
Definition counted (w : Worker) : bool :=
  match wPC w with
  | WBytesLoad _ | WBytesStore _ _ | WReturn None | WDone None => true
  | _ => false
  end.

Definition countedWorkers (ws : list Worker) : nat :=
  List.length (List.filter counted ws).

(** The contexts in which [downloadFile] wraps the errors it returns. *)
Definition downloadStages : list string :=
  ["failed to create directory"; "failed to download from Dropbox";
   "failed to create local file"; "failed to write file content"].

(** The errors [downloadFile] returns. *)
Definition stageError (err : error) : Prop :=
  exists stage cause, In stage downloadStages /\ err = Wrapped stage cause.

(** The errors a worker sends for its file: [ctx.Err()], or the error of
    [downloadFile] with the path of the file. *)
Definition workerError (w : Worker) (err : error) : Prop :=
  err = Canceled
  \/ exists cause, stageError cause
       /\ err = Wrapped ("failed to download " ++ Path (wFile w)) cause.

Section PhaseInvariant.

Variable cfg : Config.
Variables (stats0 : Stats) (fs0 : FS).

(** A second invariant of the download phase, on the semaphore, on the
    errors and on what the phase leaves alone. *)
Record PhaseInv (s : DState) : Prop := mkPhaseInv {
  (** the tokens in the semaphore are the slots the workers hold *)
  ph_slots : slotsHeld (dWorkers s) = dSem s;
  ph_cap : (dSem s <= MaxConcurrency cfg)%nat;
  (** what is in the channel was sent by a worker that has ended *)
  ph_chan :
    forall x, In x (dErrChan s) ->
      exists w e, x = Some e /\ In w (dWorkers s) /\ wPC w = WDone (Some e);
  (** and so was the error that is returned *)
  ph_returned :
    forall e, dMain s = Returned (Some e) ->
      exists w, In w (dWorkers s) /\ wPC w = WDone (Some e);
  ph_done :
    forall w e, In w (dWorkers s) -> wPC w = WDone (Some e) -> workerError w e;
  ph_return :
    forall w e, In w (dWorkers s) -> wPC w = WReturn (Some e) -> stageError e;
  (** no local file goes away *)
  ph_fs : forall p, is_Some (fs0 !! p) -> is_Some (dFS s !! p);
  (** the counts of the listing and of the deletions are not touched *)
  ph_totals :
    TotalFiles (dStats s) = TotalFiles stats0
    /\ TotalFolders (dStats s) = TotalFolders stats0
    /\ DeletedFiles (dStats s) = DeletedFiles stats0
}.

(** With one slot, the counters of skipped and downloaded files count the
    workers that have updated them, and a worker that has read a counter
    has read its present value. *)
Record CountInv (s : DState) : Prop := mkCountInv {
  ct_nonneg : 0 <= SkippedFiles (dStats s) /\ 0 <= DownloadedFiles (dStats s);
  ct_sum :
    SkippedFiles (dStats s) + DownloadedFiles (dStats s)
    = Z.of_nat (countedWorkers (dWorkers s));
  ct_skip :
    forall i w v, dWorkers s !! i = Some w -> wPC w = WSkipStore v ->
                  v = SkippedFiles (dStats s);
  ct_download :
    forall i w n v, dWorkers s !! i = Some w -> wPC w = WDlStore n v ->
                    v = DownloadedFiles (dStats s)
}.

End PhaseInvariant.

(** The waiter goroutine starts when the loop over the files is over, and
    it ends by closing the channel. *)
Record WaiterInv (s : DState) : Prop := mkWaiterInv {
  wt_started :
    dWaiter s = WaiterNotStarted -> exists rest, dMain s = Spawning rest;
  wt_done : dWaiter s = WaiterDone -> dClosed s = true
}.

(** ** Orphans *)

Section OrphanEntries.

Context `{Filepath}.
Variable cfg : Config.

(** An entry of the walk that is a file and whose path is the local path
    of no entry of the listing. *)
Definition orphan (dropboxFiles : list FileInfo) (en : WalkEntry) : bool :=
  negb (weIsDir en)
  && negb (existsb (String.eqb (wePath en)) (map (localPath cfg) dropboxFiles)).

Definition orphans (dropboxFiles : list FileInfo) (walk : list WalkEntry)
  : list string :=
  map wePath (List.filter (orphan dropboxFiles) walk).

End OrphanEntries.

(** The folders of a listing. *)
Definition folders (files : list FileInfo) : list FileInfo :=
  List.filter IsFolder files.

(** ** The configuration: [config.Load] *)

Module config.

(** [config.Config], all of it; the durations are in nanoseconds. *)
Record Config : Type := mkConfig {
  ClientID : string;
  ClientSecret : string;
  AccessToken : string;
  RefreshToken : string;
  BackupDir : string;
  Delete : bool;
  Exclude : list string;
  LogLevel : string;
  ShowCount : bool;
  ShowSize : bool;
  MaxConcurrency : Z;
  RetryAttempts : Z;
  RetryDelay : Z
}.

(** [config.Options] *)
Record Options : Type := mkOptions {
  oConfigFile : string;
  oBackupDir : string;
  oLogLevel : string;
  oDelete : bool;
  oExclude : list string;
  oShowCount : bool;
  oShowSize : bool
}.

(** What [Load] asks of the operating system: the environment variables
    ([os.Getenv], the empty string for a variable that is not set), the
    time of day as [time.Now().Format("2006-01-02-15-04-05")] gives it,
    the working directory ([os.Getwd]) and what [os.MkdirAll] answers for
    a path: [None] when the directory is there after the call (it was
    there already, or it has been created with its missing parents), or
    the error. *)
Record Env : Type := mkEnv {
  getenv : string -> string;
  nowStamp : string;
  getwd : error + string;
  mkdirAll : string -> option error
}.

(** [filepath.Abs(path)] on Unix. *)
Definition Abs (env : Env) (path : string) : error + string :=
  if Strings.HasPrefix path "/" then inr (GoPath.Clean path)
  else
    match getwd env with
    | inl err => inl err
    | inr wd => inr (GoPath.Join wd path)
    end.

(** The configuration [Load] starts from. *)
Definition defaults : Config :=
  mkConfig "" "" "" "" "" false [] "error" false false 5 3 (2 * 1000000000).

(** [func (c *Config) loadFromEnv() error]; it always returns [nil]. *)
Definition loadFromEnv (env : Env) (c : Config) : Config :=
  mkConfig (getenv env "DROPBOX_CLIENT_ID") (getenv env "DROPBOX_CLIENT_SECRET")
           (getenv env "DROPBOX_ACCESS_TOKEN") (getenv env "DROPBOX_REFRESH_TOKEN")
           (BackupDir c) (Delete c) (Exclude c) (LogLevel c) (ShowCount c)
           (ShowSize c) (MaxConcurrency c) (RetryAttempts c) (RetryDelay c).

(** The overrides of [Load] by the command-line options. *)
Definition override (opts : Options) (c : Config) : Config :=
  mkConfig (ClientID c) (ClientSecret c) (AccessToken c) (RefreshToken c)
           (BackupDir c)
           (if oDelete opts then oDelete opts else Delete c)
           (if (0 <? List.length (oExclude opts))%nat then oExclude opts
            else Exclude c)
           (if negb (String.eqb (oLogLevel opts) "") then oLogLevel opts
            else LogLevel c)
           (oShowCount opts) (oShowSize opts)
           (MaxConcurrency c) (RetryAttempts c) (RetryDelay c).

Definition withBackupDir (dir : string) (c : Config) : Config :=
  mkConfig (ClientID c) (ClientSecret c) (AccessToken c) (RefreshToken c)
           dir (Delete c) (Exclude c) (LogLevel c) (ShowCount c) (ShowSize c)
           (MaxConcurrency c) (RetryAttempts c) (RetryDelay c).

(** [func (c *Config) setBackupDir(backupDir string) error]: the error,
    the configuration, and the paths it has given to [os.MkdirAll]. *)
Definition setBackupDir (env : Env) (backupDir : string) (c : Config)
  : option error * Config * list string :=
  let c1 :=
    if negb (String.eqb backupDir "") then withBackupDir backupDir c
    else
      let envDir := getenv env "DROPBOX_BACKUP_FOLDER" in
      if negb (String.eqb envDir "") then withBackupDir envDir c
      else withBackupDir ("./dropbox_backup_" ++ nowStamp env) c in
  match Abs env (BackupDir c1) with
  | inl err =>
      (Some (Wrapped "failed to get absolute path for backup directory" err),
       c1, [])
  | inr absPath =>
      let c2 := withBackupDir absPath c1 in
      match mkdirAll env absPath with
      | Some err =>
          (Some (Wrapped "failed to create backup directory" err), c2,
           [absPath])
      | None => (None, c2, [absPath])
      end
  end.

(** The map [validLevels] of [validate]. *)
Definition validLevels : gmap string bool :=
  <["debug" := true]> (<["info" := true]> (<["warn" := true]>
    (<["error" := true]> ∅))).

(** [func (c *Config) validate() error] *)
Definition validate (c : Config) : option error :=
  if String.eqb (ClientID c) "" then
    Some (ErrorString "DROPBOX_CLIENT_ID environment variable is required")
  else if String.eqb (ClientSecret c) "" then
    Some (ErrorString "DROPBOX_CLIENT_SECRET environment variable is required")
  else if String.eqb (BackupDir c) "" then
    Some (ErrorString "backup directory is required")
  else if negb (mapGet validLevels (LogLevel c)) then
    Some (ErrorString ("invalid log level: " ++ LogLevel c
                       ++ " (must be debug, info, warn, or error)"))
  else None.

(** [func Load(opts Options)], with the paths it has given to
    [os.MkdirAll]. *)
Definition Load (env : Env) (opts : Options) : (error + Config) * list string :=
  let cfg := override opts (loadFromEnv env defaults) in
  match setBackupDir env (oBackupDir opts) cfg with
  | (Some err, _, dirs) =>
      (inl (Wrapped "failed to set backup directory" err), dirs)
  | (None, cfg1, dirs) =>
      match validate cfg1 with
      | Some err => (inl (Wrapped "configuration validation failed" err), dirs)
      | None => (inr cfg1, dirs)
      end
  end.

End config.

(** ** The OAuth2 callback *)

Module OAuth.

(** [AuthResult] *)
Record AuthResult : Type := mkAuthResult {
  Token : option Dropbox.Token;
  Error : option error
}.

(** [func (ac *AuthConfig) ExchangeCode(ctx, code, codeVerifier)], over the
    exchange of the OAuth2 library; the verifier is not passed on. *)
Definition ExchangeCode (exchange : string -> error + Dropbox.Token)
  (code codeVerifier : string) : error + Dropbox.Token :=
  match exchange code with
  | inl err => inl (Wrapped "failed to exchange authorization code" err)
  | inr token => inr token
  end.

(** What a call of [handleCallback] does: the result it sends on
    [resultChan], the status it writes, and the codes it has given to the
    exchange. *)
Record Handled : Type := mkHandled {
  sent : AuthResult;
  status : Z;
  exchanged : list string
}.

Definition failed (err : error) (status : Z) : Handled :=
  mkHandled (mkAuthResult None (Some err)) status [].

(** [func (ia *InteractiveAuth) handleCallback(w, r)]: [query] is
    [r.URL.Query().Get]; [None] is a run-time panic. *)
Definition handleCallback (iaState iaCodeVerifier : string)
  (exchange : string -> error + Dropbox.Token) (query : string -> string)
  : option Handled :=
  let code := query "code" in
  let state := query "state" in
  let errorParam := query "error" in
  if negb (String.eqb errorParam "") then
    let errorDesc := query "error_description" in
    Some (failed (ErrorString ("OAuth error: " ++ errorParam ++ " - " ++ errorDesc))
                 400)
  else if negb (String.eqb state iaState) then
    Some (failed (ErrorString "invalid state parameter") 400)
  else if String.eqb code "" then
    Some (failed (ErrorString "no authorization code received") 400)
  else if (String.length code <? 10)%nat then
    None                                   (* [code[:10]] *)
  else
    match ExchangeCode exchange code iaCodeVerifier with
    | inl err =>
        Some (mkHandled
                (mkAuthResult None (Some (Wrapped "failed to exchange code" err)))
                500 [code])
    | inr token =>
        Some (mkHandled (mkAuthResult (Some token) None) 200 [code])
    end.

(** [func HandleOAuthCallback(authConfig, callbackURL, expectedState,
    codeVerifier)]: [parse] is [url.Parse] followed by [Query().Get]; the
    result comes with the codes given to the exchange. *)
Definition HandleOAuthCallback (exchange : string -> error + Dropbox.Token)
  (parse : string -> error + (string -> string))
  (callbackURL expectedState codeVerifier : string)
  : (error + Dropbox.Token) * list string :=
  match parse callbackURL with
  | inl err => (inl (Wrapped "invalid callback URL" err), [])
  | inr query =>
      let state := query "state" in
      if negb (String.eqb state expectedState) then
        (inl (ErrorString "invalid state parameter"), [])
      else
        let errorParam := query "error" in
        if negb (String.eqb errorParam "") then
          let errorDesc := query "error_description" in
          (inl (ErrorString ("OAuth error: " ++ errorParam ++ " - " ++ errorDesc)),
           [])
        else
          let code := query "code" in
          if String.eqb code "" then
            (inl (ErrorString "no authorization code in callback"), [])
          else
            match ExchangeCode exchange code codeVerifier with
            | inl err =>
                (inl (Wrapped "failed to exchange code for token" err), [code])
            | inr token => (inr token, [code])
            end
  end.

End OAuth.

(** ** More examples *)

Module MoreExamples.

(** As [Examples.ioOk], but the copy of the content stops after four
    bytes. *)
Definition ioCopyFails (file : FileInfo) : IO :=
  mkIO None None None (4, Some (ErrorString "unexpected EOF"))
       (Time.mk 63800000100 0) None.

(** One download at a time. *)
Definition cfgOne : Config := mkConfig "/backup" false [] 1.

(** A backup directory that holds one file, which is not in Dropbox. *)
Definition fsOrphan : FS :=
  <["/backup/orphan.txt" := mkFileStat 5 Examples.T0 false]> ∅.

(** The state of the download phase after a schedule (the first state when
    the schedule cannot be run). *)
Definition stateAfter (cfg : Config) (io : FileInfo -> IO)
  (files : list FileInfo) (sched : list Label) (stats : Stats) (fs : FS)
  : DState :=
  default (dinit files stats fs) (dexec cfg io files sched (dinit files stats fs)).

(** The two workers hold a slot each. *)
Definition schedBothHold : list Label :=
  [LMain; LMain; LMain; LAcquire 0; LAcquire 1].

(** A client whose token is not valid and cannot be refreshed. *)
Definition clientInvalid : Script :=
  mkScript false [Some Examples.refreshError] [].

(** The walk of [Examples.walkOrphan] with an orphan that cannot be
    removed before the last file. *)
Definition removeError : error := ErrorString "permission denied".

Definition walkBefore : list WalkEntry :=
  [mkWalkEntry "/backup" true None None;
   mkWalkEntry "/backup/a.txt" false None None].

Definition stuckOrphan : WalkEntry :=
  mkWalkEntry "/backup/orphan.txt" false None (Some removeError).

Definition walkAfter : list WalkEntry :=
  [mkWalkEntry "/backup/b.txt" false None None].

(** An environment: [setenv name value] on top of no variable at all. *)
Definition setenv (name value : string) (getenv : string -> string)
  : string -> string :=
  fun k => if String.eqb k name then value else getenv k.

Definition credentials : string -> string :=
  setenv "DROPBOX_CLIENT_ID" "id"
    (setenv "DROPBOX_CLIENT_SECRET" "secret" (fun _ => "")).

Definition env (getenv : string -> string) (stamp : string) : config.Env :=
  config.mkEnv getenv stamp (inr "/home/user") (fun _ => None).

Definition opts (backupDir : string) : config.Options :=
  config.mkOptions "" backupDir "" false [] false false.

(** What [Load] returns in [env credentials] for the flag [backups]. *)
Definition loaded : config.Config :=
  config.mkConfig "id" "secret" "" "" "/home/user/backups" false [] "error"
                  false false 5 3 2000000000.

(** A token, and the instant five minutes before it expires. *)
Definition token : Dropbox.Token :=
  Dropbox.mkToken "sl.access" "refresh" (Time.mk 63800000300 0).

(** The request of a callback, and an exchange that accepts its code. *)
Definition code : string := "0123456789abcdef".

Definition exchange (c : string) : error + Dropbox.Token :=
  if String.eqb c code then inr token
  else inl (ErrorString "invalid_grant").

Definition callback (c state : string) : string -> string :=
  setenv "code" c (setenv "state" state (fun _ => "")).

Definition callbackURL : string :=
  "http://localhost:8080/callback?code=0123456789abcdef&state=xyz".

Definition parse (url : string) : error + (string -> string) :=
  if String.eqb url callbackURL then inr (callback code "xyz")
  else inl (ErrorString "invalid URL").

End MoreExamples.


(** * Properties *)

(** ** Integers and instants *)

Lemma int64_of_uint64_small z : 0 <= z < 2 ^ 63 -> Int.int64_of_uint64 z = z.
Proof.
  intros Hz. unfold Int.int64_of_uint64.
  destruct (Z.ltb_spec z (2 ^ 63)); lia.
Qed.

Lemma int64_of_uint64_large z :
  2 ^ 63 <= z -> Int.int64_of_uint64 z = z - 2 ^ 64.
Proof.
  intros Hz. unfold Int.int64_of_uint64.
  destruct (Z.ltb_spec z (2 ^ 63)); lia.
Qed.

(** A local size that equals the remote size as a number equals it after
    the conversion [int64(remoteFile.Size)] too. *)
Lemma int64_of_uint64_eq (local remote : Z) :
  Int.is_int64 local -> local = remote ->
  (local =? Int.int64_of_uint64 remote) = true.
Proof.
  unfold Int.is_int64. intros Hl <-. apply Z.eqb_eq.
  destruct (Z.lt_ge_cases local 0) as [Hneg | Hpos].
  - unfold Int.int64_of_uint64. destruct (Z.ltb_spec local (2 ^ 63)); lia.
  - symmetry. apply int64_of_uint64_small. lia.
Qed.

Lemma wrap_int64_small z : Int.is_int64 z -> Int.wrap_int64 z = z.
Proof.
  unfold Int.is_int64, Int.wrap_int64. intros Hz.
  rewrite Z.mod_small; lia.
Qed.

Lemma IsZero_true x : Time.IsZero x = true <-> x = Time.zero.
Proof.
  destruct x as [s n]. unfold Time.IsZero, Time.zero. simpl.
  rewrite andb_true_iff, !Z.eqb_eq. split.
  - intros [-> ->]. reflexivity.
  - intros [= -> ->]. auto.
Qed.

Lemma Equal_eq x u : Time.Equal x u = true <-> x = u.
Proof.
  destruct x as [s n], u as [s' n']. unfold Time.Equal. simpl.
  rewrite andb_true_iff, !Z.eqb_eq. split.
  - intros [-> ->]. reflexivity.
  - intros [= -> ->]. auto.
Qed.

Lemma After_irrefl x : Time.After x x = false.
Proof.
  unfold Time.After. rewrite !Z.gtb_ltb, !Z.ltb_irrefl, andb_false_r.
  reflexivity.
Qed.

(** An instant is after, equal to or before another, and only one of
    these. *)
Lemma After_Equal_exclusive x u :
  Time.After x u = true -> Time.Equal x u = false.
Proof.
  intros Ha. destruct (Time.Equal x u) eqn:He; [| reflexivity].
  apply Equal_eq in He. subst u. rewrite After_irrefl in Ha. discriminate.
Qed.

(** ** The skip decision *)

(** The decision read off the branches of [shouldSkipFile]. *)
Lemma shouldSkipFile_spec (fs : FS) localPath remoteFile :
  shouldSkipFile fs localPath remoteFile = true <->
  exists stat, fs !! localPath = Some stat
    /\ Time.IsZero (ModTime remoteFile) = false
    /\ (Time.After (stModTime stat) (ModTime remoteFile) = true
        \/ (stSize stat = Int.int64_of_uint64 (Size remoteFile)
            /\ Time.Equal (stModTime stat) (ModTime remoteFile) = true)).
Proof.
  unfold shouldSkipFile. destruct (fs !! localPath) as [stat |]; split.
  - intros Hs. exists stat. split; [reflexivity |].
    destruct (Time.IsZero (ModTime remoteFile)); simpl in Hs.
    + rewrite andb_false_r in Hs. discriminate.
    + split; [reflexivity |].
      destruct (Time.After (stModTime stat) (ModTime remoteFile));
        [left; reflexivity | right].
      rewrite andb_true_r in Hs.
      destruct (Z.eqb_spec (stSize stat) (Int.int64_of_uint64 (Size remoteFile)));
        simpl in Hs; [| discriminate].
      destruct (Time.Equal (stModTime stat) (ModTime remoteFile));
        [auto | discriminate].
  - intros (stat' & [= <-] & Hz & Hor). rewrite Hz. simpl.
    destruct Hor as [-> | [-> ->]]; [reflexivity |].
    rewrite Z.eqb_refl. simpl.
    destruct (Time.After _ _); reflexivity.
  - discriminate.
  - intros (stat & Hstat & _). discriminate.
Qed.

(** C4: a remote entry whose modification time is the zero value is never
    skipped, whatever the local file system holds at the local path: no
    file, or a file of any size and any modification time. *)
Theorem shouldSkipFile_zero_modtime (fs : FS) localPath remoteFile :
  Time.IsZero (ModTime remoteFile) = true ->
  shouldSkipFile fs localPath remoteFile = false.
Proof.
  intros Hz. destruct (shouldSkipFile fs localPath remoteFile) eqn:Hs;
    [| reflexivity].
  apply shouldSkipFile_spec in Hs. destruct Hs as (stat & _ & Hz' & _).
  congruence.
Qed.

Lemma shouldSkipFile_zero_modtime_witness :
  shouldSkipFile
    (<["/backup/dir" := mkFileStat 0 Time.zero false]> ∅) "/backup/dir"
    (mkFileInfo "/dir" "dir" 0 Time.zero true "" "") = false.
Proof. apply shouldSkipFile_zero_modtime. reflexivity. Defined.

(** C5, as the code has it: a local file of the size of the remote entry
    and with exactly its modification time is skipped when that
    modification time is not the zero value. *)
Theorem shouldSkipFile_in_sync (fs : FS) localPath remoteFile stat :
  fs !! localPath = Some stat ->
  Int.is_int64 (stSize stat) ->
  stSize stat = Size remoteFile ->
  stModTime stat = ModTime remoteFile ->
  Time.IsZero (ModTime remoteFile) = false ->
  shouldSkipFile fs localPath remoteFile = true.
Proof.
  intros Hstat Hrange Hsize Htime Hz. apply shouldSkipFile_spec.
  exists stat. split; [assumption |]. split; [assumption |]. right. split.
  - apply Z.eqb_eq. apply int64_of_uint64_eq; assumption.
  - apply Equal_eq. assumption.
Qed.

Lemma shouldSkipFile_in_sync_witness :
  shouldSkipFile Examples.fsSynced "/backup/a.txt" Examples.aTxt = true.
Proof.
  apply (shouldSkipFile_in_sync Examples.fsSynced "/backup/a.txt" Examples.aTxt
           (mkFileStat 10 Examples.T0 false)).
  - reflexivity.
  - unfold Int.is_int64. simpl. lia.
  - reflexivity.
  - reflexivity.
  - reflexivity.
Defined.

(** C5 as stated fails where both modification times are the zero value:
    the sizes and the times are equal and the file is not skipped. *)
Lemma shouldSkipFile_in_sync_zero_time_counterexample :
  Examples.fsZero !! "/backup/a.txt" = Some Examples.statZero
  /\ stSize Examples.statZero = Size Examples.aZero
  /\ stModTime Examples.statZero = ModTime Examples.aZero
  /\ shouldSkipFile Examples.fsZero "/backup/a.txt" Examples.aZero = false.
Proof. repeat split; reflexivity. Qed.

(** C6: with a known remote modification time, a local file that is
    strictly newer is skipped; and where there is no local file nothing is
    skipped. *)
Theorem shouldSkipFile_newer_or_absent (fs : FS) localPath remoteFile :
  (forall stat,
      fs !! localPath = Some stat ->
      Time.IsZero (ModTime remoteFile) = false ->
      Time.After (stModTime stat) (ModTime remoteFile) = true ->
      shouldSkipFile fs localPath remoteFile = true)
  /\ (fs !! localPath = None ->
      shouldSkipFile fs localPath remoteFile = false).
Proof.
  split.
  - intros stat Hstat Hz Hafter. apply shouldSkipFile_spec. eauto.
  - intros Hnone. unfold shouldSkipFile. rewrite Hnone. reflexivity.
Qed.

Lemma shouldSkipFile_newer_or_absent_witness :
  shouldSkipFile
    (<["/backup/a.txt" := mkFileStat 99 (Time.mk 63800000001 0) false]> ∅)
    "/backup/a.txt" Examples.aTxt = true
  /\ shouldSkipFile ∅ "/backup/a.txt" Examples.aTxt = false.
Proof.
  split.
  - apply (proj1 (shouldSkipFile_newer_or_absent _ _ _)
             (mkFileStat 99 (Time.mk 63800000001 0) false));
      reflexivity.
  - apply (proj2 (shouldSkipFile_newer_or_absent ∅ "/backup/a.txt" Examples.aTxt)).
    reflexivity.
Defined.

(** ** The model of [path/filepath] *)

(** The model agrees with the tables of the tests of the Go library. *)
Example GoPath_test_tables :
  forallb GoPath.matchTestPasses GoPath.matchTests = true
  /\ forallb (fun t => String.eqb (GoPath.Clean (fst t)) (snd t))
             GoPath.cleanTests = true
  /\ forallb (fun t => String.eqb (GoPath.Base (fst t)) (snd t))
             GoPath.baseTests = true.
Proof. repeat split; vm_compute; reflexivity. Qed.

(** The runes of the table, a byte that starts no sequence, and a sequence
    that is cut short. *)
Example DecodeRuneInString_examples :
  GoPath.DecodeRuneInString GoPath.smiley = (9786, 3%nat)
  /\ GoPath.DecodeRuneInString GoPath.zeta = (950, 2%nat)
  /\ GoPath.DecodeRuneInString "abc" = (97, 1%nat)
  /\ GoPath.DecodeRuneInString (String "255" "a") = (GoPath.RuneError, 1%nat)
  /\ GoPath.DecodeRuneInString (String "226" (String "152" EmptyString))
     = (GoPath.RuneError, 1%nat)
  /\ GoPath.DecodeRuneInString "" = (GoPath.RuneError, 0%nat).
Proof. repeat split; vm_compute; reflexivity. Qed.

(** ** The exclusion filter *)

Section ExclusionFacts.

Context `{Filepath}.

Lemma excludeStep_indirection pattern path :
  Strings.HasPrefix pattern "@" = true -> excludeStep pattern path = false.
Proof. intros Hp. unfold excludeStep. rewrite Hp. reflexivity. Qed.

Lemma excludeLoop_single rule path :
  excludeLoop [rule] path = excludeStep rule path.
Proof. simpl. destruct (excludeStep rule path); reflexivity. Qed.

Lemma excludeLoop_existsb rules path :
  excludeLoop rules path = existsb (fun rule => excludeLoop [rule] path) rules.
Proof.
  induction rules as [| rule rules IH]; [reflexivity |].
  cbn [existsb]. rewrite excludeLoop_single. cbn [excludeLoop].
  rewrite IH. destruct (excludeStep rule path); reflexivity.
Qed.

Lemma excludeLoop_app rules1 rules2 path :
  excludeLoop (rules1 ++ rules2) path
  = excludeLoop rules1 path || excludeLoop rules2 path.
Proof.
  induction rules1 as [| rule rules1 IH]; [reflexivity |].
  cbn [excludeLoop app]. rewrite IH.
  destruct (excludeStep rule path); reflexivity.
Qed.

(** The order of the rules does not matter. *)
Lemma excludeLoop_Permutation rules1 rules2 path :
  Permutation rules1 rules2 ->
  excludeLoop rules1 path = excludeLoop rules2 path.
Proof.
  induction 1 as [| r l l' _ IH | r r' l | l l' l'' _ IH1 _ IH2].
  - reflexivity.
  - cbn [excludeLoop]. rewrite IH. reflexivity.
  - cbn [excludeLoop].
    destruct (excludeStep r path), (excludeStep r' path); reflexivity.
  - congruence.
Qed.

(** [filterLoop] appends the files that are kept to what it was given. *)
Lemma filterLoop_filter cfg files filtered :
  filterLoop cfg files filtered
  = (filtered
      ++ List.filter (fun file => negb (shouldExclude cfg (Path file))) files)%list.
Proof.
  revert filtered. induction files as [| file files IH]; intros filtered.
  - simpl. rewrite app_nil_r. reflexivity.
  - cbn [filterLoop List.filter].
    destruct (negb (shouldExclude cfg (Path file))).
    + rewrite IH, <- app_assoc. reflexivity.
    + apply IH.
Qed.

Lemma filterFiles_filter cfg files :
  filterFiles cfg files
  = List.filter (fun file => negb (shouldExclude cfg (Path file))) files.
Proof.
  unfold filterFiles. destruct (Exclude cfg) as [| rule rules] eqn:Hex.
  - simpl. induction files as [| file files IH]; [reflexivity |].
    cbn [List.filter]. unfold shouldExclude at 1. rewrite Hex. simpl.
    congruence.
  - simpl. apply filterLoop_filter.
Qed.

Lemma filterFiles_subset cfg files file :
  In file (filterFiles cfg files) -> In file files.
Proof. rewrite filterFiles_filter, filter_In. tauto. Qed.



End ExclusionFacts.

(** The table of [TestShouldExclude], on the Unix [path/filepath]. *)
Example shouldExclude_test_table :
  shouldExclude (Examples.cfg [] false) "/any/path.txt" = false
  /\ shouldExclude (Examples.cfg ["/exact/path.txt"] false) "/exact/path.txt" = true
  /\ shouldExclude (Examples.cfg ["*.tmp"] false) "/path/file.tmp" = true
  /\ shouldExclude (Examples.cfg ["temp/"] false) "/temp/file.txt" = true
  /\ shouldExclude (Examples.cfg ["*.log"; "cache/"] false) "/data/file.txt" = false
  /\ shouldExclude (Examples.cfg ["*.log"; "*.tmp"; "cache/"] false) "/data/file.tmp" = true.
Proof. repeat split; vm_compute; reflexivity. Qed.

(** With the rule [*.tmp], of [/cache/file.tmp] and [/cache/file.txt] the
    second one is kept. *)
Example filterFiles_tmp :
  filterFiles (Examples.cfg ["*.tmp"] false)
    [Examples.remoteFile "/cache/file.tmp" 1 Examples.T0;
     Examples.remoteFile "/cache/file.txt" 2 Examples.T0]
  = [Examples.remoteFile "/cache/file.txt" 2 Examples.T0].
Proof. vm_compute. reflexivity. Qed.

(** C3 on the code: a rule that names an exclusion file excludes nothing,
    here not even a path that the rule [*.tmp], which the file may hold,
    excludes when it is given directly. *)
Theorem shouldExclude_indirection_excludes_nothing :
  shouldExclude (Examples.cfg ["@.backupignore"] false) "/cache/file.tmp" = false
  /\ shouldExclude (Examples.cfg ["*.tmp"] false) "/cache/file.tmp" = true
  /\ forall (lib : Filepath) (file path : string),
       @excludeStep lib ("@" ++ file) path = false.
Proof.
  split; [vm_compute; reflexivity |]. split; [vm_compute; reflexivity |].
  intros lib file path. apply excludeStep_indirection.
  unfold Strings.HasPrefix. simpl.
  destruct (ascii_dec "@" "@"); [destruct file; reflexivity | congruence].
Qed.

(** ** [formatBytes] *)

Lemma formatLoop_step n div exp :
  formatLoop n div exp
  = if Z_le_gt_dec 1024 n
    then formatLoop (n / 1024) (Int.wrap_uint64 (div * 1024)) (exp + 1)
    else (div, exp).
Proof.
  rewrite formatLoop_equation_1.
  destruct (Z_le_gt_dec 1024 n); reflexivity.
Qed.

(** Entered with an [n] below [1024^(k+1)] the loop makes [j <= k] rounds;
    [div] is multiplied by [1024] in each of them and does not wrap
    around as long as [div * 1024^k] is a [uint64]. *)
Lemma formatLoop_rounds (k : nat) : forall n div exp,
  0 <= n < 1024 ^ (Z.of_nat k + 1) ->
  0 <= div -> div * 1024 ^ Z.of_nat k < 2 ^ 64 ->
  exists j, 0 <= j <= Z.of_nat k
    /\ formatLoop n div exp = (div * 1024 ^ j, exp + j)
    /\ n < 1024 ^ (j + 1)
    /\ (j = 0 \/ 1024 ^ j <= n).
Proof.
  induction k as [| k IH]; intros n div exp Hn Hdiv Hfit;
    rewrite formatLoop_step; destruct (Z_le_gt_dec 1024 n) as [Hge | Hlt].
  - simpl in Hn. lia.
  - exists 0. rewrite Z.mul_1_r, Z.add_0_r. simpl. repeat split; auto; try lia.
  - assert (Hpow : 1024 ^ (Z.of_nat (S k) + 1) = 1024 * 1024 ^ (Z.of_nat k + 1)).
    { replace (Z.of_nat (S k) + 1) with (Z.succ (Z.of_nat k + 1)) by lia.
      apply Z.pow_succ_r. lia. }
    assert (Hpow' : 1024 ^ Z.of_nat (S k) = 1024 * 1024 ^ Z.of_nat k).
    { rewrite Nat2Z.inj_succ, Z.pow_succ_r by lia. reflexivity. }
    assert (Hk : 0 < 1024 ^ Z.of_nat k) by (apply Z.pow_pos_nonneg; lia).
    assert (Hwrap : Int.wrap_uint64 (div * 1024) = div * 1024).
    { unfold Int.wrap_uint64. apply Z.mod_small. nia. }
    rewrite Hwrap.
    destruct (IH (n / 1024) (div * 1024) (exp + 1)) as (j & Hj & Heq & Hup & Hlow).
    + split; [apply Z.div_pos; lia |].
      apply Z.div_lt_upper_bound; lia.
    + lia.
    + nia.
    + exists (j + 1). rewrite Heq.
      assert (Hj1 : 1024 ^ (j + 1) = 1024 * 1024 ^ j)
        by (rewrite Z.pow_add_r by lia; lia).
      assert (Hj2 : 1024 ^ (j + 1 + 1) = 1024 * 1024 ^ (j + 1))
        by (rewrite (Z.pow_add_r 1024 (j + 1) 1) by lia; lia).
      split; [lia |]. split; [f_equal; [rewrite Hj1 |]; lia |]. split.
      * rewrite Hj2.
        pose proof (Z.mul_div_le n 1024 ltac:(lia)).
        pose proof (Z.mod_pos_bound n 1024 ltac:(lia)).
        pose proof (Z.div_mod n 1024 ltac:(lia)). lia.
      * right. rewrite Hj1.
        pose proof (Z.mul_div_le n 1024 ltac:(lia)).
        destruct Hlow as [-> | Hlow]; [simpl; lia | lia].
  - exists 0. rewrite Z.mul_1_r, Z.add_0_r. simpl. repeat split; auto; try lia.
Qed.

Lemma byteAt_units exp :
  0 <= exp <= 5 -> exists c, byteAt "KMGTPE" exp = Some c.
Proof.
  intros Hexp.
  assert (Hcases : exp = 0 \/ exp = 1 \/ exp = 2 \/ exp = 3 \/ exp = 4 \/ exp = 5)
    by lia.
  destruct Hcases as [-> | [-> | [-> | [-> | [-> | ->]]]]];
    eexists; reflexivity.
Qed.

(** C10: on every [uint64] the loop of [formatBytes] ends with an exponent
    of at most 5 and with [div = 1024^(exp+1)], which has not wrapped
    around; the index into ["KMGTPE"] is in bounds and [formatBytes]
    returns its string without a panic, at the largest [uint64] too. *)
Theorem formatBytes_total (bytes : Z) :
  Int.is_uint64 bytes ->
  (exists div exp c,
      formatLoop (bytes / 1024) 1024 0 = (div, exp)
      /\ 0 <= exp <= 5
      /\ div = 1024 ^ (exp + 1)
      /\ byteAt "KMGTPE" exp = Some c
      /\ (formatBytes bytes = Some (PlainBytes bytes)
          \/ formatBytes bytes = Some (ScaledBytes bytes div c)))
  /\ formatBytes Int.uint64_max
     = Some (ScaledBytes Int.uint64_max (2 ^ 60) "E").
Proof.
  unfold Int.is_uint64, Int.uint64_max. intros Hb.
  split; [| vm_compute; reflexivity].
  destruct (formatLoop_rounds 5 (bytes / 1024) 1024 0)
    as (j & Hj & Heq & _ & _).
  - split; [apply Z.div_pos; lia |].
    apply Z.div_lt_upper_bound; [lia |]. simpl. lia.
  - lia.
  - simpl. lia.
  - destruct (byteAt_units j) as [c Hc]; [simpl in Hj; lia |].
    exists (1024 * 1024 ^ j), (0 + j), c. simpl in Hj.
    split; [assumption |]. split; [lia |]. split.
    { rewrite Z.add_0_l, Z.pow_add_r by lia. lia. }
    split; [rewrite Z.add_0_l; assumption |].
    unfold formatBytes. destruct (bytes <? 1024); [left; reflexivity |].
    right. rewrite Heq, Z.add_0_l, Hc. reflexivity.
Qed.

Lemma formatBytes_total_witness :
  (exists div exp c,
      formatLoop (1536 / 1024) 1024 0 = (div, exp)
      /\ 0 <= exp <= 5
      /\ div = 1024 ^ (exp + 1)
      /\ byteAt "KMGTPE" exp = Some c
      /\ (formatBytes 1536 = Some (PlainBytes 1536)
          \/ formatBytes 1536 = Some (ScaledBytes 1536 div c)))
  /\ formatBytes Int.uint64_max
     = Some (ScaledBytes Int.uint64_max (2 ^ 60) "E").
Proof.
  apply (formatBytes_total 1536).
  unfold Int.is_uint64, Int.uint64_max. lia.
Defined.

(** The table of [TestFormatBytes]: the unit and the divisor of each
    entry, the quotient being left to [fmt.Sprintf]. *)
Example formatBytes_test_table :
  formatBytes 0 = Some (PlainBytes 0)
  /\ formatBytes 512 = Some (PlainBytes 512)
  /\ formatBytes 1024 = Some (ScaledBytes 1024 1024 "K")
  /\ formatBytes 1048576 = Some (ScaledBytes 1048576 (1024 ^ 2) "M")
  /\ formatBytes 1073741824 = Some (ScaledBytes 1073741824 (1024 ^ 3) "G")
  /\ formatBytes 1099511627776 = Some (ScaledBytes 1099511627776 (1024 ^ 4) "T")
  /\ formatBytes 1536 = Some (ScaledBytes 1536 1024 "K")
  /\ formatBytes 2621440 = Some (ScaledBytes 2621440 (1024 ^ 2) "M").
Proof. repeat split; vm_compute; reflexivity. Qed.

(** ** The download phase *)

Section DownloadFacts.

Context `{Filepath}.
Variable cfg : Config.
Variable io : FileInfo -> IO.
Variable files : list FileInfo.

Lemma pending_insert ws i w w' :
  ws !! i = Some w ->
  (pending (<[i := w']> ws) + Nat.b2n (inFlight w)
   = pending ws + Nat.b2n (inFlight w'))%nat.
Proof.
  unfold pending. revert i. induction ws as [| x ws IH]; intros i Hi.
  - destruct i; discriminate.
  - destruct i as [| i]; simpl in *.
    + injection Hi as ->. destruct (inFlight w), (inFlight w'); simpl; lia.
    + specialize (IH i Hi). destruct (inFlight x); simpl; lia.
Qed.

Lemma pending_app ws w :
  pending (ws ++ [w]) = (pending ws + Nat.b2n (inFlight w))%nat.
Proof.
  unfold pending. rewrite List.filter_app, length_app. simpl.
  destruct (inFlight w); reflexivity.
Qed.

Lemma pending_zero ws w :
  pending ws = 0%nat -> In w ws -> inFlight w = false.
Proof.
  unfold pending. induction ws as [| x ws IH]; simpl; [tauto |].
  destruct (inFlight x) eqn:Hx; simpl; [discriminate |].
  intros Hz [<- | Hin]; auto.
Qed.

Lemma wFile_insert (ws : list Worker) i w pc :
  ws !! i = Some w ->
  map wFile (<[i := mkWorker (wFile w) pc]> ws) = map wFile ws.
Proof.
  revert i. induction ws as [| x ws IH]; intros i Hi; [reflexivity |].
  destruct i as [| i]; simpl in *.
  - injection Hi as ->. reflexivity.
  - rewrite (IH i Hi). reflexivity.
Qed.

Lemma In_insert (ws : list Worker) i w' x :
  In x (<[i := w']> ws) -> x = w' \/ In x ws.
Proof.
  revert i. induction ws as [| y ws IH]; intros i; [simpl; tauto |].
  destruct i as [| i]; simpl.
  - intros [<- | Hin]; auto.
  - intros [<- | Hin]; auto. destruct (IH i Hin); auto.
Qed.

Lemma lookup_In (ws : list Worker) i w : ws !! i = Some w -> In w ws.
Proof.
  revert i. induction ws as [| y ws IH]; intros i Hi; [destruct i; discriminate |].
  destruct i as [| i]; simpl in *; [injection Hi; auto | eauto].
Qed.

Lemma Inv_init stats fs : Inv cfg files (dinit files stats fs).
Proof.
  constructor; simpl; try tauto; try discriminate; auto.
Qed.

(** A step of worker [i], from a program counter before its end to [pc]. *)
Lemma Inv_worker s s' i w pc :
  Inv cfg files s -> dWorkers s !! i = Some w -> inFlight w = true ->
  dMain s' = dMain s -> dWaiter s' = dWaiter s -> dClosed s' = dClosed s ->
  dWorkers s' = <[i := mkWorker (wFile w) pc]> (dWorkers s) ->
  dWG s' = (if inFlight (mkWorker (wFile w) pc) then dWG s else pred (dWG s)) ->
  (forall x, In x (dErrChan s) -> In x (dErrChan s')) ->
  (forall e, pc = WDone (Some e) -> In (Some e) (dErrChan s')) ->
  (forall p, In p (dCreated s') ->
             In p (dCreated s) \/ p = localPath cfg (wFile w)) ->
  (List.length (dErrChan s') + Nat.b2n (inFlight (mkWorker (wFile w) pc))
   <= List.length (dErrChan s) + 1)%nat ->
  Inv cfg files s'.
Proof.
  intros [Hwg Hfiles Hspawn Hclosed Hsent Hnil Hcreated Hroom]
         Hi Hfl Hmain Hwaiter Hcl Hws Hwg' Hchan Hpc Hcr Hlen.
  pose proof (pending_insert _ _ _ (mkWorker (wFile w) pc) Hi) as Hpend.
  rewrite Hfl in Hpend. simpl Nat.b2n in Hpend.
  constructor.
  - rewrite Hwg', Hws, Hwg.
    destruct (inFlight (mkWorker (wFile w) pc)); simpl in Hpend; lia.
  - rewrite Hmain, Hws, wFile_insert by assumption. assumption.
  - intros rest Hm. rewrite Hwaiter, Hcl. apply (Hspawn rest). congruence.
  - rewrite Hcl, Hwg'. intros Hc. rewrite (Hclosed Hc).
    destruct (inFlight (mkWorker (wFile w) pc)); reflexivity.
  - intros x e Hx Hdone. rewrite Hws in Hx.
    destruct (In_insert _ _ _ _ Hx) as [-> | Hold].
    + left. apply Hpc. exact Hdone.
    + destruct (Hsent x e Hold Hdone) as [Hin | [e' He']].
      * left. auto.
      * right. exists e'. congruence.
  - rewrite Hmain. intros Hm. destruct (Hnil Hm) as [_ Hall].
    pose proof (Hall w (lookup_In _ _ _ Hi)) as Hw.
    unfold inFlight in Hfl. rewrite Hw in Hfl. discriminate.
  - intros p Hp. rewrite Hws, wFile_insert by assumption.
    destruct (Hcr p Hp) as [Hold | ->]; [auto |].
    exists (wFile w). split; [| reflexivity].
    apply in_map. eapply lookup_In; eassumption.
  - rewrite Hmain, Hws. lia.
Qed.

Lemma transfer_created file fs created fs' created' r :
  transfer cfg io file fs created = (fs', created', r) ->
  forall p, In p created' -> In p created \/ p = localPath cfg file.
Proof.
  unfold transfer. intros Ht p.
  destruct (ioMkdirAll (io file)); [injection Ht as <- <- <-; auto |].
  destruct (ioDownload (io file)); [injection Ht as <- <- <-; auto |].
  destruct (ioCreate (io file)); [injection Ht as <- <- <-; auto |].
  destruct (snd (ioCopy (io file))); injection Ht as <- <- <-;
    rewrite in_app_iff; simpl; intuition.
Qed.

Lemma send_chan err s s1 :
  send files err s = Some s1 ->
  s1 = setErrChan (dErrChan s ++ [Some err]) s.
Proof.
  unfold send. destruct (_ <? _)%nat; [| discriminate]. congruence.
Qed.

Local Ltac worker_step :=
  eapply Inv_worker; eauto; simpl;
  first [ assumption | reflexivity | discriminate | lia
        | solve [rewrite length_app; simpl; lia]
        | solve [intros; apply in_app_iff; simpl; auto]
        | solve [intros ? [= <-]; apply in_app_iff; simpl; auto]
        | solve [auto] ].

Lemma Inv_stepWorker i s s' :
  Inv cfg files s -> stepWorker cfg io files i s = Some s' -> Inv cfg files s'.
Proof.
  intros HI. unfold stepWorker.
  destruct (dWorkers s !! i) as [w |] eqn:Hi; [simpl | discriminate].
  destruct (wPC w) eqn:Hpc; try discriminate;
    assert (Hfl : inFlight w = true) by (unfold inFlight; rewrite Hpc; reflexivity).
  - destruct (shouldSkipFile _ _ _).
    + intros [= <-]. worker_step.
    + destruct (transfer _ _ _ _ _) as [[fs created] r] eqn:Ht.
      pose proof (transfer_created _ _ _ _ _ _ Ht) as Hcr.
      destruct r; intros [= <-]; worker_step.
  - intros [= <-]. worker_step.
  - intros [= <-]. worker_step.
  - intros [= <-]. worker_step.
  - intros [= <-]. worker_step.
  - intros [= <-]. worker_step.
  - intros [= <-]. worker_step.
  - unfold finish. destruct err as [e |]; simpl.
    + destruct (send _ _ _) as [s1 |] eqn:Hsend; [simpl | discriminate].
      apply send_chan in Hsend. subst s1. intros [= <-]. worker_step.
    + intros [= <-]. worker_step.
Qed.

Lemma Inv_stepAcquire i s s' :
  Inv cfg files s -> stepAcquire cfg i s = Some s' -> Inv cfg files s'.
Proof.
  intros HI. unfold stepAcquire.
  destruct (dWorkers s !! i) as [w |] eqn:Hi; [simpl | discriminate].
  destruct (wPC w) eqn:Hpc; try discriminate.
  destruct (_ <? _)%nat; [| discriminate]. intros [= <-].
  assert (Hfl : inFlight w = true) by (unfold inFlight; rewrite Hpc; reflexivity).
  worker_step.
Qed.

Lemma Inv_stepCtxDone i s s' :
  Inv cfg files s -> stepCtxDone files i s = Some s' -> Inv cfg files s'.
Proof.
  intros HI. unfold stepCtxDone.
  destruct (dWorkers s !! i) as [w |] eqn:Hi; [simpl | discriminate].
  destruct (wPC w) eqn:Hpc; try discriminate.
  destruct (dCancelled s); [| discriminate].
  destruct (send _ _ _) as [s1 |] eqn:Hsend; [simpl | discriminate].
  apply send_chan in Hsend. subst s1. intros [= <-].
  assert (Hfl : inFlight w = true) by (unfold inFlight; rewrite Hpc; reflexivity).
  worker_step.
Qed.

Lemma nonFolders_cons file rest :
  nonFolders (file :: rest)
  = if IsFolder file then nonFolders rest else file :: nonFolders rest.
Proof. unfold nonFolders. simpl. destruct (IsFolder file); reflexivity. Qed.

Lemma Inv_stepMain s s' :
  Inv cfg files s -> stepMain s = Some s' -> Inv cfg files s'.
Proof.
  intros [Hwg Hfiles Hspawn Hclosed Hsent Hnil Hcreated Hroom]. unfold stepMain.
  destruct (dMain s) as [[| file rest] | | r] eqn:Hm; try discriminate.
  - (* the loop is over: the waiter starts and the range begins *)
    intros [= <-]. constructor; simpl; try discriminate; try assumption.
    intros w e Hw Hdone. destruct (Hsent w e Hw Hdone) as [? | [e' He']];
      [auto | discriminate].
  - destruct (Hspawn _ eq_refl) as [Hwaiter Hcl].
    cbn [toSpawn] in Hfiles, Hroom. rewrite nonFolders_cons in Hfiles, Hroom.
    destruct (IsFolder file) eqn:Hfolder; intros [= <-].
    + (* a folder is passed over *)
      constructor; simpl; try assumption.
      * intros rest' _. auto.
      * intros w e Hw Hdone. destruct (Hsent w e Hw Hdone) as [? | [e' He']];
          [auto | discriminate].
      * discriminate.
    + (* a goroutine is started for a file *)
      constructor; simpl.
      * rewrite pending_app, Hwg. simpl. lia.
      * rewrite map_app, <- app_assoc. exact Hfiles.
      * intros rest' _. auto.
      * congruence.
      * intros w e Hw Hdone. apply in_app_iff in Hw.
        destruct Hw as [Hw | [<- | []]]; [| discriminate].
        destruct (Hsent w e Hw Hdone) as [? | [e' He']]; [auto | discriminate].
      * discriminate.
      * intros p Hp. destruct (Hcreated p Hp) as (f & Hf & ->).
        exists f. split; [| reflexivity]. rewrite map_app, in_app_iff. auto.
      * rewrite pending_app. simpl in *. lia.
  - destruct (dErrChan s) as [| [err |] q] eqn:Hq.
    + (* nothing to receive: the range ends once the channel is closed *)
      destruct (dClosed s) eqn:Hcl; [| discriminate]. intros [= <-].
      assert (Hdone : forall w, In w (dWorkers s) -> wPC w = WDone None).
      { intros w Hw.
        assert (Hfl : inFlight w = false).
        { apply (pending_zero (dWorkers s)); [| assumption].
          rewrite <- Hwg. auto. }
        unfold inFlight in Hfl.
        destruct (wPC w) as [| | | | | | | | | [e |]] eqn:Hpc;
          try discriminate; [| reflexivity].
        destruct (Hsent w e Hw Hpc) as [[] | [e' He']]. discriminate. }
      constructor; simpl.
      * exact Hwg.
      * exact Hfiles.
      * discriminate.
      * intros _. auto.
      * intros w e Hw Hpc. rewrite (Hdone w Hw) in Hpc. discriminate.
      * intros _. split; assumption.
      * exact Hcreated.
      * rewrite Hq. exact Hroom.
    + (* an error is received and returned at once *)
      intros [= <-]. constructor; simpl; try discriminate; try assumption.
      * eauto.
      * simpl in Hroom. lia.
    + (* a nil error is received: the range goes on *)
      intros [= <-]. constructor; simpl; rewrite ?Hm;
        try discriminate; try assumption.
      * intros w e Hw Hdone.
        destruct (Hsent w e Hw Hdone) as [[? | ?] | [e' He']];
          [discriminate | auto | discriminate].
      * simpl in Hroom |- *. lia.
Qed.

Lemma Inv_stepWaiter s s' :
  Inv cfg files s -> stepWaiter s = Some s' -> Inv cfg files s'.
Proof.
  intros [Hwg Hfiles Hspawn Hclosed Hsent Hnil Hcreated Hroom]. unfold stepWaiter.
  destruct (dWaiter s) eqn:Hw; try discriminate.
  destruct (Nat.eqb_spec (dWG s) 0) as [Hz |]; [| discriminate].
  intros [= <-]. constructor; simpl; try assumption.
  - intros rest Hm. destruct (Hspawn rest Hm). congruence.
  - auto.
  - intros Hm. split; [reflexivity |]. apply Hnil. assumption.
Qed.

Lemma Inv_dstep l s s' :
  Inv cfg files s -> dstep cfg io files l s = Some s' -> Inv cfg files s'.
Proof.
  destruct l; simpl.
  - apply Inv_stepMain.
  - apply Inv_stepWaiter.
  - apply Inv_stepAcquire.
  - apply Inv_stepCtxDone.
  - apply Inv_stepWorker.
  - intros [Hwg Hfiles Hspawn Hclosed Hsent Hnil Hcreated Hroom] [= <-].
    constructor; simpl; assumption.
Qed.

Lemma Inv_reachable stats fs s :
  reachable cfg io files stats fs s -> Inv cfg files s.
Proof.
  induction 1 as [| s l s' _ IH Hstep]; [apply Inv_init |].
  eapply Inv_dstep; eassumption.
Qed.

Lemma dexec_reachable stats fs sched : forall s s',
  reachable cfg io files stats fs s ->
  dexec cfg io files sched s = Some s' ->
  reachable cfg io files stats fs s'.
Proof.
  induction sched as [| l sched IH]; intros s s' Hs; simpl.
  - intros [= <-]. assumption.
  - destruct (dstep cfg io files l s) as [s1 |] eqn:Hstep; [simpl | discriminate].
    apply IH. econstructor; eassumption.
Qed.

Lemma pending_pos ws w :
  In w ws -> inFlight w = true -> (1 <= pending ws)%nat.
Proof.
  intros Hw Hfl. destruct (pending ws) eqn:Hp; [| lia].
  rewrite (pending_zero ws w Hp Hw) in Hfl. discriminate.
Qed.

(** While a worker has not ended the error channel has room. *)
Lemma send_enabled s i w err :
  Inv cfg files s -> dWorkers s !! i = Some w -> inFlight w = true ->
  is_Some (send files err s).
Proof.
  intros [_ _ _ _ _ _ _ Hroom] Hi Hfl. unfold send.
  pose proof (pending_pos _ _ (lookup_In _ _ _ Hi) Hfl) as Hpos.
  assert (Hle : (List.length (nonFolders files) <= List.length files)%nat)
    by apply List.filter_length_le.
  destruct (Nat.ltb_spec (List.length (dErrChan s)) (List.length files));
    [eauto | lia].
Qed.

(** A worker that has its slot is never stopped by what the other workers
    do or by their errors: its next step is enabled, the sending of its
    own error included. *)
Lemma worker_never_blocks stats fs s i w :
  reachable cfg io files stats fs s ->
  dWorkers s !! i = Some w -> inFlight w = true -> wPC w <> WSelect ->
  is_Some (stepWorker cfg io files i s).
Proof.
  intros Hr Hi Hfl Hsel. apply Inv_reachable in Hr.
  unfold stepWorker. rewrite Hi. simpl.
  destruct (wPC w) eqn:Hpc; try congruence; eauto.
  - destruct (shouldSkipFile _ _ _); [eauto |].
    destruct (transfer _ _ _ _ _) as [[fs' created] [err | written]]; eauto.
  - unfold finish. destruct err as [e |]; simpl; [| eauto].
    destruct (send_enabled s i w
                (Wrapped ("failed to download " ++ Path (wFile w)) e) Hr Hi Hfl)
      as [s1 ->].
    simpl. eauto.
  - unfold inFlight in Hfl. rewrite Hpc in Hfl. discriminate.
Qed.

(** A worker that waits for a slot when the context is cancelled can
    send [ctx.Err()] and end. *)
Lemma cancelled_worker_never_blocks stats fs s i w :
  reachable cfg io files stats fs s ->
  dWorkers s !! i = Some w -> wPC w = WSelect -> dCancelled s = true ->
  is_Some (stepCtxDone files i s).
Proof.
  intros Hr Hi Hpc Hc. apply Inv_reachable in Hr.
  unfold stepCtxDone. rewrite Hi. simpl. rewrite Hpc, Hc.
  destruct (send_enabled s i w Canceled Hr Hi) as [s1 ->].
  - unfold inFlight. rewrite Hpc. reflexivity.
  - simpl. eauto.
Qed.

(** When [downloadFiles] returns [nil] every non-folder file of the listing
    has had its goroutine, and every goroutine has ended without an error:
    on this path all workers are awaited. *)
Lemma returned_nil_all_done stats fs s :
  reachable cfg io files stats fs s ->
  dMain s = Returned None ->
  map wFile (dWorkers s) = nonFolders files
  /\ forall w, In w (dWorkers s) -> wPC w = WDone None.
Proof.
  intros Hr Hm. destruct (Inv_reachable _ _ _ Hr)
    as [Hwg Hfiles Hspawn Hclosed Hsent Hnil Hcreated Hroom].
  split; [| apply Hnil; assumption].
  rewrite Hm in Hfiles. simpl in Hfiles. rewrite app_nil_r in Hfiles.
  assumption.
Qed.

(** The download phase creates local paths of files of the listing only. *)
Lemma created_from_files stats fs s :
  reachable cfg io files stats fs s ->
  forall p, In p (dCreated s) ->
    exists file, In file files /\ IsFolder file = false
                 /\ p = localPath cfg file.
Proof.
  intros Hr p Hp. destruct (Inv_reachable _ _ _ Hr)
    as [Hwg Hfiles Hspawn Hclosed Hsent Hnil Hcreated Hroom].
  destruct (Hcreated p Hp) as (file & Hfile & ->).
  exists file.
  assert (Hin : In file (nonFolders files)).
  { rewrite <- Hfiles. apply in_app_iff. auto. }
  unfold nonFolders in Hin. apply filter_In in Hin.
  destruct Hin as [Hin Hnf]. apply negb_true_iff in Hnf. auto.
Qed.

End DownloadFacts.

(** C1 on the code: the listing is [/a.txt], whose download fails, and
    [/b.txt]. Under the schedule [schedEarlyReturn] the error of [/a.txt]
    is received and [downloadFiles] returns it while the worker of
    [/b.txt] holds its slot and has not transferred anything yet; [Run]
    returns the error, wrapped. *)
Theorem downloadFiles_returns_before_workers_end :
  observe <$>
    dexec (Examples.cfg [] false) Examples.ioFailA
          [Examples.aTxt; Examples.bTxt] Examples.schedEarlyReturn
          (dinit [Examples.aTxt; Examples.bTxt] emptyStats ∅)
  = Some (Returned (Some Examples.errA),
          [WDone (Some Examples.errA); WDownload], emptyStats)
  /\ fst (Run (Examples.cfg [] false) Examples.ioFailA
              Examples.schedEarlyReturn []
              (Examples.world
                 (Examples.clientOk [Examples.aTxt; Examples.bTxt]) ∅))
     = Fail (Wrapped "failed to download files" Examples.errA).
Proof. split; vm_compute; reflexivity. Qed.

(** C2 on the code: two files are skipped by two workers that run
    [stats.SkippedFiles++] at the same time, and the counter ends at 1;
    two files of 10 and 20 bytes are downloaded at the same time, and the
    counters end at one file and 20 bytes. With one worker after the other
    they end at 2, and at two files and 30 bytes. *)
Theorem stats_updates_are_lost :
  (observe <$>
     dexec (Examples.cfg [] false) Examples.ioOk
           [Examples.aTxt; Examples.bTxt] Examples.schedRace
           (dinit [Examples.aTxt; Examples.bTxt] emptyStats Examples.fsSynced)
   = Some (Returned None, [WDone None; WDone None], mkStats 0 0 0 1 0 0))
  /\ (observe <$>
        dexec (Examples.cfg [] false) Examples.ioOk
              [Examples.aTxt; Examples.bTxt] Examples.schedSerial
              (dinit [Examples.aTxt; Examples.bTxt] emptyStats Examples.fsSynced)
      = Some (Returned None, [WDone None; WDone None], mkStats 0 0 0 2 0 0))
  /\ (observe <$>
        dexec (Examples.cfg [] false) Examples.ioOk
              [Examples.aTxt; Examples.bTxt] Examples.schedRaceDownload
              (dinit [Examples.aTxt; Examples.bTxt] emptyStats ∅)
      = Some (Returned None, [WDone None; WDone None], mkStats 0 0 1 0 0 20))
  /\ (observe <$>
        dexec (Examples.cfg [] false) Examples.ioOk
              [Examples.aTxt; Examples.bTxt] Examples.schedSerialDownload
              (dinit [Examples.aTxt; Examples.bTxt] emptyStats ∅)
      = Some (Returned None, [WDone None; WDone None], mkStats 0 0 2 0 0 30)).
Proof. repeat split; vm_compute; reflexivity. Qed.

(** ** The orphan reconciler and [Run] *)

Section OrphanFacts.

Context `{Filepath}.
Variable cfg : Config.

Lemma mapGet_insert (m : gmap string bool) k p :
  mapGet (<[k := true]> m) p = true <-> p = k \/ mapGet m p = true.
Proof.
  unfold mapGet. destruct (decide (k = p)) as [-> | Hne].
  - rewrite lookup_insert_eq. simpl. tauto.
  - rewrite lookup_insert_ne by assumption. split; [auto |].
    intros [-> | Hm]; [congruence | assumption].
Qed.

Lemma foldl_fileMap dropboxFiles : forall (m : gmap string bool) p,
  mapGet (foldl (fun m file => <[localPath cfg file := true]> m) m dropboxFiles) p
  = true
  <-> mapGet m p = true
      \/ exists file, In file dropboxFiles /\ p = localPath cfg file.
Proof.
  induction dropboxFiles as [| file rest IH]; intros m p; simpl.
  - split; [auto |]. intros [Hm | (file & [] & _)]. assumption.
  - rewrite IH, mapGet_insert. split.
    + intros [[-> | Hm] | (f & Hf & ->)]; eauto.
    + intros [Hm | (f & [<- | Hf] & ->)]; eauto.
Qed.

(** The keys of [dropboxFileMap] are the local paths of the listing. *)
Lemma dropboxFileMap_spec dropboxFiles p :
  mapGet (dropboxFileMap cfg dropboxFiles) p = true
  <-> exists file, In file dropboxFiles /\ p = localPath cfg file.
Proof.
  unfold dropboxFileMap. rewrite foldl_fileMap. split; [| auto].
  intros [Hm | Hex]; [| assumption].
  unfold mapGet in Hm. rewrite lookup_empty in Hm. discriminate.
Qed.

(** The walk removes paths that are not keys of the map, and nothing
    else. *)
Lemma walkLoop_removed m entries : forall l err l',
  walkLoop m entries l = (err, l') ->
  exists removed,
    lRemoved l' = (lRemoved l ++ removed)%list
    /\ forall p, In p removed -> mapGet m p = false.
Proof.
  induction entries as [| en rest IH]; intros l err l'; simpl.
  - intros [= <- <-]. exists []. rewrite app_nil_r. split; [reflexivity |].
    intros p [].
  - destruct (weErr en).
    { intros [= <- <-]. exists []. rewrite app_nil_r. split; [reflexivity |].
      intros p []. }
    destruct (weIsDir en); [apply IH |].
    destruct (mapGet m (wePath en)) eqn:Hget; simpl; [apply IH |].
    destruct (weRemove en).
    { intros [= <- <-]. exists []. rewrite app_nil_r. split; [reflexivity |].
      intros p []. }
    intros Hw. destruct (IH _ _ _ Hw) as (removed & Heq & Hall).
    simpl in Heq. exists (wePath en :: removed). split.
    + rewrite Heq, <- app_assoc. reflexivity.
    + intros p [<- | Hp]; auto.
Qed.

Lemma deleteOrphanedFiles_removed walk dropboxFiles l err l' :
  deleteOrphanedFiles cfg walk dropboxFiles l = (err, l') ->
  exists removed,
    lRemoved l' = (lRemoved l ++ removed)%list
    /\ forall p file, In p removed -> In file dropboxFiles ->
                      p <> localPath cfg file.
Proof.
  unfold deleteOrphanedFiles. intros Hw.
  destruct (walkLoop_removed _ _ _ _ _ Hw) as (removed & Heq & Hall).
  exists removed. split; [assumption |]. intros p file Hp Hfile ->.
  specialize (Hall _ Hp).
  assert (mapGet (dropboxFileMap cfg dropboxFiles) (localPath cfg file) = true)
    by (apply dropboxFileMap_spec; eauto).
  congruence.
Qed.

End OrphanFacts.

Section RunFacts.

Context `{Filepath} {C : Type} `{DropboxClient C}.
Variable cfg : Config.
Variable io : FileInfo -> IO.
Variable sched : list Label.
Variable walk : list WalkEntry.

Local Abbreviation run := (Run cfg io sched walk).
Local Abbreviation continue := (runListed cfg io sched walk).

(** What [Run] does after the listing, on the local state: the paths
    created are local paths of files of the filtered listing, the paths
    removed are local paths of none of its entries. *)
Lemma runListed_local dropboxFiles (w : World C) r w' :
  continue dropboxFiles w = (r, w') ->
  wClient w' = wClient w /\ wCalls w' = wCalls w
  /\ exists created removed,
      wCreated w' = (wCreated w ++ created)%list
      /\ lRemoved (wLocal w') = (lRemoved (wLocal w) ++ removed)%list
      /\ (forall p, In p created ->
            exists file, In file (filterFiles cfg dropboxFiles)
                         /\ IsFolder file = false /\ p = localPath cfg file)
      /\ (forall p file, In p removed ->
            In file (filterFiles cfg dropboxFiles) -> p <> localPath cfg file).
Proof.
  unfold runListed.
  destruct (countEntries dropboxFiles 0 0) as [fileCount folderCount].
  set (filtered := filterFiles cfg dropboxFiles).
  unfold bind, setStatsTotals, downloadFiles. simpl.
  destruct (dexec cfg io filtered sched _) as [s |] eqn:Hexec.
  2:{ intros [= <- <-]. simpl. repeat split.
      exists [], []. rewrite !app_nil_r. simpl. repeat split; intros p; tauto. }
  assert (Hreach : reachable cfg io filtered
                     (setTotals fileCount folderCount (lStats (wLocal w)))
                     (lFS (wLocal w)) s).
  { eapply dexec_reachable; [apply reach_init | exact Hexec]. }
  pose proof (created_from_files _ _ _ _ _ _ Hreach) as Hcreated.
  destruct (dMain s) as [rest | | [err |]] eqn:Hmain.
  1,2: intros [= <- <-]; simpl; repeat split;
       exists [], []; rewrite !app_nil_r; simpl; repeat split; intros p; tauto.
  - (* the download phase returns an error *)
    simpl. intros [= <- <-]. simpl. repeat split.
    exists (dCreated s), []. rewrite app_nil_r. repeat split; auto.
  - (* the download phase returns nil *)
    simpl. unfold deleteOrphans.
    destruct (Delete cfg); simpl.
    + destruct (deleteOrphanedFiles cfg walk filtered _) as [err l] eqn:Hdel.
      destruct (deleteOrphanedFiles_removed _ _ _ _ _ _ Hdel)
        as (removed & Heq & Hrem).
      simpl in Heq.
      destruct err; simpl; intros [= <- <-]; simpl; repeat split;
        exists (dCreated s), removed; repeat split; auto.
    + intros [= <- <-]. simpl. repeat split.
      exists (dCreated s), []. rewrite app_nil_r. repeat split; auto.
Qed.

(** [Run] either returns before the download phase, leaving the local
    state as it was, or goes on with a listing it has obtained. *)
Lemma Run_cases (w : World C) r w' :
  run w = (r, w') ->
  (lRemoved (wLocal w') = lRemoved (wLocal w) /\ wCreated w' = wCreated w)
  \/ exists dropboxFiles w1,
       lRemoved (wLocal w1) = lRemoved (wLocal w) /\ wCreated w1 = wCreated w
       /\ continue dropboxFiles w1 = (r, w').
Proof.
  unfold Run, bind, newStats, isTokenValid, refreshToken, listAll. simpl.
  destruct (IsTokenValid (wClient w)); simpl.
  - destruct (ListAll (wClient w)) as [[err | listed] c1]; simpl.
    + destruct (RefreshToken c1) as [[refreshErr |] c2]; simpl.
      * intros [= <- <-]. left. split; reflexivity.
      * destruct (ListAll c2) as [[err2 | listed] c3]; simpl.
        -- intros [= <- <-]. left. split; reflexivity.
        -- intros Hrun. right. eexists _, _. split; [| split; [| exact Hrun]];
             reflexivity.
    + intros Hrun. right. eexists _, _. split; [| split; [| exact Hrun]];
        reflexivity.
  - destruct (RefreshToken (wClient w)) as [[err0 |] c0]; simpl.
    { intros [= <- <-]. left. split; reflexivity. }
    destruct (ListAll c0) as [[err | listed] c1]; simpl.
    + destruct (RefreshToken c1) as [[refreshErr |] c2]; simpl.
      * intros [= <- <-]. left. split; reflexivity.
      * destruct (ListAll c2) as [[err2 | listed] c3]; simpl.
        -- intros [= <- <-]. left. split; reflexivity.
        -- intros Hrun. right. eexists _, _. split; [| split; [| exact Hrun]];
             reflexivity.
    + intros Hrun. right. eexists _, _. split; [| split; [| exact Hrun]];
        reflexivity.
Qed.

(** C8: when the first listing fails, [Run] refreshes the token once. If
    the refresh fails it returns the error of the listing; otherwise it
    lists once more, and returns the error of the second listing if that
    fails too; if the second listing succeeds the run goes on with its
    files, and makes no further call to list or to refresh. The calls made
    after the token check are, in the three cases, listing and refresh;
    listing, refresh and listing; listing, refresh and listing. *)
Theorem Run_listing_retry (w w1 : World C) err c2 :
  afterTokenCheck w = Some w1 ->
  ListAll (wClient w1) = (inl err, c2) ->
  let w2 := logCall CallListAll c2 w1 in
  (forall refreshErr c3,
      RefreshToken c2 = (Some refreshErr, c3) ->
      run w = (Fail (Wrapped "failed to list Dropbox files and refresh token" err),
               logCall CallRefreshToken c3 w2)
      /\ wCalls (snd (run w))
         = (wCalls w1 ++ [CallListAll; CallRefreshToken])%list)
  /\ (forall c3 err2 c4,
      RefreshToken c2 = (None, c3) ->
      ListAll c3 = (inl err2, c4) ->
      run w = (Fail (Wrapped "failed to list Dropbox files after token refresh" err2),
               logCall CallListAll c4 (logCall CallRefreshToken c3 w2))
      /\ wCalls (snd (run w))
         = (wCalls w1 ++ [CallListAll; CallRefreshToken; CallListAll])%list)
  /\ (forall c3 listed c4,
      RefreshToken c2 = (None, c3) ->
      ListAll c3 = (inr listed, c4) ->
      run w = continue listed
                (logCall CallListAll c4 (logCall CallRefreshToken c3 w2))
      /\ wCalls (snd (run w))
         = (wCalls w1 ++ [CallListAll; CallRefreshToken; CallListAll])%list
      /\ wClient (snd (run w)) = c4).
Proof.
  intros Hcheck Hlist w2.
  assert (Hrun : run w =
    (let '(refreshErr, c3) := RefreshToken c2 in
     match refreshErr with
     | Some _ =>
         (Fail (Wrapped "failed to list Dropbox files and refresh token" err),
          logCall CallRefreshToken c3 w2)
     | None =>
         let w3 := logCall CallRefreshToken c3 w2 in
         let '(r2, c4) := ListAll c3 in
         match r2 with
         | inl err2 =>
             (Fail (Wrapped "failed to list Dropbox files after token refresh" err2),
              logCall CallListAll c4 w3)
         | inr listed => continue listed (logCall CallListAll c4 w3)
         end
     end)).
  { subst w2. unfold afterTokenCheck in Hcheck.
    unfold Run, bind, newStats, isTokenValid, refreshToken, listAll. simpl.
    destruct (IsTokenValid (wClient w)); simpl.
    - injection Hcheck as <-. simpl in Hlist. rewrite Hlist. simpl.
      destruct (RefreshToken c2) as [[refreshErr |] c3]; simpl; [reflexivity |].
      destruct (ListAll c3) as [[err2 | listed] c4]; reflexivity.
    - destruct (RefreshToken (wClient w)) as [[err0 |] c0]; [discriminate |].
      injection Hcheck as <-. simpl in Hlist. simpl. rewrite Hlist. simpl.
      destruct (RefreshToken c2) as [[refreshErr |] c3]; simpl; [reflexivity |].
      destruct (ListAll c3) as [[err2 | listed] c4]; reflexivity. }
  split; [| split].
  - intros refreshErr c3 Hrefresh. rewrite Hrun, Hrefresh. simpl.
    split; [reflexivity |]. rewrite <- app_assoc. reflexivity.
  - intros c3 err2 c4 Hrefresh Hlist2. rewrite Hrun, Hrefresh. simpl.
    rewrite Hlist2. simpl. split; [reflexivity |].
    rewrite <- !app_assoc. reflexivity.
  - intros c3 listed c4 Hrefresh Hlist2. rewrite Hrun, Hrefresh. simpl.
    rewrite Hlist2. split; [reflexivity |].
    destruct (continue listed _) as [r w'] eqn:Hrest.
    destruct (runListed_local _ _ _ _ Hrest) as (Hclient & Hcalls & _).
    simpl. rewrite Hclient, Hcalls. simpl.
    split; [| reflexivity]. rewrite <- !app_assoc. reflexivity.
Qed.

(** C9: the paths [Run] creates in its download phase are local paths of
    files of the filtered listing, the paths it removes are local paths of
    no entry of the filtered listing, and so no path is created and
    removed in one run. *)
Theorem Run_created_not_removed (w : World C) r w' :
  wCreated w = [] -> lRemoved (wLocal w) = [] ->
  run w = (r, w') ->
  exists dropboxFiles,
    (forall p, In p (wCreated w') ->
       exists file, In file (filterFiles cfg dropboxFiles)
                    /\ IsFolder file = false /\ p = localPath cfg file)
    /\ (forall p file, In p (lRemoved (wLocal w')) ->
          In file (filterFiles cfg dropboxFiles) -> p <> localPath cfg file)
    /\ (forall p, In p (wCreated w') -> ~ In p (lRemoved (wLocal w'))).
Proof.
  intros Hc Hr Hrun.
  destruct (Run_cases _ _ _ Hrun) as [[Hl Hcr] | (listed & w1 & Hl & Hcr & Hrest)].
  - exists []. rewrite Hcr, Hl, Hc, Hr. repeat split; intros p; simpl; tauto.
  - exists listed.
    destruct (runListed_local _ _ _ _ Hrest)
      as (_ & _ & created & removed & Hcreated & Hremoved & Hfrom & Hnot).
    rewrite Hcreated, Hremoved, Hl, Hcr, Hc, Hr. simpl.
    split; [assumption |]. split; [assumption |].
    intros p Hp Hp'. destruct (Hfrom p Hp) as (file & Hfile & _ & ->).
    exact (Hnot _ file Hp' Hfile eq_refl).
Qed.

End RunFacts.

Lemma Run_listing_retry_witness :
  (fst (Run (Examples.cfg [] false) Examples.ioOk Examples.schedSerialDownload []
            (Examples.world Examples.clientRefreshFails ∅))
   = Fail (Wrapped "failed to list Dropbox files and refresh token"
                   Examples.listError)
   /\ wCalls (snd (Run (Examples.cfg [] false) Examples.ioOk
                       Examples.schedSerialDownload []
                       (Examples.world Examples.clientRefreshFails ∅)))
      = [CallIsTokenValid; CallListAll; CallRefreshToken])
  /\ (fst (Run (Examples.cfg [] false) Examples.ioOk Examples.schedSerialDownload []
               (Examples.world Examples.clientRetryFails ∅))
      = Fail (Wrapped "failed to list Dropbox files after token refresh"
                      (ErrorString "failed to list files"))
      /\ wCalls (snd (Run (Examples.cfg [] false) Examples.ioOk
                          Examples.schedSerialDownload []
                          (Examples.world Examples.clientRetryFails ∅)))
         = [CallIsTokenValid; CallListAll; CallRefreshToken; CallListAll])
  /\ (fst (Run (Examples.cfg [] false) Examples.ioOk Examples.schedSerialDownload []
               (Examples.world
                  (Examples.clientRetry [Examples.aTxt; Examples.bTxt]) ∅))
      = Ok tt
      /\ wCalls (snd (Run (Examples.cfg [] false) Examples.ioOk
                          Examples.schedSerialDownload []
                          (Examples.world
                             (Examples.clientRetry [Examples.aTxt; Examples.bTxt]) ∅)))
         = [CallIsTokenValid; CallListAll; CallRefreshToken; CallListAll]).
Proof.
  split; [| split].
  - edestruct (Run_listing_retry (Examples.cfg [] false) Examples.ioOk
                 Examples.schedSerialDownload []
                 (Examples.world Examples.clientRefreshFails ∅))
      as (Hfail & _ & _); [reflexivity | reflexivity |].
    edestruct Hfail as [Hrun Hcalls]; [reflexivity |].
    split; [rewrite Hrun; reflexivity | exact Hcalls].
  - edestruct (Run_listing_retry (Examples.cfg [] false) Examples.ioOk
                 Examples.schedSerialDownload []
                 (Examples.world Examples.clientRetryFails ∅))
      as (_ & Hfail & _); [reflexivity | reflexivity |].
    edestruct Hfail as [Hrun Hcalls]; [reflexivity | reflexivity |].
    split; [rewrite Hrun; reflexivity | exact Hcalls].
  - edestruct (Run_listing_retry (Examples.cfg [] false) Examples.ioOk
                 Examples.schedSerialDownload []
                 (Examples.world
                    (Examples.clientRetry [Examples.aTxt; Examples.bTxt]) ∅))
      as (_ & _ & Hok); [reflexivity | reflexivity |].
    edestruct Hok as (Hrun & Hcalls & _); [reflexivity | reflexivity |].
    split; [rewrite Hrun; vm_compute; reflexivity | exact Hcalls].
Defined.

Lemma Run_created_not_removed_witness :
  exists dropboxFiles,
    (forall p,
        In p (wCreated (snd (Run (Examples.cfg [] true) Examples.ioOk
                                 Examples.schedSerialDownload Examples.walkOrphan
                                 (Examples.world
                                    (Examples.clientOk [Examples.aTxt; Examples.bTxt]) ∅)))) ->
        exists file,
          In file (filterFiles (Examples.cfg [] true) dropboxFiles)
          /\ IsFolder file = false
          /\ p = localPath (Examples.cfg [] true) file)
    /\ (forall p file,
          In p (lRemoved (wLocal (snd (Run (Examples.cfg [] true) Examples.ioOk
                                           Examples.schedSerialDownload
                                           Examples.walkOrphan
                                           (Examples.world
                                              (Examples.clientOk
                                                 [Examples.aTxt; Examples.bTxt]) ∅))))) ->
          In file (filterFiles (Examples.cfg [] true) dropboxFiles) ->
          p <> localPath (Examples.cfg [] true) file)
    /\ (forall p,
          In p (wCreated (snd (Run (Examples.cfg [] true) Examples.ioOk
                                   Examples.schedSerialDownload Examples.walkOrphan
                                   (Examples.world
                                      (Examples.clientOk [Examples.aTxt; Examples.bTxt]) ∅)))) ->
          ~ In p (lRemoved (wLocal (snd (Run (Examples.cfg [] true) Examples.ioOk
                                             Examples.schedSerialDownload
                                             Examples.walkOrphan
                                             (Examples.world
                                                (Examples.clientOk
                                                   [Examples.aTxt; Examples.bTxt]) ∅)))))).
Proof.
  apply (Run_created_not_removed (Examples.cfg [] true) Examples.ioOk
           Examples.schedSerialDownload Examples.walkOrphan
           (Examples.world (Examples.clientOk [Examples.aTxt; Examples.bTxt]) ∅)
           (fst (Run (Examples.cfg [] true) Examples.ioOk
                     Examples.schedSerialDownload Examples.walkOrphan
                     (Examples.world
                        (Examples.clientOk [Examples.aTxt; Examples.bTxt]) ∅)))).
  - reflexivity.
  - reflexivity.
  - vm_compute. reflexivity.
Defined.

(** That run, evaluated: the two files are created, the orphan is removed
    and counted, the files of the listing stay. *)
Example Run_deletes_the_orphan :
  let w' := snd (Run (Examples.cfg [] true) Examples.ioOk
                     Examples.schedSerialDownload Examples.walkOrphan
                     (Examples.world
                        (Examples.clientOk [Examples.aTxt; Examples.bTxt]) ∅)) in
  wCreated w' = ["/backup/a.txt"; "/backup/b.txt"]
  /\ lRemoved (wLocal w') = ["/backup/orphan.txt"]
  /\ lStats (wLocal w') = mkStats 2 0 2 0 1 30.
Proof. vm_compute. repeat split; reflexivity. Qed.


(** * Further properties *)

(** ** Strings *)

Lemma append_cons (c : ascii) (s t : string) :
  String c s ++ t = String c (s ++ t).
Proof. reflexivity. Qed.

Lemma append_nil (t : string) : "" ++ t = t.
Proof. reflexivity. Qed.

Lemma prefix_app (p s : string) :
  String.prefix p s = true <-> exists post, s = p ++ post.
Proof.
  revert s. induction p as [| c p IH]; intros s.
  - split; [intros _; exists s; reflexivity | intros _].
    destruct s; reflexivity.
  - destruct s as [| d s]; simpl.
    + split; [discriminate | intros [post Hp]; discriminate].
    + destruct (ascii_dec c d) as [-> | Hne].
      * rewrite IH. split; intros [post Hp]; exists post;
          rewrite append_cons in *; congruence.
      * split; [discriminate |]. intros [post Hp].
        rewrite append_cons in Hp. congruence.
Qed.

Lemma Contains_app (s sub : string) :
  Strings.Contains s sub = true <-> exists pre post, s = pre ++ sub ++ post.
Proof.
  induction s as [| c s IH]; cbn [Strings.Contains].
  - rewrite orb_false_r, prefix_app. split.
    + intros [post Hp]. exists "", post. exact Hp.
    + intros (pre & post & Hp). destruct pre; [| discriminate].
      exists post. exact Hp.
  - rewrite orb_true_iff, prefix_app, IH. split.
    + intros [[post Hp] | (pre & post & Hp)].
      * exists "", post. exact Hp.
      * exists (String c pre), post. rewrite append_cons. congruence.
    + intros (pre & post & Hp). destruct pre as [| d pre].
      * left. exists post. exact Hp.
      * right. exists pre, post. rewrite append_cons in Hp. congruence.
Qed.

(** ** More on the exclusion filter *)

Section FilterFacts.

Context `{Filepath}.

(** X1: [filterFiles] keeps the files whose path no rule excludes, all of
    them and in the order of the listing. *)
Theorem filterFiles_keeps_the_rest cfg files :
  filterFiles cfg files
  = List.filter (fun file => negb (shouldExclude cfg (Path file))) files.
Proof.
  unfold filterFiles. destruct (Exclude cfg) as [| rule rules] eqn:Hex; simpl.
  - induction files as [| file files IH]; [reflexivity |].
    cbn [List.filter]. unfold shouldExclude at 1. rewrite Hex. simpl.
    congruence.
  - rewrite filterLoop_filter. reflexivity.
Qed.

(** X2: the order of the exclusion rules, and how often a rule is given,
    does not change what [filterFiles] returns: two rule lists with the
    same rules filter alike. *)
Theorem filterFiles_rule_order cfg cfg' files :
  (forall rule, In rule (Exclude cfg) <-> In rule (Exclude cfg')) ->
  filterFiles cfg files = filterFiles cfg' files.
Proof.
  intros Hsame. rewrite !filterFiles_filter.
  apply List.filter_ext. intros file. f_equal.
  unfold shouldExclude. rewrite !excludeLoop_existsb.
  apply eq_true_iff_eq. rewrite !existsb_exists.
  split; intros (rule & Hin & Hrule); exists rule; split; auto;
    apply Hsame; assumption.
Qed.

(** X3: filtering a listing that is filtered already changes nothing. *)
Theorem filterFiles_idempotent cfg files :
  filterFiles cfg (filterFiles cfg files) = filterFiles cfg files.
Proof.
  rewrite !filterFiles_filter.
  induction files as [| file files IH]; [reflexivity |].
  cbn [List.filter].
  destruct (negb (shouldExclude cfg (Path file))) eqn:Hkeep.
  - cbn [List.filter]. rewrite Hkeep, IH. reflexivity.
  - exact IH.
Qed.

(** X4: a rule that ends with a slash (and does not name an exclusion
    file) excludes a path exactly when the path starts with the rule or
    holds the rule right after a slash; the glob match is not consulted
    for it. *)
Theorem directory_rule_excludes rule path :
  Strings.HasPrefix rule "@" = false ->
  Strings.HasSuffix rule "/" = true ->
  excludeStep rule path = true
  <-> (exists post, path = rule ++ post)
      \/ (exists pre post, path = pre ++ "/" ++ rule ++ post).
Proof.
  intros Hat Hdir. unfold excludeStep. rewrite Hat, Hdir.
  unfold Strings.HasPrefix.
  destruct (String.prefix rule path || Strings.Contains path ("/" ++ rule))
    eqn:Hm.
  - split; [intros _ | reflexivity].
    apply orb_true_iff in Hm. destruct Hm as [Hp | Hc].
    + left. apply prefix_app. exact Hp.
    + right. apply Contains_app in Hc. destruct Hc as (pre & post & Hc).
      exists pre, post. exact Hc.
  - split; [discriminate |]. intros Hex.
    apply orb_false_iff in Hm. destruct Hm as [Hp Hc].
    destruct Hex as [Hpre | (pre & post & Hin)].
    + apply prefix_app in Hpre. congruence.
    + assert (Strings.Contains path ("/" ++ rule) = true)
        by (apply Contains_app; exists pre, post; exact Hin).
      congruence.
Qed.

End FilterFacts.

Lemma filterFiles_rule_order_witness :
  filterFiles (Examples.cfg ["*.tmp"; "cache/"; "*.tmp"] false)
              [Examples.aTxt; Examples.bTxt]
  = filterFiles (Examples.cfg ["cache/"; "*.tmp"] false)
                [Examples.aTxt; Examples.bTxt].
Proof.
  apply filterFiles_rule_order. intros rule. simpl. tauto.
Defined.

Lemma directory_rule_excludes_witness :
  excludeStep "temp/" "/docs/temp/file.txt" = true
  <-> (exists post, "/docs/temp/file.txt" = "temp/" ++ post)
      \/ (exists pre post, "/docs/temp/file.txt" = pre ++ "/" ++ "temp/" ++ post).
Proof.
  apply directory_rule_excludes; reflexivity.
Defined.

(** A directory rule excludes what is under the directory, at any depth,
    and not the entry of the directory itself. *)
Example directory_rule_examples :
  shouldExclude (Examples.cfg ["temp/"] false) "/docs/temp/file.txt" = true
  /\ shouldExclude (Examples.cfg ["temp/"] false) "/temp" = false
  /\ shouldExclude (Examples.cfg ["temp/"] false) "/attempt/file.txt" = false.
Proof. repeat split; vm_compute; reflexivity. Qed.

(** ** More on the skip decision *)

Lemma After_asym x u : Time.After x u = true -> Time.After u x = false.
Proof.
  unfold Time.After. rewrite !Z.gtb_ltb. intros Hxu.
  apply orb_true_iff in Hxu. apply orb_false_iff.
  destruct Hxu as [Hlt | Heq].
  - apply Z.ltb_lt in Hlt. split.
    + apply Z.ltb_ge. lia.
    + apply andb_false_iff. left. apply Z.eqb_neq. lia.
  - apply andb_true_iff in Heq. destruct Heq as [Heq Hlt].
    apply Z.eqb_eq in Heq. apply Z.ltb_lt in Hlt. split.
    + apply Z.ltb_ge. lia.
    + apply andb_false_iff. right. apply Z.ltb_ge. lia.
Qed.

Lemma After_not_Equal x u : Time.After x u = true -> Time.Equal u x = false.
Proof.
  intros Ha. destruct (Time.Equal u x) eqn:He; [| reflexivity].
  apply Equal_eq in He. subst u. rewrite After_irrefl in Ha. discriminate.
Qed.

(** X5: a local file that is older than the remote entry is never
    skipped, whatever the sizes: a newer remote file is downloaded
    again. *)
Theorem shouldSkipFile_remote_newer (fs : FS) localPath remoteFile stat :
  fs !! localPath = Some stat ->
  Time.After (ModTime remoteFile) (stModTime stat) = true ->
  shouldSkipFile fs localPath remoteFile = false.
Proof.
  intros Hstat Hnewer. unfold shouldSkipFile. rewrite Hstat.
  rewrite (After_asym _ _ Hnewer), (After_not_Equal _ _ Hnewer).
  rewrite !andb_false_r. reflexivity.
Qed.

Lemma shouldSkipFile_remote_newer_witness :
  shouldSkipFile Examples.fsSynced "/backup/a.txt"
    (Examples.remoteFile "/a.txt" 10 (Time.mk 63800000000 1)) = false.
Proof.
  apply (shouldSkipFile_remote_newer _ _ _ (mkFileStat 10 Examples.T0 false));
    reflexivity.
Defined.

(** X6: a local file with exactly the modification time of the remote
    entry and another size is not skipped. *)
Theorem shouldSkipFile_size_differs (fs : FS) localPath remoteFile stat :
  fs !! localPath = Some stat ->
  stModTime stat = ModTime remoteFile ->
  0 <= stSize stat < 2 ^ 63 ->
  Int.is_uint64 (Size remoteFile) ->
  stSize stat <> Size remoteFile ->
  shouldSkipFile fs localPath remoteFile = false.
Proof.
  intros Hstat Htime Hlocal Hremote Hsize. unfold shouldSkipFile.
  rewrite Hstat, Htime, After_irrefl, andb_false_r.
  assert (Hne : (stSize stat =? Int.int64_of_uint64 (Size remoteFile)) = false).
  { apply Z.eqb_neq. unfold Int.int64_of_uint64, Int.is_uint64, Int.uint64_max in *.
    destruct (Z.ltb_spec (Size remoteFile) (2 ^ 63)); lia. }
  rewrite Hne. reflexivity.
Qed.

Lemma shouldSkipFile_size_differs_witness :
  shouldSkipFile Examples.fsSynced "/backup/a.txt"
    (Examples.remoteFile "/a.txt" 11 Examples.T0) = false.
Proof.
  apply (shouldSkipFile_size_differs _ _ _ (mkFileStat 10 Examples.T0 false)).
  - reflexivity.
  - reflexivity.
  - simpl. lia.
  - unfold Int.is_uint64, Int.uint64_max. simpl. lia.
  - simpl. lia.
Defined.

(** X7: of the entries of a listing only a file with a known modification
    time can be skipped: a folder, a file without client modification time
    and any other entry (listed as the file [/unknown]) never are. *)
Theorem shouldSkipFile_converted (fs : FS) localPath entry :
  shouldSkipFile fs localPath (Dropbox.convertToFileInfo entry) = true ->
  exists pathLower name size clientModified contentHash rev,
    entry = Dropbox.FileMetadata pathLower name size clientModified contentHash rev
    /\ Time.IsZero clientModified = false.
Proof.
  intros Hskip. apply shouldSkipFile_spec in Hskip.
  destruct Hskip as (stat & _ & Hz & _).
  destruct entry as [pathLower name size clientModified contentHash rev | |];
    simpl in Hz; try discriminate.
  eauto 8.
Qed.

Lemma shouldSkipFile_converted_witness :
  exists pathLower name size clientModified contentHash rev,
    Dropbox.FileMetadata "/a.txt" "a.txt" 10 Examples.T0 "" ""
    = Dropbox.FileMetadata pathLower name size clientModified contentHash rev
    /\ Time.IsZero clientModified = false.
Proof.
  apply (shouldSkipFile_converted Examples.fsSynced "/backup/a.txt"
           (Dropbox.FileMetadata "/a.txt" "a.txt" 10 Examples.T0 "" "")).
  reflexivity.
Defined.

(** ** One download and the next run *)

Section TransferFacts.

Context `{Filepath}.
Variable cfg : Config.
Variable io : FileInfo -> IO.

(** X8: a file that is downloaded in full, and whose modification time is
    then set, is skipped when it is looked at again: the file system after
    the transfer holds a file of the remote size with the remote
    modification time. *)
Theorem transfer_then_skip file (fs : FS) created :
  Time.IsZero (ModTime file) = false ->
  0 <= Size file < 2 ^ 63 ->
  ioMkdirAll (io file) = None ->
  ioDownload (io file) = None ->
  ioCreate (io file) = None ->
  ioCopy (io file) = (Size file, None) ->
  ioChtimes (io file) = None ->
  let '(fs', created', r) := transfer cfg io file fs created in
  r = inr (Size file)
  /\ created' = (created ++ [localPath cfg file])%list
  /\ shouldSkipFile fs' (localPath cfg file) file = true.
Proof.
  intros Hz Hsize Hmk Hdl Hcr Hcp Hch. unfold transfer.
  rewrite Hmk, Hdl, Hcr, Hcp, Hch, Hz. simpl.
  split; [reflexivity |]. split; [reflexivity |].
  apply shouldSkipFile_spec.
  exists (mkFileStat (Size file) (ModTime file) false).
  split; [apply lookup_insert_eq |]. split; [assumption |]. right. simpl. split.
  - symmetry. apply int64_of_uint64_small. assumption.
  - apply Equal_eq. reflexivity.
Qed.

(** X9: when the copy of the content fails the file stays behind with what
    was written, and with the modification time the file system gave it;
    if that time is after the remote modification time the file is skipped
    when it is looked at again, whatever its size. *)
Theorem failed_copy_then_skip file (fs : FS) created written err :
  Time.IsZero (ModTime file) = false ->
  ioMkdirAll (io file) = None ->
  ioDownload (io file) = None ->
  ioCreate (io file) = None ->
  ioCopy (io file) = (written, Some err) ->
  Time.After (ioNow (io file)) (ModTime file) = true ->
  let '(fs', created', r) := transfer cfg io file fs created in
  r = inl (Wrapped "failed to write file content" err)
  /\ fs' !! localPath cfg file = Some (mkFileStat written (ioNow (io file)) false)
  /\ shouldSkipFile fs' (localPath cfg file) file = true.
Proof.
  intros Hz Hmk Hdl Hcr Hcp Hafter. unfold transfer.
  rewrite Hmk, Hdl, Hcr, Hcp. simpl.
  split; [reflexivity |]. split; [apply lookup_insert_eq |].
  apply shouldSkipFile_spec.
  exists (mkFileStat written (ioNow (io file)) false).
  split; [apply lookup_insert_eq |]. split; [assumption |]. left. assumption.
Qed.

End TransferFacts.

(** ** More on the download phase *)

Section PhaseFacts.

Context `{Filepath}.
Variable cfg : Config.
Variable io : FileInfo -> IO.
Variable files : list FileInfo.
Variables (stats0 : Stats) (fs0 : FS).

Lemma count_insert (f : Worker -> bool) ws i w w' :
  ws !! i = Some w ->
  (List.length (List.filter f (<[i := w']> ws)) + Nat.b2n (f w)
   = List.length (List.filter f ws) + Nat.b2n (f w'))%nat.
Proof.
  revert i. induction ws as [| x ws IH]; intros i Hi.
  - destruct i; discriminate.
  - destruct i as [| i]; simpl in *.
    + injection Hi as ->. destruct (f w), (f w'); simpl; lia.
    + specialize (IH i Hi). destruct (f x); simpl; lia.
Qed.

Lemma count_app (f : Worker -> bool) ws w :
  List.length (List.filter f (ws ++ [w]))
  = (List.length (List.filter f ws) + Nat.b2n (f w))%nat.
Proof.
  rewrite List.filter_app, length_app. simpl. destruct (f w); reflexivity.
Qed.

Lemma In_insert_other (ws : list Worker) i w w' x :
  ws !! i = Some w -> In x ws -> x <> w -> In x (<[i := w']> ws).
Proof.
  revert i. induction ws as [| y ws IH]; intros i Hi Hx Hne; [destruct Hx |].
  destruct i as [| i]; simpl in *.
  - injection Hi as ->. destruct Hx as [-> | Hx]; [congruence | auto].
  - destruct Hx as [-> | Hx]; [auto | right; eauto].
Qed.

Lemma transfer_result file fs created fs' created' r :
  transfer cfg io file fs created = (fs', created', r) ->
  (forall err, r = inl err -> stageError err)
  /\ (forall p, is_Some (fs !! p) -> is_Some (fs' !! p)).
Proof.
  unfold transfer, stageError, downloadStages. intros Ht.
  destruct (ioMkdirAll (io file)).
  { injection Ht as <- <- <-. split; [| auto].
    intros err [= <-]. eexists _, _. split; [| reflexivity]. simpl. tauto. }
  destruct (ioDownload (io file)).
  { injection Ht as <- <- <-. split; [| auto].
    intros err [= <-]. eexists _, _. split; [| reflexivity]. simpl. tauto. }
  destruct (ioCreate (io file)).
  { injection Ht as <- <- <-. split; [| auto].
    intros err [= <-]. eexists _, _. split; [| reflexivity]. simpl. tauto. }
  assert (Hgrow : forall (m : FS) k v p,
             is_Some (m !! p) -> is_Some (<[k := v]> m !! p)).
  { intros m k v p Hp. destruct (decide (k = p)) as [-> | Hne].
    - rewrite lookup_insert_eq. eauto.
    - rewrite lookup_insert_ne by assumption. assumption. }
  destruct (snd (ioCopy (io file))).
  { injection Ht as <- <- <-. split; [| auto].
    intros err [= <-]. eexists _, _. split; [| reflexivity]. simpl. tauto. }
  injection Ht as <- <- <-. split; [discriminate |].
  intros p Hp. destruct (negb (Time.IsZero (ModTime file))); [| auto].
  destruct (ioChtimes (io file)); auto.
Qed.

Lemma PhaseInv_init : PhaseInv cfg stats0 fs0 (dinit files stats0 fs0).
Proof.
  constructor; simpl; auto; try discriminate; try tauto. lia.
Qed.

(** A step of worker [i] keeps the second invariant. *)
Lemma PhaseInv_worker s s' i w pc :
  PhaseInv cfg stats0 fs0 s ->
  dWorkers s !! i = Some w -> inFlight w = true ->
  dMain s' = dMain s ->
  dWorkers s' = <[i := mkWorker (wFile w) pc]> (dWorkers s) ->
  (dSem s' + Nat.b2n (holdsSlot w)
   = dSem s + Nat.b2n (holdsSlot (mkWorker (wFile w) pc)))%nat ->
  (dSem s' <= MaxConcurrency cfg)%nat ->
  (forall x, In x (dErrChan s') ->
     In x (dErrChan s) \/ exists e, x = Some e /\ pc = WDone (Some e)) ->
  (forall e, pc = WDone (Some e) -> workerError w e) ->
  (forall e, pc = WReturn (Some e) -> stageError e) ->
  (forall p, is_Some (dFS s !! p) -> is_Some (dFS s' !! p)) ->
  TotalFiles (dStats s') = TotalFiles (dStats s) ->
  TotalFolders (dStats s') = TotalFolders (dStats s) ->
  DeletedFiles (dStats s') = DeletedFiles (dStats s) ->
  PhaseInv cfg stats0 fs0 s'.
Proof.
  intros [Hslots Hcap Hchan Hret Hdone Hreturn Hfs (Ht1 & Ht2 & Ht3)]
         Hi Hfl Hmain Hws Hsem Hcap' Hchan' Hpc Hpc' Hfs' Hf1 Hf2 Hf3.
  assert (Hold : forall x, In x (dWorkers s) -> inFlight x = false ->
                           In x (dWorkers s')).
  { intros x Hx Hxfl. rewrite Hws. eapply In_insert_other; eauto.
    intros ->. congruence. }
  assert (Hnew : In (mkWorker (wFile w) pc) (dWorkers s')).
  { rewrite Hws. apply list_elem_of_In, list_elem_of_lookup. exists i.
    apply list_lookup_insert_eq. eapply lookup_lt_Some; eassumption. }
  constructor.
  - pose proof (count_insert holdsSlot _ _ _ (mkWorker (wFile w) pc) Hi) as Hc.
    unfold slotsHeld in *. rewrite Hws. lia.
  - assumption.
  - intros x Hx. destruct (Hchan' x Hx) as [Hin | (e & -> & ->)].
    + destruct (Hchan x Hin) as (w0 & e & -> & Hw0 & Hpc0).
      exists w0, e. split; [reflexivity |]. split; [| assumption].
      apply Hold; [assumption |]. unfold inFlight. rewrite Hpc0. reflexivity.
    + exists (mkWorker (wFile w) (WDone (Some e))), e. auto.
  - rewrite Hmain. intros e He. destruct (Hret e He) as (w0 & Hw0 & Hpc0).
    exists w0. split; [| assumption].
    apply Hold; [assumption |]. unfold inFlight. rewrite Hpc0. reflexivity.
  - intros x e Hx Hxpc. rewrite Hws in Hx.
    destruct (In_insert _ _ _ _ Hx) as [-> | Hin].
    + simpl in Hxpc. unfold workerError. simpl. apply (Hpc e Hxpc).
    + eauto.
  - intros x e Hx Hxpc. rewrite Hws in Hx.
    destruct (In_insert _ _ _ _ Hx) as [-> | Hin].
    + simpl in Hxpc. eauto.
    + eauto.
  - auto.
  - repeat split; congruence.
Qed.

Local Ltac phase_step :=
  eapply PhaseInv_worker; eauto; simpl;
  try first [ assumption | reflexivity | discriminate | lia
            | solve [intros ? ?; auto]
            | solve [auto] ].

Lemma PhaseInv_stepWorker i s s' :
  PhaseInv cfg stats0 fs0 s ->
  stepWorker cfg io files i s = Some s' -> PhaseInv cfg stats0 fs0 s'.
Proof.
  intros HI. pose proof (ph_cap _ _ _ _ HI) as Hcap.
  pose proof (ph_return _ _ _ _ HI) as Hreturn. unfold stepWorker.
  destruct (dWorkers s !! i) as [w |] eqn:Hi; [simpl | discriminate].
  pose proof (lookup_In _ _ _ Hi) as Hin.
  destruct (wPC w) eqn:Hpc; try discriminate;
    assert (Hfl : inFlight w = true) by (unfold inFlight; rewrite Hpc; reflexivity);
    assert (Hslot : holdsSlot w = true)
      by (unfold holdsSlot; rewrite Hpc; reflexivity).
  - destruct (shouldSkipFile _ _ _).
    + intros [= <-]. phase_step; rewrite Hslot; reflexivity.
    + destruct (transfer _ _ _ _ _) as [[fs created] r] eqn:Ht.
      destruct (transfer_result _ _ _ _ _ _ Ht) as [Herr Hgrow].
      destruct r; intros [= <-]; phase_step;
        try (rewrite Hslot; reflexivity).
      intros e0 [= <-]. apply Herr. reflexivity.
  - intros [= <-]. phase_step; rewrite Hslot; reflexivity.
  - intros [= <-]. phase_step; rewrite Hslot; reflexivity.
  - intros [= <-]. phase_step; rewrite Hslot; reflexivity.
  - intros [= <-]. phase_step; rewrite Hslot; reflexivity.
  - intros [= <-]. phase_step; rewrite Hslot; reflexivity.
  - intros [= <-]. phase_step; rewrite Hslot; reflexivity.
  - assert (Hheld : (1 <= dSem s)%nat).
    { rewrite <- (ph_slots _ _ _ _ HI). unfold slotsHeld.
      clear - Hin Hslot. induction (dWorkers s) as [| x ws IH]; [destruct Hin |].
      simpl. destruct Hin as [-> | Hin].
      - rewrite Hslot. simpl. lia.
      - specialize (IH Hin). destruct (holdsSlot x); simpl; lia. }
    unfold finish. destruct err as [e |]; simpl.
    + destruct (send _ _ _) as [s1 |] eqn:Hsend; [simpl | discriminate].
      apply send_chan in Hsend. subst s1. intros [= <-].
      phase_step.
      * rewrite Hslot. simpl. lia.
      * intros x Hx. apply in_app_iff in Hx. destruct Hx as [Hx | [<- | []]];
          [auto | right; eauto].
      * intros e0 [= <-]. right. exists e. split; [| reflexivity].
        eapply Hreturn; eassumption.
    + intros [= <-]. phase_step. rewrite Hslot. simpl. lia.
Qed.

Lemma PhaseInv_stepAcquire i s s' :
  PhaseInv cfg stats0 fs0 s ->
  stepAcquire cfg i s = Some s' -> PhaseInv cfg stats0 fs0 s'.
Proof.
  intros HI. unfold stepAcquire.
  destruct (dWorkers s !! i) as [w |] eqn:Hi; [simpl | discriminate].
  destruct (wPC w) eqn:Hpc; try discriminate.
  destruct (Nat.ltb_spec (dSem s) (MaxConcurrency cfg)); [| discriminate].
  intros [= <-].
  assert (Hfl : inFlight w = true) by (unfold inFlight; rewrite Hpc; reflexivity).
  assert (Hslot : holdsSlot w = false)
    by (unfold holdsSlot; rewrite Hpc; reflexivity).
  phase_step. rewrite Hslot. simpl. lia.
Qed.

Lemma PhaseInv_stepCtxDone i s s' :
  PhaseInv cfg stats0 fs0 s ->
  stepCtxDone files i s = Some s' -> PhaseInv cfg stats0 fs0 s'.
Proof.
  intros HI. pose proof (ph_cap _ _ _ _ HI) as Hcap. unfold stepCtxDone.
  destruct (dWorkers s !! i) as [w |] eqn:Hi; [simpl | discriminate].
  destruct (wPC w) eqn:Hpc; try discriminate.
  destruct (dCancelled s); [| discriminate].
  destruct (send _ _ _) as [s1 |] eqn:Hsend; [simpl | discriminate].
  apply send_chan in Hsend. subst s1. intros [= <-].
  assert (Hfl : inFlight w = true) by (unfold inFlight; rewrite Hpc; reflexivity).
  assert (Hslot : holdsSlot w = false)
    by (unfold holdsSlot; rewrite Hpc; reflexivity).
  phase_step.
  - rewrite Hslot. simpl. lia.
  - intros x Hx. apply in_app_iff in Hx. destruct Hx as [Hx | [<- | []]];
      [auto | right; eauto].
  - intros e0 [= <-]. left. reflexivity.
Qed.

Lemma PhaseInv_stepMain s s' :
  PhaseInv cfg stats0 fs0 s -> stepMain s = Some s' -> PhaseInv cfg stats0 fs0 s'.
Proof.
  intros [Hslots Hcap Hchan Hret Hdone Hreturn Hfs Htot]. unfold stepMain.
  destruct (dMain s) as [[| file rest] | | r] eqn:Hm; try discriminate.
  - intros [= <-]. constructor; simpl; try assumption. discriminate.
  - destruct (IsFolder file); intros [= <-].
    + constructor; simpl; try assumption. discriminate.
    + constructor; simpl; try assumption.
      * unfold slotsHeld in *. rewrite count_app. simpl. lia.
      * intros x Hx. destruct (Hchan x Hx) as (w & e & -> & Hw & Hpc).
        exists w, e. rewrite in_app_iff. auto.
      * discriminate.
      * intros w e Hw Hpc. apply in_app_iff in Hw.
        destruct Hw as [Hw | [<- | []]]; [eauto | discriminate].
      * intros w e Hw Hpc. apply in_app_iff in Hw.
        destruct Hw as [Hw | [<- | []]]; [eauto | discriminate].
  - destruct (dErrChan s) as [| [err |] q] eqn:Hq.
    + destruct (dClosed s); [| discriminate]. intros [= <-].
      constructor; simpl; try assumption.
      * rewrite Hq. intros x [].
      * discriminate.
    + intros [= <-]. constructor; simpl; try assumption.
      * intros x Hx. apply Hchan. right. assumption.
      * intros e [= <-].
        destruct (Hchan (Some err)) as (w & e & [= <-] & Hw & Hpc);
          [left; reflexivity |].
        eauto.
    + intros [= <-]. constructor; simpl; rewrite ?Hm; try assumption.
      intros x Hx. apply Hchan. right. assumption.
Qed.

Lemma PhaseInv_dstep l s s' :
  PhaseInv cfg stats0 fs0 s ->
  dstep cfg io files l s = Some s' -> PhaseInv cfg stats0 fs0 s'.
Proof.
  destruct l; simpl.
  - apply PhaseInv_stepMain.
  - intros [Hslots Hcap Hchan Hret Hdone Hreturn Hfs Htot]. unfold stepWaiter.
    destruct (dWaiter s); try discriminate.
    destruct (dWG s =? 0)%nat; [| discriminate].
    intros [= <-]. constructor; simpl; assumption.
  - apply PhaseInv_stepAcquire.
  - apply PhaseInv_stepCtxDone.
  - apply PhaseInv_stepWorker.
  - intros [Hslots Hcap Hchan Hret Hdone Hreturn Hfs Htot] [= <-].
    constructor; simpl; assumption.
Qed.

Lemma PhaseInv_reachable s :
  reachable cfg io files stats0 fs0 s -> PhaseInv cfg stats0 fs0 s.
Proof.
  induction 1 as [| s l s' _ IH Hstep]; [apply PhaseInv_init |].
  eapply PhaseInv_dstep; eassumption.
Qed.

(** X10: the workers that are between their [select] and their end are
    never more than [MaxConcurrency]: the semaphore holds one token for
    each of them. *)
Theorem slots_bounded s :
  reachable cfg io files stats0 fs0 s ->
  slotsHeld (dWorkers s) = dSem s
  /\ (slotsHeld (dWorkers s) <= MaxConcurrency cfg)%nat.
Proof.
  intros Hr. destruct (PhaseInv_reachable s Hr) as [Hslots Hcap _ _ _ _ _ _].
  split; [assumption | lia].
Qed.

(** X11: an error that [downloadFiles] returns was sent by the worker of a
    file of the listing that is not a folder: it is [ctx.Err()], or it
    names the path of that file and wraps the error of one of the four
    stages of [downloadFile]. *)
Theorem returned_error_names_a_file s err :
  reachable cfg io files stats0 fs0 s ->
  dMain s = Returned (Some err) ->
  err = Canceled
  \/ exists file stage cause,
       In file files /\ IsFolder file = false
       /\ In stage downloadStages
       /\ err = Wrapped ("failed to download " ++ Path file) (Wrapped stage cause).
Proof.
  intros Hr Hm. pose proof (Inv_reachable cfg io files _ _ _ Hr) as HI.
  destruct (PhaseInv_reachable s Hr) as [_ _ _ Hret Hdone _ _ _].
  destruct (Hret err Hm) as (w & Hw & Hpc).
  destruct (Hdone w err Hw Hpc) as [-> | (cause & (stage & c & Hstage & ->) & ->)];
    [left; reflexivity | right].
  exists (wFile w), stage, c.
  assert (Hin : In (wFile w) (nonFolders files)).
  { rewrite <- (inv_files _ _ _ HI). apply in_app_iff. left.
    apply in_map. assumption. }
  unfold nonFolders in Hin. apply filter_In in Hin. destruct Hin as [Hin Hnf].
  apply negb_true_iff in Hnf. auto.
Qed.

(** X12: the download phase removes no local file, and leaves the counts
    of the listing and of the deletions as they are. *)
Theorem download_phase_keeps s :
  reachable cfg io files stats0 fs0 s ->
  (forall p, is_Some (fs0 !! p) -> is_Some (dFS s !! p))
  /\ TotalFiles (dStats s) = TotalFiles stats0
  /\ TotalFolders (dStats s) = TotalFolders stats0
  /\ DeletedFiles (dStats s) = DeletedFiles stats0.
Proof.
  intros Hr. destruct (PhaseInv_reachable s Hr) as [_ _ _ _ _ _ Hfs Htot].
  split; assumption.
Qed.

End PhaseFacts.

(** ** The counters with one slot *)

Section CounterFacts.

Context `{Filepath}.
Variable cfg : Config.
Variable io : FileInfo -> IO.
Variable files : list FileInfo.
Variables (stats0 : Stats) (fs0 : FS).

Hypothesis one_slot : MaxConcurrency cfg = 1%nat.
Hypothesis few_files : Z.of_nat (List.length files) < 2 ^ 62.

Lemma slots_two ws i j (w x : Worker) :
  ws !! i = Some w -> ws !! j = Some x -> i <> j ->
  holdsSlot w = true -> holdsSlot x = true -> (2 <= slotsHeld ws)%nat.
Proof.
  unfold slotsHeld. revert i j.
  induction ws as [| y ws IH]; intros i j Hi Hj Hne Hw Hx;
    [destruct i; discriminate |].
  assert (Hone : forall k z, ws !! k = Some z -> holdsSlot z = true ->
                             (1 <= List.length (List.filter holdsSlot ws))%nat).
  { clear. induction ws as [| a ws IH]; intros k z Hk Hz;
      [destruct k; discriminate |].
    simpl. destruct k as [| k]; simpl in Hk.
    - injection Hk as ->. rewrite Hz. simpl. lia.
    - specialize (IH k z Hk Hz). destruct (holdsSlot a); simpl; lia. }
  destruct i as [| i], j as [| j]; simpl in *; try congruence.
  - injection Hi as ->. rewrite Hw. simpl. specialize (Hone j x Hj Hx). lia.
  - injection Hj as ->. rewrite Hx. simpl. specialize (Hone i w Hi Hw). lia.
  - assert (i <> j) by congruence.
    specialize (IH i j Hi Hj ltac:(assumption) Hw Hx).
    destruct (holdsSlot y); simpl; lia.
Qed.

Lemma counted_le_files s :
  Inv cfg files s ->
  Z.of_nat (countedWorkers (dWorkers s)) <= Z.of_nat (List.length files).
Proof.
  intros HI. pose proof (inv_files _ _ _ HI) as Hfiles.
  apply (f_equal (@List.length FileInfo)) in Hfiles.
  rewrite length_app, length_map in Hfiles.
  pose proof (List.filter_length_le counted (dWorkers s)).
  pose proof (List.filter_length_le (fun file => negb (IsFolder file)) files).
  unfold countedWorkers, nonFolders in *. lia.
Qed.

Lemma CountInv_init :
  SkippedFiles stats0 = 0 -> DownloadedFiles stats0 = 0 ->
  CountInv (dinit files stats0 fs0).
Proof.
  intros Hs Hd. constructor; simpl.
  - lia.
  - rewrite Hs, Hd. reflexivity.
  - intros i w v Hi. destruct i; discriminate.
  - intros i w n v Hi. destruct i; discriminate.
Qed.

Lemma lookup_insert_cases (ws : list Worker) i j w' x :
  <[i := w']> ws !! j = Some x ->
  (i = j /\ x = w') \/ (i <> j /\ ws !! j = Some x).
Proof.
  intros Hj. destruct (decide (i = j)) as [-> | Hne].
  - left. split; [reflexivity |].
    destruct (decide (j < List.length ws)%nat) as [Hlt | Hge].
    + rewrite list_lookup_insert_eq in Hj by assumption. congruence.
    + rewrite list_insert_ge in Hj by lia.
      apply lookup_lt_Some in Hj. lia.
  - right. split; [assumption |].
    rewrite list_lookup_insert_ne in Hj by assumption. assumption.
Qed.

(** A step of worker [i] that leaves the two counters alone. *)
Lemma CountInv_same s s' i w pc :
  CountInv s -> dWorkers s !! i = Some w ->
  dWorkers s' = <[i := mkWorker (wFile w) pc]> (dWorkers s) ->
  SkippedFiles (dStats s') = SkippedFiles (dStats s) ->
  DownloadedFiles (dStats s') = DownloadedFiles (dStats s) ->
  counted (mkWorker (wFile w) pc) = counted w ->
  (forall v, pc = WSkipStore v -> v = SkippedFiles (dStats s)) ->
  (forall n v, pc = WDlStore n v -> v = DownloadedFiles (dStats s)) ->
  CountInv s'.
Proof.
  intros [Hnn Hsum Hskip Hdl] Hi Hws Hs Hd Hc Hpc1 Hpc2.
  pose proof (count_insert counted _ _ _ (mkWorker (wFile w) pc) Hi) as Hcount.
  constructor.
  - rewrite Hs, Hd. assumption.
  - rewrite Hs, Hd, Hws, Hsum. unfold countedWorkers. rewrite Hc in Hcount. lia.
  - intros j x v Hj Hx. rewrite Hws in Hj. rewrite Hs.
    destruct (lookup_insert_cases _ _ _ _ _ Hj) as [[_ ->] | [_ Hold]]; eauto.
  - intros j x n v Hj Hx. rewrite Hws in Hj. rewrite Hd.
    destruct (lookup_insert_cases _ _ _ _ _ Hj) as [[_ ->] | [_ Hold]]; eauto.
Qed.

Local Ltac same_step :=
  eapply CountInv_same; eauto; simpl;
  try first [ reflexivity | discriminate | solve [intros ? [= <-]; reflexivity]
            | solve [intros ? ? [= <- <-]; reflexivity]
            | solve [intros ? ?; discriminate] ].

Lemma CountInv_stepWorker i s s' :
  Inv cfg files s -> PhaseInv cfg stats0 fs0 s -> CountInv s ->
  stepWorker cfg io files i s = Some s' -> CountInv s'.
Proof.
  intros HI HP HC.
  pose proof (counted_le_files s HI) as Hle.
  assert (Hheld : (slotsHeld (dWorkers s) <= 1)%nat).
  { rewrite (ph_slots _ _ _ _ HP), <- one_slot. apply (ph_cap _ _ _ _ HP). }
  pose proof HC as [Hnn Hsum Hskip Hdl]. unfold stepWorker.
  destruct (dWorkers s !! i) as [w |] eqn:Hi; [simpl | discriminate].
  pose proof (count_insert counted (dWorkers s) i w) as Hcount.
  assert (Hother : forall j x, i <> j -> dWorkers s !! j = Some x ->
                               holdsSlot w = true -> holdsSlot x = false).
  { intros j x Hne Hj Hw. destruct (holdsSlot x) eqn:Hx; [| reflexivity].
    pose proof (slots_two _ _ _ _ _ Hi Hj Hne Hw Hx). lia. }
  destruct (wPC w) eqn:Hpc; try discriminate.
  - destruct (shouldSkipFile _ _ _).
    + intros [= <-]. same_step; unfold counted; rewrite Hpc; reflexivity.
    + destruct (transfer _ _ _ _ _) as [[fs created] r].
      destruct r; intros [= <-]; same_step;
        unfold counted; rewrite Hpc; reflexivity.
  - intros [= <-]. same_step. unfold counted. rewrite Hpc. reflexivity.
  - (* [stats.SkippedFiles++], the write *)
    intros [= <-]. pose proof (Hskip i w v Hi Hpc) as ->.
    assert (Hwrap : Int.wrap_int64 (SkippedFiles (dStats s) + 1)
                    = SkippedFiles (dStats s) + 1).
    { apply wrap_int64_small. unfold Int.is_int64. lia. }
    specialize (Hcount (mkWorker (wFile w) (WReturn None)) Hi).
    unfold counted at 2 4 in Hcount. rewrite Hpc in Hcount. simpl in Hcount.
    constructor; simpl; rewrite ?Hwrap.
    + lia.
    + unfold countedWorkers in *. lia.
    + intros j x v Hj Hx.
      destruct (lookup_insert_cases _ _ _ _ _ Hj) as [[_ ->] | [Hne Hold]];
        [discriminate |].
      assert (holdsSlot x = false)
        by (apply (Hother j x Hne Hold); unfold holdsSlot; rewrite Hpc; reflexivity).
      unfold holdsSlot in *. rewrite Hx in *. discriminate.
    + intros j x n v Hj Hx.
      destruct (lookup_insert_cases _ _ _ _ _ Hj) as [[_ ->] | [Hne Hold]];
        [discriminate | eauto].
  - intros [= <-]. same_step. unfold counted. rewrite Hpc. reflexivity.
  - (* [stats.DownloadedFiles++], the write *)
    intros [= <-]. pose proof (Hdl i w written v Hi Hpc) as ->.
    assert (Hwrap : Int.wrap_int64 (DownloadedFiles (dStats s) + 1)
                    = DownloadedFiles (dStats s) + 1).
    { apply wrap_int64_small. unfold Int.is_int64. lia. }
    specialize (Hcount (mkWorker (wFile w) (WBytesLoad written)) Hi).
    unfold counted at 2 4 in Hcount. rewrite Hpc in Hcount. simpl in Hcount.
    constructor; simpl; rewrite ?Hwrap.
    + lia.
    + unfold countedWorkers in *. lia.
    + intros j x v Hj Hx.
      destruct (lookup_insert_cases _ _ _ _ _ Hj) as [[_ ->] | [Hne Hold]];
        [discriminate | eauto].
    + intros j x n v Hj Hx.
      destruct (lookup_insert_cases _ _ _ _ _ Hj) as [[_ ->] | [Hne Hold]];
        [discriminate |].
      assert (holdsSlot x = false)
        by (apply (Hother j x Hne Hold); unfold holdsSlot; rewrite Hpc; reflexivity).
      unfold holdsSlot in *. rewrite Hx in *. discriminate.
  - intros [= <-]. same_step. unfold counted. rewrite Hpc. reflexivity.
  - intros [= <-]. same_step. unfold counted. rewrite Hpc. reflexivity.
  - unfold finish. destruct err as [e |]; simpl.
    + destruct (send _ _ _) as [s1 |] eqn:Hsend; [simpl | discriminate].
      apply send_chan in Hsend. subst s1. intros [= <-].
      same_step. unfold counted. rewrite Hpc. reflexivity.
    + intros [= <-]. same_step. unfold counted. rewrite Hpc. reflexivity.
Qed.

Lemma CountInv_dstep l s s' :
  Inv cfg files s -> PhaseInv cfg stats0 fs0 s -> CountInv s ->
  dstep cfg io files l s = Some s' -> CountInv s'.
Proof.
  intros HI HP HC. destruct l; simpl.
  - (* the goroutine of [downloadFiles] *)
    destruct HC as [Hnn Hsum Hskip Hdl]. unfold stepMain.
    destruct (dMain s) as [[| file rest] | | r]; try discriminate.
    + intros [= <-]. constructor; simpl; assumption.
    + destruct (IsFolder file); intros [= <-].
      * constructor; simpl; assumption.
      * constructor; simpl; try assumption.
        -- unfold countedWorkers in *. rewrite count_app. simpl. lia.
        -- intros j x v Hj Hx. apply lookup_app_Some in Hj.
           destruct Hj as [Hj | [_ Hj]]; [eauto |].
           destruct (j - List.length (dWorkers s))%nat; simpl in Hj;
             [injection Hj as <-; discriminate | discriminate].
        -- intros j x n v Hj Hx. apply lookup_app_Some in Hj.
           destruct Hj as [Hj | [_ Hj]]; [eauto |].
           destruct (j - List.length (dWorkers s))%nat; simpl in Hj;
             [injection Hj as <-; discriminate | discriminate].
    + destruct (dErrChan s) as [| [err |] q].
      * destruct (dClosed s); [| discriminate]. intros [= <-].
        constructor; simpl; assumption.
      * intros [= <-]. constructor; simpl; assumption.
      * intros [= <-]. constructor; simpl; assumption.
  - destruct HC as [Hnn Hsum Hskip Hdl]. unfold stepWaiter.
    destruct (dWaiter s); try discriminate.
    destruct (dWG s =? 0)%nat; [| discriminate].
    intros [= <-]. constructor; simpl; assumption.
  - unfold stepAcquire.
    destruct (dWorkers s !! i) as [w |] eqn:Hi; [simpl | discriminate].
    destruct (wPC w) eqn:Hpc; try discriminate.
    destruct (_ <? _)%nat; [| discriminate]. intros [= <-].
    same_step. unfold counted. rewrite Hpc. reflexivity.
  - unfold stepCtxDone.
    destruct (dWorkers s !! i) as [w |] eqn:Hi; [simpl | discriminate].
    destruct (wPC w) eqn:Hpc; try discriminate.
    destruct (dCancelled s); [| discriminate].
    destruct (send _ _ _) as [s1 |] eqn:Hsend; [simpl | discriminate].
    apply send_chan in Hsend. subst s1. intros [= <-].
    same_step. unfold counted. rewrite Hpc. reflexivity.
  - apply CountInv_stepWorker; assumption.
  - destruct HC as [Hnn Hsum Hskip Hdl]. intros [= <-].
    constructor; simpl; assumption.
Qed.

Lemma CountInv_reachable s :
  SkippedFiles stats0 = 0 -> DownloadedFiles stats0 = 0 ->
  reachable cfg io files stats0 fs0 s -> CountInv s.
Proof.
  intros Hs Hd. induction 1 as [| s l s' Hr IH Hstep]; [apply CountInv_init; assumption |].
  eapply CountInv_dstep; try eassumption.
  - eapply Inv_reachable. eassumption.
  - eapply PhaseInv_reachable. eassumption.
Qed.

End CounterFacts.

(** X13: with one slot ([MaxConcurrency = 1]) no update of the counters is
    lost: when [downloadFiles], entered with the counters at zero, returns
    [nil], the skipped and the downloaded files together are the files of
    the listing that are not folders. *)
Theorem counters_exact_with_one_slot `{Filepath} cfg io files stats0 fs0 s :
  MaxConcurrency cfg = 1%nat ->
  Z.of_nat (List.length files) < 2 ^ 62 ->
  SkippedFiles stats0 = 0 -> DownloadedFiles stats0 = 0 ->
  reachable cfg io files stats0 fs0 s ->
  dMain s = Returned None ->
  SkippedFiles (dStats s) + DownloadedFiles (dStats s)
  = Z.of_nat (List.length (nonFolders files)).
Proof.
  intros Hone Hfew Hs Hd Hr Hm.
  destruct (CountInv_reachable cfg io files stats0 fs0 Hone Hfew s Hs Hd Hr)
    as [_ Hsum _ _].
  pose proof (Inv_reachable cfg io files _ _ _ Hr) as HI.
  destruct (inv_nil _ _ _ HI Hm) as [_ Hdone].
  pose proof (inv_files _ _ _ HI) as Hfiles.
  rewrite Hm in Hfiles. simpl in Hfiles. rewrite app_nil_r in Hfiles.
  rewrite Hsum, <- Hfiles, length_map. f_equal.
  unfold countedWorkers. clear - Hdone.
  induction (dWorkers s) as [| w ws IH]; [reflexivity |].
  simpl. unfold counted at 1. rewrite (Hdone w) by (left; reflexivity).
  simpl. f_equal. apply IH. intros x Hx. apply Hdone. right. assumption.
Qed.

(** ** More on the orphan reconciler *)

Section WalkFacts.

Context `{Filepath}.
Variable cfg : Config.

Lemma orphan_mapGet dropboxFiles en :
  orphan cfg dropboxFiles en
  = negb (weIsDir en)
    && negb (mapGet (dropboxFileMap cfg dropboxFiles) (wePath en)).
Proof.
  unfold orphan. f_equal. f_equal. apply eq_true_iff_eq.
  rewrite dropboxFileMap_spec, existsb_exists. split.
  - intros (p & Hp & Heq). apply String.eqb_eq in Heq. subst p.
    apply in_map_iff in Hp. destruct Hp as (file & <- & Hfile). eauto.
  - intros (file & Hfile & ->). exists (localPath cfg file).
    split; [apply in_map; assumption | apply String.eqb_refl].
Qed.

(** The walk over two stretches of entries: the second one is walked from
    where the first one ends, unless the first one ends with an error. *)
Lemma walkLoop_app m pre post l :
  walkLoop m (pre ++ post) l
  = match walkLoop m pre l with
    | (None, l1) => walkLoop m post l1
    | (Some err, l1) => (Some err, l1)
    end.
Proof.
  revert l. induction pre as [| en pre IH]; intros l; [reflexivity |].
  cbn [walkLoop app]. destruct (weErr en); [reflexivity |].
  destruct (weIsDir en); [apply IH |].
  destruct (negb (mapGet m (wePath en))); [| apply IH].
  destruct (weRemove en); [reflexivity | apply IH].
Qed.

Lemma walkLoop_no_error m walk : forall l,
  (forall en, In en walk -> weErr en = None /\ weRemove en = None) ->
  0 <= DeletedFiles (lStats l) ->
  DeletedFiles (lStats l) + Z.of_nat (List.length walk) < 2 ^ 63 ->
  let removed :=
    map wePath
        (List.filter (fun en => negb (weIsDir en) && negb (mapGet m (wePath en)))
                     walk) in
  exists l',
    walkLoop m walk l = (None, l')
    /\ lRemoved l' = (lRemoved l ++ removed)%list
    /\ lFS l' = foldl (fun fs p => delete p fs) (lFS l) removed
    /\ lStats l'
       = setDeletedFiles (DeletedFiles (lStats l) + Z.of_nat (List.length removed))
                         (lStats l).
Proof.
  induction walk as [| en walk IH]; intros l Hok Hnn Hfit; cbn zeta.
  - exists l. simpl. rewrite app_nil_r, Z.add_0_r.
    repeat split; try reflexivity.
    destruct l as [fs [a b c d e f] rm]. reflexivity.
  - assert (Htail : forall e, In e walk -> weErr e = None /\ weRemove e = None)
      by (intros e He; apply Hok; right; assumption).
    destruct (Hok en (or_introl eq_refl)) as [Herr Hrm].
    cbn [walkLoop List.filter List.length]. rewrite Herr.
    cbn [List.length] in Hfit. rewrite Nat2Z.inj_succ in Hfit.
    destruct (weIsDir en); simpl.
    { apply IH; auto. lia. }
    destruct (mapGet m (wePath en)); simpl.
    { apply IH; auto. lia. }
    rewrite Hrm.
    assert (Hwrap : Int.wrap_int64 (DeletedFiles (lStats l) + 1)
                    = DeletedFiles (lStats l) + 1)
      by (apply wrap_int64_small; unfold Int.is_int64; lia).
    rewrite Hwrap.
    edestruct (IH (mkLocal (delete (wePath en) (lFS l))
                     (setDeletedFiles (DeletedFiles (lStats l) + 1) (lStats l))
                     (lRemoved l ++ [wePath en])%list))
      as (l' & Hwalk & Hremoved & Hfs & Hstats); auto.
    + simpl. lia.
    + simpl. lia.
    + exists l'. split; [exact Hwalk |]. simpl in *.
      split; [rewrite Hremoved, <- app_assoc; reflexivity |].
      split; [exact Hfs |]. rewrite Hstats. unfold setDeletedFiles. simpl.
      f_equal. lia.
Qed.

(** X14: when neither the walk nor a removal fails,
    [deleteOrphanedFiles] removes the orphans of the walk, all of them,
    in the order of the walk and nothing else; it counts them in
    [DeletedFiles] and leaves the other statistics as they are. Directories
    are never removed. *)
Theorem deleteOrphanedFiles_removes_the_orphans walk dropboxFiles l :
  (forall en, In en walk -> weErr en = None /\ weRemove en = None) ->
  0 <= DeletedFiles (lStats l) ->
  DeletedFiles (lStats l) + Z.of_nat (List.length walk) < 2 ^ 63 ->
  exists l',
    deleteOrphanedFiles cfg walk dropboxFiles l = (None, l')
    /\ lRemoved l' = (lRemoved l ++ orphans cfg dropboxFiles walk)%list
    /\ lFS l' = foldl (fun fs p => delete p fs) (lFS l)
                      (orphans cfg dropboxFiles walk)
    /\ lStats l'
       = setDeletedFiles
           (DeletedFiles (lStats l)
            + Z.of_nat (List.length (orphans cfg dropboxFiles walk)))
           (lStats l).
Proof.
  intros Hok Hnn Hfit. unfold deleteOrphanedFiles, orphans.
  rewrite (List.filter_ext _ _ (orphan_mapGet dropboxFiles)).
  apply walkLoop_no_error; assumption.
Qed.

(** X15: the walk stops at the first error. An entry the walk cannot read
    ends it with that error, and an orphan that cannot be removed ends it
    with the error of the removal and the path; what was removed before
    stays removed and counted, and the entries after it are not looked
    at. *)
Theorem deleteOrphanedFiles_stops_at_error pre en post dropboxFiles l :
  fst (deleteOrphanedFiles cfg pre dropboxFiles l) = None ->
  (forall err, weErr en = Some err ->
     deleteOrphanedFiles cfg (pre ++ en :: post) dropboxFiles l
     = (Some err, snd (deleteOrphanedFiles cfg pre dropboxFiles l)))
  /\ (forall err, weErr en = None -> orphan cfg dropboxFiles en = true ->
        weRemove en = Some err ->
        deleteOrphanedFiles cfg (pre ++ en :: post) dropboxFiles l
        = (Some (Wrapped ("failed to delete file " ++ wePath en) err),
           snd (deleteOrphanedFiles cfg pre dropboxFiles l))).
Proof.
  unfold deleteOrphanedFiles. intros Hpre.
  destruct (walkLoop (dropboxFileMap cfg dropboxFiles) pre l) as [e l1] eqn:Hw.
  simpl in Hpre. subst e. split.
  - intros err Herr. rewrite walkLoop_app, Hw. cbn [walkLoop]. rewrite Herr.
    reflexivity.
  - intros err Herr Horphan Hrm. rewrite walkLoop_app, Hw. cbn [walkLoop].
    rewrite Herr. rewrite orphan_mapGet in Horphan.
    apply andb_true_iff in Horphan. destruct Horphan as [Hdir Hget].
    apply negb_true_iff in Hdir. rewrite Hdir, Hget, Hrm. reflexivity.
Qed.

End WalkFacts.

(** ** More on [Run] *)

Lemma countEntries_counts dropboxFiles : forall fileCount folderCount,
  0 <= fileCount -> 0 <= folderCount ->
  fileCount + folderCount + Z.of_nat (List.length dropboxFiles) < 2 ^ 63 ->
  countEntries dropboxFiles fileCount folderCount
  = (fileCount + Z.of_nat (List.length (nonFolders dropboxFiles)),
     folderCount + Z.of_nat (List.length (folders dropboxFiles))).
Proof.
  unfold nonFolders, folders.
  induction dropboxFiles as [| file rest IH]; intros a b Ha Hb Hfit.
  - simpl. rewrite !Z.add_0_r. reflexivity.
  - cbn [countEntries List.filter List.length] in *.
    rewrite Nat2Z.inj_succ in Hfit.
    destruct (IsFolder file); simpl negb; cbn iota.
    + rewrite wrap_int64_small by (unfold Int.is_int64; lia).
      rewrite IH by lia. cbn [List.length]. rewrite Nat2Z.inj_succ.
      f_equal. lia.
    + rewrite wrap_int64_small by (unfold Int.is_int64; lia).
      rewrite IH by lia. cbn [List.length]. rewrite Nat2Z.inj_succ.
      f_equal. lia.
Qed.

Lemma walkLoop_totals m walk : forall l err l',
  walkLoop m walk l = (err, l') ->
  TotalFiles (lStats l') = TotalFiles (lStats l)
  /\ TotalFolders (lStats l') = TotalFolders (lStats l)
  /\ (forall p, is_Some (lFS l' !! p) -> is_Some (lFS l !! p)).
Proof.
  induction walk as [| en walk IH]; intros l err l'; simpl.
  - intros [= <- <-]. auto.
  - destruct (weErr en); [intros [= <- <-]; auto |].
    destruct (weIsDir en); [apply IH |].
    destruct (negb (mapGet m (wePath en))); [| apply IH].
    destruct (weRemove en); [intros [= <- <-]; auto |].
    intros Hw. destruct (IH _ _ _ Hw) as (Hf & Hd & Hfs). simpl in *.
    repeat split; try assumption.
    intros p Hp. specialize (Hfs p Hp).
    destruct (decide (wePath en = p)) as [Heq | Hne].
    + rewrite Heq, lookup_delete_eq in Hfs. destruct Hfs as [? Hfs].
      discriminate.
    + rewrite lookup_delete_ne in Hfs by assumption. assumption.
Qed.

Section MoreRunFacts.

Context `{Filepath} {C : Type} `{DropboxClient C}.
Variable cfg : Config.
Variable io : FileInfo -> IO.
Variable sched : list Label.
Variable walk : list WalkEntry.

Local Abbreviation run := (Run cfg io sched walk).
Local Abbreviation continue := (runListed cfg io sched walk).

(** [Run] either returns before the download phase, with the local files
    as they were and new statistics, or goes on with a listing. *)
Lemma Run_local_cases (w : World C) r w' :
  run w = (r, w') ->
  (wLocal w' = wLocal (freshStats w) /\ wCreated w' = wCreated w)
  \/ exists dropboxFiles w1,
       wLocal w1 = wLocal (freshStats w) /\ wCreated w1 = wCreated w
       /\ continue dropboxFiles w1 = (r, w').
Proof.
  unfold Run, bind, newStats, isTokenValid, refreshToken, listAll. simpl.
  destruct (IsTokenValid (wClient w)); simpl.
  - destruct (ListAll (wClient w)) as [[err | listed] c1]; simpl.
    + destruct (RefreshToken c1) as [[refreshErr |] c2]; simpl.
      * intros [= <- <-]. left. split; reflexivity.
      * destruct (ListAll c2) as [[err2 | listed] c3]; simpl.
        -- intros [= <- <-]. left. split; reflexivity.
        -- intros Hrun. right. eexists _, _. split; [| split; [| exact Hrun]];
             reflexivity.
    + intros Hrun. right. eexists _, _. split; [| split; [| exact Hrun]];
        reflexivity.
  - destruct (RefreshToken (wClient w)) as [[err0 |] c0]; simpl.
    { intros [= <- <-]. left. split; reflexivity. }
    destruct (ListAll c0) as [[err | listed] c1]; simpl.
    + destruct (RefreshToken c1) as [[refreshErr |] c2]; simpl.
      * intros [= <- <-]. left. split; reflexivity.
      * destruct (ListAll c2) as [[err2 | listed] c3]; simpl.
        -- intros [= <- <-]. left. split; reflexivity.
        -- intros Hrun. right. eexists _, _. split; [| split; [| exact Hrun]];
             reflexivity.
    + intros Hrun. right. eexists _, _. split; [| split; [| exact Hrun]];
        reflexivity.
Qed.

(** X16: the totals [Run] reports count the whole listing, the files that
    the exclusion rules remove from the download included, and neither the
    download phase nor the orphan reconciler changes them. *)
Theorem runListed_totals dropboxFiles (w : World C) r w' :
  Z.of_nat (List.length dropboxFiles) < 2 ^ 63 ->
  continue dropboxFiles w = (r, w') ->
  TotalFiles (lStats (wLocal w')) = Z.of_nat (List.length (nonFolders dropboxFiles))
  /\ TotalFolders (lStats (wLocal w')) = Z.of_nat (List.length (folders dropboxFiles)).
Proof.
  intros Hfit. unfold runListed.
  rewrite (countEntries_counts dropboxFiles 0 0) by lia. rewrite !Z.add_0_l.
  set (filtered := filterFiles cfg dropboxFiles).
  unfold bind, setStatsTotals, downloadFiles. simpl.
  destruct (dexec cfg io filtered sched _) as [s |] eqn:Hexec;
    [| intros [= <- <-]; simpl; auto].
  assert (Hreach : reachable cfg io filtered _ _ s)
    by (eapply dexec_reachable; [apply reach_init | exact Hexec]).
  destruct (PhaseInv_reachable cfg io filtered _ _ s Hreach)
    as [_ _ _ _ _ _ _ (Hf & Hd & _)].
  simpl in Hf, Hd.
  destruct (dMain s) as [rest | | [err |]];
    try (intros [= <- <-]; simpl; auto; fail).
  simpl. unfold deleteOrphans. destruct (Delete cfg); simpl.
  - destruct (deleteOrphanedFiles cfg walk filtered _) as [err l] eqn:Hdel.
    destruct (walkLoop_totals _ _ _ _ _ Hdel) as (Hf' & Hd' & _).
    simpl in Hf', Hd'.
    destruct err; simpl; intros [= <- <-]; simpl; split; congruence.
  - intros [= <- <-]. simpl. auto.
Qed.

(** X17: without [Delete] a run removes nothing: the paths removed stay as
    they were, every local file that was there is still there, and the
    count of deleted files is zero. *)
Theorem Run_without_delete (w : World C) r w' :
  Delete cfg = false ->
  run w = (r, w') ->
  lRemoved (wLocal w') = lRemoved (wLocal w)
  /\ (forall p, is_Some (lFS (wLocal w) !! p) -> is_Some (lFS (wLocal w') !! p))
  /\ DeletedFiles (lStats (wLocal w')) = 0.
Proof.
  intros Hdel Hrun.
  destruct (Run_local_cases _ _ _ Hrun)
    as [[Hl _] | (listed & w1 & Hl & _ & Hrest)].
  - rewrite Hl. simpl. auto.
  - revert Hrest. destruct w1 as [c1 calls1 l1 created1].
    simpl in Hl. subst l1. unfold runListed.
    destruct (countEntries listed 0 0) as [fileCount folderCount].
    set (filtered := filterFiles cfg listed).
    unfold bind, setStatsTotals, downloadFiles. simpl. rewrite Hdel.
    destruct (dexec cfg io filtered sched _) as [s |] eqn:Hexec;
      [| intros [= <- <-]; simpl; auto].
    assert (Hreach : reachable cfg io filtered _ _ s)
      by (eapply dexec_reachable; [apply reach_init | exact Hexec]).
    destruct (PhaseInv_reachable cfg io filtered _ _ s Hreach)
      as [_ _ _ _ _ _ Hfs (_ & _ & Hd)].
    simpl in Hd.
    destruct (dMain s) as [rest | | [err |]]; simpl;
      intros [= <- <-]; simpl; auto.
Qed.

(** X18: with a token that is not valid and cannot be refreshed [Run]
    fails at once: it calls [IsTokenValid] and [RefreshToken], lists
    nothing, and leaves the local files and the created paths alone. *)
Theorem Run_refresh_fails (w : World C) err c :
  IsTokenValid (wClient w) = false ->
  RefreshToken (wClient w) = (Some err, c) ->
  run w = (Fail (Wrapped "failed to refresh token" err),
           logCall CallRefreshToken c
             (logCall CallIsTokenValid (wClient w) (freshStats w))).
Proof.
  intros Hvalid Hrefresh.
  unfold Run, bind, newStats, isTokenValid, refreshToken. simpl.
  rewrite Hvalid. simpl. rewrite Hrefresh. reflexivity.
Qed.

(** X19: when the first listing succeeds [Run] goes on with it, and it
    neither refreshes the token nor lists again: of the calls to
    [IsTokenValid], [RefreshToken] and [ListAll], that listing is the last
    one of the run. (The downloads of the workers are calls to
    [Client.Download], which this log does not hold.) *)
Theorem Run_first_listing (w w1 : World C) listed c2 :
  afterTokenCheck w = Some w1 ->
  ListAll (wClient w1) = (inr listed, c2) ->
  run w = continue listed (logCall CallListAll c2 w1)
  /\ wCalls (snd (run w)) = (wCalls w1 ++ [CallListAll])%list
  /\ wClient (snd (run w)) = c2.
Proof.
  intros Hcheck Hlist.
  assert (Hrun : run w = continue listed (logCall CallListAll c2 w1)).
  { unfold afterTokenCheck in Hcheck.
    unfold Run, bind, newStats, isTokenValid, refreshToken, listAll. simpl.
    destruct (IsTokenValid (wClient w)); simpl.
    - injection Hcheck as <-. simpl in Hlist. rewrite Hlist. reflexivity.
    - destruct (RefreshToken (wClient w)) as [[err0 |] c0]; [discriminate |].
      injection Hcheck as <-. simpl in Hlist. simpl. rewrite Hlist.
      reflexivity. }
  split; [exact Hrun |]. rewrite Hrun.
  destruct (continue listed _) as [r w'] eqn:Hrest.
  destruct (runListed_local _ _ _ _ _ _ _ _ Hrest) as (Hclient & Hcalls & _).
  simpl. rewrite Hclient, Hcalls. split; reflexivity.
Qed.

End MoreRunFacts.

(** ** More on [formatBytes] *)

(** X20: below 1024 the bytes are printed as they are; from 1024 on the
    unit is chosen so that the exact quotient of the bytes by the divisor
    is at least 1 and less than 1024: [div <= bytes < 1024 * div], with
    [div] the power of 1024 of the unit. This bounds the quotient before
    [%.1f] rounds it to one decimal; the rounding is left to
    [fmt.Sprintf], and it can print [1024.0] (for 1048575 bytes the unit is
    K and the quotient is just below 1024). *)
Theorem formatBytes_unit (bytes : Z) :
  Int.is_uint64 bytes ->
  (bytes < 1024 -> formatBytes bytes = Some (PlainBytes bytes))
  /\ (1024 <= bytes ->
      exists exp c,
        formatBytes bytes = Some (ScaledBytes bytes (1024 ^ (exp + 1)) c)
        /\ 0 <= exp <= 5
        /\ byteAt "KMGTPE" exp = Some c
        /\ 1024 ^ (exp + 1) <= bytes < 1024 * 1024 ^ (exp + 1)).
Proof.
  unfold Int.is_uint64, Int.uint64_max. intros Hb. split.
  - intros Hlt. unfold formatBytes.
    destruct (Z.ltb_spec bytes 1024); [reflexivity | lia].
  - intros Hge.
    destruct (formatLoop_rounds 5 (bytes / 1024) 1024 0)
      as (j & Hj & Heq & Hup & Hlow).
    + split; [apply Z.div_pos; lia |].
      apply Z.div_lt_upper_bound; [lia |]. simpl. lia.
    + lia.
    + simpl. lia.
    + simpl in Hj. destruct (byteAt_units j) as [c Hc]; [lia |].
      exists j, c.
      assert (Hpow : 1024 ^ (j + 1) = 1024 * 1024 ^ j)
        by (rewrite Z.pow_add_r by lia; lia).
      assert (Hpos : 0 < 1024 ^ j) by (apply Z.pow_pos_nonneg; lia).
      split.
      { unfold formatBytes. destruct (Z.ltb_spec bytes 1024); [lia |].
        rewrite Heq, Z.add_0_l, Hc, Hpow. reflexivity. }
      split; [lia |]. split; [assumption |].
      pose proof (Z.div_mod bytes 1024 ltac:(lia)).
      pose proof (Z.mod_pos_bound bytes 1024 ltac:(lia)).
      assert (1 <= bytes / 1024) by (apply Z.div_le_lower_bound; lia).
      rewrite Hpow. destruct Hlow as [-> | Hlow].
      * simpl in *. lia.
      * nia.
Qed.

(** At 1048575 bytes the unit is still K: the quotient, 1023.999..., is
    below 1024 and [%.1f] rounds it. *)
Example formatBytes_below_mega :
  formatBytes 1048575 = Some (ScaledBytes 1048575 1024 "K")
  /\ formatBytes 1048576 = Some (ScaledBytes 1048576 (1024 * 1024) "M").
Proof. split; vm_compute; reflexivity. Qed.

(** ** The token *)

Lemma Add_nanos t d :
  Dropbox.normal t ->
  Dropbox.normal (Dropbox.Add t d)
  /\ Dropbox.nanos (Dropbox.Add t d) = Dropbox.nanos t + d.
Proof.
  unfold Dropbox.normal, Dropbox.nanos, Dropbox.Add. intros Ht.
  pose proof (Z.quot_rem' d 1000000000) as Hd.
  assert (Hr : -1000000000 < Z.rem d 1000000000 < 1000000000).
  { pose proof (Z.rem_bound_abs d 1000000000 ltac:(lia)). lia. }
  destruct (Z.geb_spec (Time.nsec t + Z.rem d 1000000000) 1000000000);
    [simpl; lia |].
  destruct (Z.ltb_spec (Time.nsec t + Z.rem d 1000000000) 0); simpl; lia.
Qed.

Lemma After_nanos x u :
  Dropbox.normal x -> Dropbox.normal u ->
  Time.After x u = true <-> Dropbox.nanos u < Dropbox.nanos x.
Proof.
  unfold Dropbox.normal, Dropbox.nanos, Time.After. intros Hx Hu.
  rewrite orb_true_iff, andb_true_iff, !Z.gtb_ltb, !Z.ltb_lt, Z.eqb_eq. nia.
Qed.

Lemma IsZero_zero t : Time.IsZero t = true <-> t = Time.zero.
Proof.
  unfold Time.IsZero, Time.zero. rewrite andb_true_iff, !Z.eqb_eq.
  destruct t as [s n]; simpl. split; [intros [-> ->]; reflexivity |].
  intros Heq; inversion Heq; auto.
Qed.

(** X21: [IsTokenValid] answers yes exactly for a token whose access
    token is not empty and that either has no expiry or does not expire
    within the next five minutes; a token that expires in exactly five
    minutes still counts as valid. *)
Theorem IsTokenValid_five_minutes (tok : Dropbox.Token) (now : Time.t) :
  Dropbox.normal now -> Dropbox.normal (Dropbox.Expiry tok) ->
  Dropbox.IsTokenValid (Some tok) now = true
  <-> Dropbox.AccessToken tok <> ""
      /\ (Dropbox.Expiry tok = Time.zero
          \/ Dropbox.nanos now + 5 * Dropbox.Minute
             <= Dropbox.nanos (Dropbox.Expiry tok)).
Proof.
  intros Hnow Hexp. unfold Dropbox.IsTokenValid.
  destruct (Add_nanos now (5 * Dropbox.Minute) Hnow) as [Hn Hv].
  pose proof (After_nanos _ _ Hn Hexp) as Hafter. rewrite Hv in Hafter.
  pose proof (IsZero_zero (Dropbox.Expiry tok)) as Hzero.
  destruct (Time.IsZero (Dropbox.Expiry tok)); simpl.
  - rewrite negb_true_iff, String.eqb_neq. intuition.
  - destruct (Time.After _ _).
    + split; [discriminate |]. intros [_ [Hz | Hle]].
      * destruct Hzero as [_ Hzero]. specialize (Hzero Hz). discriminate.
      * destruct Hafter as [Hafter _]. specialize (Hafter eq_refl). lia.
    + rewrite negb_true_iff, String.eqb_neq. split.
      * intros Hne. split; [assumption |]. right.
        destruct (Z_le_gt_dec (Dropbox.nanos now + 5 * Dropbox.Minute)
                              (Dropbox.nanos (Dropbox.Expiry tok)))
          as [Hle | Hgt]; [assumption |].
        destruct Hafter as [_ Hafter]. specialize (Hafter ltac:(lia)).
        discriminate.
      * intros [Hne _]. assumption.
Qed.

(** ** The configuration *)

Lemma validLevels_spec (level : string) :
  mapGet config.validLevels level = true
  <-> In level ["debug"; "info"; "warn"; "error"].
Proof.
  unfold config.validLevels. rewrite !mapGet_insert. unfold mapGet.
  rewrite lookup_empty. simpl. intuition (try discriminate; auto).
Qed.

(** X22: [validate] accepts a configuration exactly when the client id,
    the client secret and the backup directory are not empty and the log
    level is one of debug, info, warn and error (in lower case). *)
Theorem validate_accepts (c : config.Config) :
  config.validate c = None
  <-> config.ClientID c <> "" /\ config.ClientSecret c <> ""
      /\ config.BackupDir c <> ""
      /\ In (config.LogLevel c) ["debug"; "info"; "warn"; "error"].
Proof.
  unfold config.validate. rewrite <- validLevels_spec.
  destruct (String.eqb_spec (config.ClientID c) "");
    [split; [discriminate | tauto] |].
  destruct (String.eqb_spec (config.ClientSecret c) "");
    [split; [discriminate | tauto] |].
  destruct (String.eqb_spec (config.BackupDir c) "");
    [split; [discriminate | tauto] |].
  destruct (mapGet config.validLevels (config.LogLevel c)); simpl.
  - tauto.
  - split; [discriminate |]. intros (_ & _ & _ & Hd). discriminate.
Qed.

Lemma setBackupDir_fields env dir c e c' dirs :
  config.setBackupDir env dir c = (e, c', dirs) ->
  config.ClientID c' = config.ClientID c
  /\ config.ClientSecret c' = config.ClientSecret c
  /\ config.AccessToken c' = config.AccessToken c
  /\ config.RefreshToken c' = config.RefreshToken c
  /\ config.Delete c' = config.Delete c
  /\ config.Exclude c' = config.Exclude c
  /\ config.LogLevel c' = config.LogLevel c
  /\ config.ShowCount c' = config.ShowCount c
  /\ config.ShowSize c' = config.ShowSize c
  /\ config.MaxConcurrency c' = config.MaxConcurrency c
  /\ config.RetryAttempts c' = config.RetryAttempts c
  /\ config.RetryDelay c' = config.RetryDelay c.
Proof.
  unfold config.setBackupDir. intros Hset.
  repeat match type of Hset with
         | context [if ?b then _ else _] => destruct b
         | context [match ?x with _ => _ end] => destruct x
         end;
    inversion Hset; subst; simpl; repeat split; reflexivity.
Qed.

Lemma setBackupDir_ok env dir c c' dirs :
  config.setBackupDir env dir c = (None, c', dirs) ->
  dirs = [config.BackupDir c']
  /\ config.mkdirAll env (config.BackupDir c') = None
  /\ exists chosen, config.Abs env chosen = inr (config.BackupDir c').
Proof.
  unfold config.setBackupDir. intros Hset.
  match type of Hset with
  | context [config.Abs env ?d] =>
      destruct (config.Abs env d) as [err | absPath] eqn:Habs;
      [discriminate |]
  end.
  destruct (config.mkdirAll env absPath) eqn:Hmk; [discriminate |].
  inversion Hset; subst; simpl.
  split; [reflexivity | split; [assumption | eexists; eassumption]].
Qed.

(** X23: A configuration that [Load] returns has its credentials from
    the environment, both client id and client secret not empty, a valid
    log level (error unless the flag gives one), the deletion switch and
    the exclusion rules of the command line alone, and always five
    concurrent downloads, three attempts and two seconds of delay; its
    backup directory is the one path [Load] has given to [os.MkdirAll],
    and that call has succeeded. *)
Theorem Load_ok (env : config.Env) (opts : config.Options)
  (c : config.Config) (dirs : list string) :
  config.Load env opts = (inr c, dirs) ->
  (config.ClientID c = config.getenv env "DROPBOX_CLIENT_ID"
   /\ config.ClientSecret c = config.getenv env "DROPBOX_CLIENT_SECRET"
   /\ config.AccessToken c = config.getenv env "DROPBOX_ACCESS_TOKEN"
   /\ config.RefreshToken c = config.getenv env "DROPBOX_REFRESH_TOKEN")
  /\ (config.ClientID c <> "" /\ config.ClientSecret c <> "")
  /\ (In (config.LogLevel c) ["debug"; "info"; "warn"; "error"]
      /\ (config.oLogLevel opts = "" -> config.LogLevel c = "error")
      /\ (config.oLogLevel opts <> "" ->
          config.LogLevel c = config.oLogLevel opts))
  /\ (config.Delete c = config.oDelete opts
      /\ config.Exclude c = config.oExclude opts
      /\ config.ShowCount c = config.oShowCount opts
      /\ config.ShowSize c = config.oShowSize opts)
  /\ (config.MaxConcurrency c = 5 /\ config.RetryAttempts c = 3
      /\ config.RetryDelay c = 2000000000)
  /\ (dirs = [config.BackupDir c]
      /\ config.mkdirAll env (config.BackupDir c) = None).
Proof.
  unfold config.Load. intros Hload.
  destruct (config.setBackupDir env _ _) as [[[err |] c1] dirs1] eqn:Hset;
    [discriminate |].
  destruct (config.validate c1) as [err |] eqn:Hval; [discriminate |].
  inversion Hload; subst c1 dirs1; clear Hload.
  apply validate_accepts in Hval. destruct Hval as (Hid & Hsecret & _ & Hlevel).
  destruct (setBackupDir_ok _ _ _ _ _ Hset) as (Hdirs & Hmk & _).
  apply setBackupDir_fields in Hset.
  destruct Hset as (E1 & E2 & E3 & E4 & E5 & E6 & E7 & E8 & E9 & E10 & E11 & E12).
  simpl in *.
  repeat split; try assumption.
  - intros Hempty. rewrite E7, Hempty. reflexivity.
  - intros Hflag. rewrite E7.
    destruct (String.eqb_spec (config.oLogLevel opts) ""); [contradiction |].
    reflexivity.
  - rewrite E5. destruct (config.oDelete opts); reflexivity.
  - rewrite E6. destruct (config.oExclude opts); reflexivity.
Qed.

Lemma Clean_rooted path :
  Strings.HasPrefix path "/" = true ->
  Strings.HasPrefix (GoPath.Clean path) "/" = true.
Proof.
  unfold Strings.HasPrefix. rewrite !prefix_app. intros [post ->].
  rewrite append_cons, append_nil. unfold GoPath.Clean.
  change (GoPath.isSlash "/") with true. cbv iota zeta. eauto.
Qed.

Lemma Abs_rooted env path absPath :
  (forall wd, config.getwd env = inr wd -> Strings.HasPrefix wd "/" = true) ->
  config.Abs env path = inr absPath ->
  Strings.HasPrefix absPath "/" = true.
Proof.
  unfold config.Abs. intros Hwd Habs.
  destruct (Strings.HasPrefix path "/") eqn:Hp.
  - inversion Habs; subst. apply Clean_rooted. assumption.
  - destruct (config.getwd env) as [err | wd]; [discriminate |].
    inversion Habs; subst. specialize (Hwd wd eq_refl).
    unfold Strings.HasPrefix in Hwd. apply prefix_app in Hwd.
    destruct Hwd as [post ->]. rewrite append_cons, append_nil.
    unfold GoPath.Join. change (GoPath.nonEmpty (String "/" post)) with true.
    cbv iota. apply Clean_rooted. rewrite append_cons. unfold Strings.HasPrefix.
    apply prefix_app. exists (post ++ "/" ++ path).
    rewrite append_cons, append_nil. reflexivity.
Qed.

(** X24: The backup directory of a configuration that [Load] returns is
    an absolute path, whatever the flag, the variable or the default
    gives, as long as the working directory is one. *)
Theorem Load_BackupDir_absolute (env : config.Env) (opts : config.Options)
  (c : config.Config) (dirs : list string) :
  (forall wd, config.getwd env = inr wd -> Strings.HasPrefix wd "/" = true) ->
  config.Load env opts = (inr c, dirs) ->
  Strings.HasPrefix (config.BackupDir c) "/" = true.
Proof.
  unfold config.Load. intros Hwd Hload.
  destruct (config.setBackupDir env _ _) as [[[err |] c1] dirs1] eqn:Hset;
    [discriminate |].
  destruct (config.validate c1); [discriminate |].
  inversion Hload; subst c1 dirs1.
  destruct (setBackupDir_ok _ _ _ _ _ Hset) as (_ & _ & chosen & Habs).
  eapply Abs_rooted; eassumption.
Qed.

(** X25: The flag of the backup directory has priority over the variable
    [DROPBOX_BACKUP_FOLDER], and both over the default with the time of
    day: in two environments that differ in that variable and in the time
    only, [Load] does the same when the flag is given, and also when the
    variable is set to the same directory in both. *)
Theorem Load_backup_dir_priority (env env' : config.Env)
  (opts : config.Options) :
  (forall k, k <> "DROPBOX_BACKUP_FOLDER" ->
             config.getenv env k = config.getenv env' k) ->
  config.getwd env = config.getwd env' ->
  (forall p, config.mkdirAll env p = config.mkdirAll env' p) ->
  config.oBackupDir opts <> ""
  \/ (config.getenv env "DROPBOX_BACKUP_FOLDER" <> ""
      /\ config.getenv env' "DROPBOX_BACKUP_FOLDER"
         = config.getenv env "DROPBOX_BACKUP_FOLDER") ->
  config.Load env opts = config.Load env' opts.
Proof.
  intros Henv Hwd Hmk Hprio. unfold config.Load.
  assert (Hfrom : config.loadFromEnv env config.defaults
                  = config.loadFromEnv env' config.defaults).
  { unfold config.loadFromEnv. rewrite !(Henv _) by discriminate. reflexivity. }
  rewrite Hfrom.
  assert (Habs : forall d, config.Abs env d = config.Abs env' d).
  { intros d. unfold config.Abs. rewrite Hwd. reflexivity. }
  assert (Hset : forall c, config.setBackupDir env (config.oBackupDir opts) c
                           = config.setBackupDir env' (config.oBackupDir opts) c).
  { intros c. unfold config.setBackupDir.
    destruct (String.eqb_spec (config.oBackupDir opts) "") as [Hempty | Hflag];
      simpl.
    - destruct Hprio as [Hflag | [Hset Hsame]]; [contradiction |].
      rewrite Hsame.
      destruct (String.eqb_spec (config.getenv env "DROPBOX_BACKUP_FOLDER") "");
        [contradiction |].
      simpl. rewrite Habs.
      destruct (config.Abs env' _); [reflexivity |]. rewrite Hmk. reflexivity.
    - rewrite Habs.
      destruct (config.Abs env' _); [reflexivity |]. rewrite Hmk. reflexivity. }
  rewrite Hset. reflexivity.
Qed.

(** X26: [Load] calls [os.MkdirAll] on the backup directory before it
    validates the configuration. A failure of [Load] is one of three: the
    validation fails (a missing client id, a bad log level) after
    [os.MkdirAll] has been called on the backup directory and has
    succeeded, so that the directory is there although [Load] fails;
    [os.MkdirAll] has been called and has failed; or [filepath.Abs] has
    failed and [os.MkdirAll] has not been called. *)
Theorem Load_mkdir_before_validation (env : config.Env)
  (opts : config.Options) (err : error) (dirs : list string) :
  config.Load env opts = (inl err, dirs) ->
  (exists cause dir,
      err = Wrapped "configuration validation failed" cause
      /\ dirs = [dir] /\ config.mkdirAll env dir = None)
  \/ (exists cause dir,
        err = Wrapped "failed to set backup directory"
                (Wrapped "failed to create backup directory" cause)
        /\ dirs = [dir] /\ config.mkdirAll env dir = Some cause)
  \/ (exists cause,
        err = Wrapped "failed to set backup directory"
                (Wrapped "failed to get absolute path for backup directory"
                         cause)
        /\ dirs = []).
Proof.
  unfold config.Load. intros Hload.
  destruct (config.setBackupDir env _ _) as [[[e |] c1] dirs1] eqn:Hset.
  - inversion Hload; subst err dirs1; clear Hload. right.
    unfold config.setBackupDir in Hset.
    match type of Hset with
    | context [config.Abs env ?d] =>
        destruct (config.Abs env d) as [cause | absPath]
    end.
    + right. inversion Hset; subst. eauto.
    + left. destruct (config.mkdirAll env absPath) as [cause |] eqn:Hmk;
        inversion Hset; subst. eauto.
  - destruct (config.validate c1) as [e |] eqn:Hval; [| discriminate].
    inversion Hload; subst err dirs1; clear Hload. left.
    destruct (setBackupDir_ok _ _ _ _ _ Hset) as (-> & Hmk & _). eauto.
Qed.

(** ** The OAuth2 callback *)

Section CallbackFacts.

Variables (iaState iaCodeVerifier : string).
Variable exchange : string -> error + Dropbox.Token.
Variable query : string -> string.

(** X27: Whatever the request, a call of [handleCallback] that returns
    gives a code to the token exchange only when the request carries no
    error, its state is the state of the flow and its code is not empty,
    and then that code only; it sends either a token with status 200 (the
    token of the exchange) or an error with status 400 or 500, never both
    and never neither. *)
Theorem handleCallback_guards (h : OAuth.Handled) :
  OAuth.handleCallback iaState iaCodeVerifier exchange query = Some h ->
  (OAuth.exchanged h = []
   \/ (OAuth.exchanged h = [query "code"] /\ query "error" = ""
       /\ query "state" = iaState /\ query "code" <> ""))
  /\ ((exists token, OAuth.sent h = OAuth.mkAuthResult (Some token) None
                     /\ OAuth.status h = 200
                     /\ exchange (query "code") = inr token
                     /\ OAuth.exchanged h = [query "code"])
      \/ (exists err, OAuth.sent h = OAuth.mkAuthResult None (Some err)
                      /\ (OAuth.status h = 400 /\ OAuth.exchanged h = []
                          \/ OAuth.status h = 500))).
Proof.
  unfold OAuth.handleCallback, OAuth.failed, OAuth.ExchangeCode. intros Hh.
  destruct (String.eqb_spec (query "error") "") as [Herr | Herr]; simpl in Hh;
    [| inversion Hh; subst; simpl; split; [left | right]; eauto].
  destruct (String.eqb_spec (query "state") iaState) as [Hst | Hst];
    simpl in Hh;
    [| inversion Hh; subst; simpl; split; [left | right]; eauto].
  destruct (String.eqb_spec (query "code") "") as [Hcode | Hcode];
    [inversion Hh; subst; simpl; split; [left | right]; eauto |].
  destruct (String.length (query "code") <? 10)%nat; [discriminate |].
  destruct (exchange (query "code")) as [err | token] eqn:Hex;
    inversion Hh; subst; simpl; split; eauto 10.
Qed.

(** X28: A callback with the right state, no error and a code of one to
    nine bytes makes [handleCallback] panic at [code[:10]]: nothing is
    sent on the result channel and the code is not exchanged. *)
Theorem handleCallback_short_code :
  query "error" = "" -> query "state" = iaState ->
  (0 < String.length (query "code") < 10)%nat ->
  OAuth.handleCallback iaState iaCodeVerifier exchange query = None.
Proof.
  intros Herr Hst [Hpos Hlt]. unfold OAuth.handleCallback.
  rewrite Herr, Hst, !String.eqb_refl. simpl.
  destruct (String.eqb_spec (query "code") "") as [Hcode | Hcode].
  - rewrite Hcode in Hpos. simpl in Hpos. lia.
  - apply Nat.ltb_lt in Hlt. rewrite Hlt. reflexivity.
Qed.

(** X29: The two handlers of the callback agree: on a URL that parses
    to the request, whenever [handleCallback] returns, [HandleOAuthCallback]
    with the same state gives the same codes to the exchange, and it
    returns a token exactly when [handleCallback] sends one, the same. *)
Theorem callback_handlers_agree
  (parse : string -> error + (string -> string))
  (callbackURL codeVerifier : string) (h : OAuth.Handled) :
  parse callbackURL = inr query ->
  OAuth.handleCallback iaState iaCodeVerifier exchange query = Some h ->
  snd (OAuth.HandleOAuthCallback exchange parse callbackURL iaState codeVerifier)
  = OAuth.exchanged h
  /\ forall token,
       fst (OAuth.HandleOAuthCallback exchange parse callbackURL iaState
                                      codeVerifier) = inr token
       <-> OAuth.Token (OAuth.sent h) = Some token.
Proof.
  unfold OAuth.HandleOAuthCallback, OAuth.handleCallback, OAuth.failed,
    OAuth.ExchangeCode.
  intros -> Hh.
  destruct (String.eqb_spec (query "state") iaState) as [Hst | Hst];
    destruct (String.eqb_spec (query "error") "") as [Herr | Herr];
    simpl in *;
    try (inversion Hh; subst; simpl; split; [reflexivity |];
         intros token; split; discriminate).
  destruct (String.eqb_spec (query "code") "") as [Hcode | Hcode];
    [inversion Hh; subst; simpl; split; [reflexivity |];
     intros token; split; discriminate |].
  destruct (String.length (query "code") <? 10)%nat; [discriminate |].
  destruct (exchange (query "code")) as [err | tok];
    inversion Hh; subst; simpl; split; try reflexivity;
    intros token; split; try discriminate; intros Heq; inversion Heq;
    reflexivity.
Qed.

End CallbackFacts.

(** ** The download phase does not deadlock *)

Section ProgressFacts.

Context `{Filepath}.
Variable cfg : Config.
Variable io : FileInfo -> IO.
Variable files : list FileInfo.
Variables (stats0 : Stats) (fs0 : FS).

Lemma filter_pos (f : Worker -> bool) (ws : list Worker) :
  (1 <= List.length (List.filter f ws))%nat ->
  exists i w, ws !! i = Some w /\ f w = true.
Proof.
  induction ws as [| x ws IH]; simpl; [lia |].
  destruct (f x) eqn:Hx.
  - intros _. exists 0%nat, x. auto.
  - intros Hpos. destruct (IH Hpos) as (i & w & Hi & Hw).
    exists (S i), w. auto.
Qed.

(** The steps of the workers leave the goroutine of [downloadFiles], the
    waiter and the state of the channel alone. *)
Lemma worker_steps_frame l s s' :
  l <> LMain -> l <> LWaiter ->
  dstep cfg io files l s = Some s' ->
  dMain s' = dMain s /\ dWaiter s' = dWaiter s /\ dClosed s' = dClosed s.
Proof.
  intros Hm Hw. destruct l as [| | i | i | i |]; simpl; try congruence.
  - unfold stepAcquire.
    destruct (dWorkers s !! i) as [w |]; [simpl | discriminate].
    destruct (wPC w); try discriminate.
    destruct (_ <? _)%nat; [| discriminate]. intros [= <-]. auto.
  - unfold stepCtxDone.
    destruct (dWorkers s !! i) as [w |]; [simpl | discriminate].
    destruct (wPC w); try discriminate.
    destruct (dCancelled s); [| discriminate].
    destruct (send _ _ _) as [s1 |] eqn:Hsend; [simpl | discriminate].
    apply send_chan in Hsend. subst s1. intros [= <-]. auto.
  - unfold stepWorker.
    destruct (dWorkers s !! i) as [w |]; [simpl | discriminate].
    destruct (wPC w) as [| | | | | | | | err |]; try discriminate;
      try (intros [= <-]; auto; fail).
    + destruct (shouldSkipFile _ _ _); [intros [= <-]; auto |].
      destruct (transfer _ _ _ _ _) as [[fs created] [e | written]];
        intros [= <-]; auto.
    + unfold finish. destruct err as [e |]; simpl; [| intros [= <-]; auto].
      destruct (send _ _ _) as [s1 |] eqn:Hsend; [simpl | discriminate].
      apply send_chan in Hsend. subst s1. intros [= <-]. auto.
  - intros [= <-]. auto.
Qed.

Lemma WaiterInv_dstep l s s' :
  WaiterInv s -> dstep cfg io files l s = Some s' -> WaiterInv s'.
Proof.
  intros [Hstarted Hdone] Hstep.
  assert (Hframe : l <> LMain -> l <> LWaiter -> WaiterInv s').
  { intros Hm Hw.
    destruct (worker_steps_frame _ _ _ Hm Hw Hstep) as (Em & Ew & Ec).
    constructor; rewrite ?Em, ?Ew, ?Ec; assumption. }
  destruct l as [| | i | i | i |]; try (apply Hframe; discriminate);
    clear Hframe.
  - simpl in Hstep. unfold stepMain in Hstep.
    destruct (dMain s) as [[| file rest] | | r] eqn:Hm; try discriminate.
    + injection Hstep as <-. constructor; simpl; discriminate.
    + destruct (IsFolder file); injection Hstep as <-;
        constructor; simpl; eauto.
    + assert (Hnot : dWaiter s <> WaiterNotStarted).
      { intros Hw. destruct (Hstarted Hw) as [rest Hrest]. discriminate. }
      destruct (dErrChan s) as [| [err |] q].
      * destruct (dClosed s) eqn:Hclosed; [| discriminate].
        injection Hstep as <-.
        constructor; simpl; [contradiction | intros _; assumption].
      * injection Hstep as <-. constructor; simpl; [contradiction | auto].
      * injection Hstep as <-. constructor; simpl; [contradiction | auto].
  - simpl in Hstep. unfold stepWaiter in Hstep.
    destruct (dWaiter s); try discriminate.
    destruct (dWG s =? 0)%nat; [| discriminate]. injection Hstep as <-.
    constructor; simpl; [discriminate | reflexivity].
Qed.

Lemma WaiterInv_reachable s :
  reachable cfg io files stats0 fs0 s -> WaiterInv s.
Proof.
  induction 1 as [| s l s' _ IH Hstep].
  - constructor; simpl; [eauto | discriminate].
  - eapply WaiterInv_dstep; eassumption.
Qed.

(** X30: with at least one slot the download phase never deadlocks: until
    [downloadFiles] has returned, one of its goroutines can take a step,
    without the context being cancelled. *)
Theorem downloadFiles_never_deadlocks s :
  (1 <= MaxConcurrency cfg)%nat ->
  reachable cfg io files stats0 fs0 s ->
  (forall err, dMain s <> Returned err) ->
  exists l s', l <> LCancel /\ dstep cfg io files l s = Some s'.
Proof.
  intros Hcap Hr Hrun.
  pose proof (Inv_reachable cfg io files _ _ _ Hr) as HI.
  pose proof (PhaseInv_reachable cfg io files _ _ s Hr) as HP.
  destruct (WaiterInv_reachable s Hr) as [Hstarted Hdone].
  assert (Hworker : forall j x, dWorkers s !! j = Some x -> holdsSlot x = true ->
                                exists l s', l <> LCancel
                                             /\ dstep cfg io files l s = Some s').
  { intros j x Hj Hx.
    destruct (worker_never_blocks cfg io files _ _ s j x Hr Hj) as [s' Hs'].
    - unfold inFlight. unfold holdsSlot in Hx. destruct (wPC x); congruence.
    - unfold holdsSlot in Hx. destruct (wPC x); congruence.
    - exists (LWorker j), s'. split; [discriminate | exact Hs']. }
  destruct (dMain s) as [rest | | r] eqn:Hm; [| | destruct (Hrun r eq_refl)].
  - exists LMain. simpl. unfold stepMain. rewrite Hm.
    destruct rest as [| file rest]; [eexists; split; [discriminate | reflexivity] |].
    destruct (IsFolder file); eexists; (split; [discriminate | reflexivity]).
  - destruct (dErrChan s) as [| [err |] q] eqn:Hq;
      [| exists LMain; simpl; unfold stepMain; rewrite Hm, Hq;
         eexists; split; [discriminate | reflexivity] ..].
    destruct (dClosed s) eqn:Hclosed.
    { exists LMain. simpl. unfold stepMain. rewrite Hm, Hq, Hclosed.
      eexists. split; [discriminate | reflexivity]. }
    destruct (dWaiter s) eqn:Hw.
    + destruct (Hstarted eq_refl) as [rest Hrest]. discriminate.
    + destruct (dWG s) as [| n] eqn:Hwg.
      { exists LWaiter. simpl. unfold stepWaiter. rewrite Hw, Hwg. simpl.
        eexists. split; [discriminate | reflexivity]. }
      assert (Hpending : (1 <= pending (dWorkers s))%nat)
        by (rewrite <- (inv_wg _ _ _ HI), Hwg; lia).
      destruct (filter_pos inFlight _ Hpending) as (i & w & Hi & Hfl).
      destruct (holdsSlot w) eqn:Hslot; [eauto |].
      assert (Hsel : wPC w = WSelect).
      { unfold holdsSlot in Hslot. unfold inFlight in Hfl.
        destruct (wPC w); congruence. }
      destruct (Nat.ltb_spec (dSem s) (MaxConcurrency cfg)) as [Hfree | Hfull].
      * exists (LAcquire i). simpl. unfold stepAcquire. rewrite Hi. simpl.
        rewrite Hsel. apply Nat.ltb_lt in Hfree. rewrite Hfree.
        eexists. split; [discriminate | reflexivity].
      * assert (Hheld : (1 <= slotsHeld (dWorkers s))%nat)
          by (rewrite (ph_slots _ _ _ _ HP); lia).
        destruct (filter_pos holdsSlot _ Hheld) as (j & x & Hj & Hx). eauto.
    + specialize (Hdone eq_refl). discriminate.
Qed.

End ProgressFacts.

(** ** The theorems at work *)

Lemma transfer_then_skip_witness :
  let '(fs', created', r) :=
    transfer (Examples.cfg [] false) Examples.ioOk Examples.aTxt ∅ [] in
  r = inr (Size Examples.aTxt)
  /\ created' = ([] ++ [localPath (Examples.cfg [] false) Examples.aTxt])%list
  /\ shouldSkipFile fs' (localPath (Examples.cfg [] false) Examples.aTxt)
                    Examples.aTxt = true.
Proof.
  apply (transfer_then_skip (Examples.cfg [] false) Examples.ioOk
           Examples.aTxt ∅ []); try reflexivity.
  simpl. lia.
Defined.

Lemma failed_copy_then_skip_witness :
  let '(fs', created', r) :=
    transfer (Examples.cfg [] false) MoreExamples.ioCopyFails Examples.aTxt ∅ [] in
  r = inl (Wrapped "failed to write file content" (ErrorString "unexpected EOF"))
  /\ fs' !! localPath (Examples.cfg [] false) Examples.aTxt
     = Some (mkFileStat 4 (ioNow (MoreExamples.ioCopyFails Examples.aTxt)) false)
  /\ shouldSkipFile fs' (localPath (Examples.cfg [] false) Examples.aTxt)
                    Examples.aTxt = true.
Proof.
  apply (failed_copy_then_skip (Examples.cfg [] false) MoreExamples.ioCopyFails
           Examples.aTxt ∅ [] 4 (ErrorString "unexpected EOF"));
    reflexivity.
Defined.

Lemma slots_bounded_witness :
  slotsHeld (dWorkers (MoreExamples.stateAfter (Examples.cfg [] false)
                         Examples.ioOk [Examples.aTxt; Examples.bTxt]
                         MoreExamples.schedBothHold emptyStats ∅))
  = dSem (MoreExamples.stateAfter (Examples.cfg [] false)
            Examples.ioOk [Examples.aTxt; Examples.bTxt]
            MoreExamples.schedBothHold emptyStats ∅)
  /\ (slotsHeld (dWorkers (MoreExamples.stateAfter (Examples.cfg [] false)
                            Examples.ioOk [Examples.aTxt; Examples.bTxt]
                            MoreExamples.schedBothHold emptyStats ∅))
      <= MaxConcurrency (Examples.cfg [] false))%nat.
Proof.
  apply (slots_bounded (Examples.cfg [] false) Examples.ioOk
           [Examples.aTxt; Examples.bTxt] emptyStats ∅).
  apply (dexec_reachable _ _ _ _ _ MoreExamples.schedBothHold _ _
           (reach_init _ _ _ _ _)).
  vm_compute. reflexivity.
Defined.

Lemma returned_error_names_a_file_witness :
  Examples.errA = Canceled
  \/ exists file stage cause,
       In file [Examples.aTxt; Examples.bTxt] /\ IsFolder file = false
       /\ In stage downloadStages
       /\ Examples.errA
          = Wrapped ("failed to download " ++ Path file) (Wrapped stage cause).
Proof.
  apply (returned_error_names_a_file (Examples.cfg [] false) Examples.ioFailA
           [Examples.aTxt; Examples.bTxt] emptyStats ∅
           (MoreExamples.stateAfter (Examples.cfg [] false) Examples.ioFailA
              [Examples.aTxt; Examples.bTxt] Examples.schedEarlyReturn
              emptyStats ∅)).
  - apply (dexec_reachable _ _ _ _ _ Examples.schedEarlyReturn _ _
             (reach_init _ _ _ _ _)).
    vm_compute. reflexivity.
  - vm_compute. reflexivity.
Defined.

Lemma download_phase_keeps_witness :
  (forall p, is_Some (Examples.fsSynced !! p) ->
     is_Some (dFS (MoreExamples.stateAfter (Examples.cfg [] false)
                     Examples.ioOk [Examples.aTxt; Examples.bTxt]
                     Examples.schedSerial emptyStats Examples.fsSynced) !! p))
  /\ TotalFiles (dStats (MoreExamples.stateAfter (Examples.cfg [] false)
                           Examples.ioOk [Examples.aTxt; Examples.bTxt]
                           Examples.schedSerial emptyStats Examples.fsSynced))
     = TotalFiles emptyStats
  /\ TotalFolders (dStats (MoreExamples.stateAfter (Examples.cfg [] false)
                             Examples.ioOk [Examples.aTxt; Examples.bTxt]
                             Examples.schedSerial emptyStats Examples.fsSynced))
     = TotalFolders emptyStats
  /\ DeletedFiles (dStats (MoreExamples.stateAfter (Examples.cfg [] false)
                             Examples.ioOk [Examples.aTxt; Examples.bTxt]
                             Examples.schedSerial emptyStats Examples.fsSynced))
     = DeletedFiles emptyStats.
Proof.
  apply (download_phase_keeps (Examples.cfg [] false) Examples.ioOk
           [Examples.aTxt; Examples.bTxt] emptyStats Examples.fsSynced).
  apply (dexec_reachable _ _ _ _ _ Examples.schedSerial _ _
           (reach_init _ _ _ _ _)).
  vm_compute. reflexivity.
Defined.

Lemma counters_exact_with_one_slot_witness :
  SkippedFiles (dStats (MoreExamples.stateAfter MoreExamples.cfgOne
                          Examples.ioOk [Examples.aTxt; Examples.bTxt]
                          Examples.schedSerialDownload emptyStats ∅))
  + DownloadedFiles (dStats (MoreExamples.stateAfter MoreExamples.cfgOne
                               Examples.ioOk [Examples.aTxt; Examples.bTxt]
                               Examples.schedSerialDownload emptyStats ∅))
  = Z.of_nat (List.length (nonFolders [Examples.aTxt; Examples.bTxt])).
Proof.
  apply (counters_exact_with_one_slot MoreExamples.cfgOne Examples.ioOk
           [Examples.aTxt; Examples.bTxt] emptyStats ∅).
  - reflexivity.
  - simpl. lia.
  - reflexivity.
  - reflexivity.
  - apply (dexec_reachable _ _ _ _ _ Examples.schedSerialDownload _ _
             (reach_init _ _ _ _ _)).
    vm_compute. reflexivity.
  - vm_compute. reflexivity.
Defined.

Lemma deleteOrphanedFiles_removes_the_orphans_witness :
  exists l',
    deleteOrphanedFiles (Examples.cfg [] true) Examples.walkOrphan
      [Examples.aTxt; Examples.bTxt] (mkLocal Examples.fsSynced emptyStats [])
    = (None, l')
    /\ lRemoved l'
       = (lRemoved (mkLocal Examples.fsSynced emptyStats [])
          ++ orphans (Examples.cfg [] true) [Examples.aTxt; Examples.bTxt]
                     Examples.walkOrphan)%list
    /\ lFS l'
       = foldl (fun fs p => delete p fs)
               (lFS (mkLocal Examples.fsSynced emptyStats []))
               (orphans (Examples.cfg [] true) [Examples.aTxt; Examples.bTxt]
                        Examples.walkOrphan)
    /\ lStats l'
       = setDeletedFiles
           (DeletedFiles (lStats (mkLocal Examples.fsSynced emptyStats []))
            + Z.of_nat (List.length
                          (orphans (Examples.cfg [] true)
                                   [Examples.aTxt; Examples.bTxt]
                                   Examples.walkOrphan)))
           (lStats (mkLocal Examples.fsSynced emptyStats [])).
Proof.
  apply (deleteOrphanedFiles_removes_the_orphans (Examples.cfg [] true)
           Examples.walkOrphan [Examples.aTxt; Examples.bTxt]
           (mkLocal Examples.fsSynced emptyStats [])).
  - intros en Hen. simpl in Hen.
    destruct Hen as [<- | [<- | [<- | [<- | []]]]]; split; reflexivity.
  - simpl. lia.
  - simpl. lia.
Defined.

Lemma deleteOrphanedFiles_stops_at_error_witness :
  (forall err, weErr MoreExamples.stuckOrphan = Some err ->
     deleteOrphanedFiles (Examples.cfg [] true)
       (MoreExamples.walkBefore ++ MoreExamples.stuckOrphan :: MoreExamples.walkAfter)
       [Examples.aTxt; Examples.bTxt] (mkLocal Examples.fsSynced emptyStats [])
     = (Some err,
        snd (deleteOrphanedFiles (Examples.cfg [] true) MoreExamples.walkBefore
               [Examples.aTxt; Examples.bTxt]
               (mkLocal Examples.fsSynced emptyStats []))))
  /\ (forall err, weErr MoreExamples.stuckOrphan = None ->
        orphan (Examples.cfg [] true) [Examples.aTxt; Examples.bTxt]
               MoreExamples.stuckOrphan = true ->
        weRemove MoreExamples.stuckOrphan = Some err ->
        deleteOrphanedFiles (Examples.cfg [] true)
          (MoreExamples.walkBefore ++ MoreExamples.stuckOrphan :: MoreExamples.walkAfter)
          [Examples.aTxt; Examples.bTxt] (mkLocal Examples.fsSynced emptyStats [])
        = (Some (Wrapped ("failed to delete file "
                          ++ wePath MoreExamples.stuckOrphan) err),
           snd (deleteOrphanedFiles (Examples.cfg [] true) MoreExamples.walkBefore
                  [Examples.aTxt; Examples.bTxt]
                  (mkLocal Examples.fsSynced emptyStats [])))).
Proof.
  apply (deleteOrphanedFiles_stops_at_error (Examples.cfg [] true)
           MoreExamples.walkBefore MoreExamples.stuckOrphan MoreExamples.walkAfter
           [Examples.aTxt; Examples.bTxt]
           (mkLocal Examples.fsSynced emptyStats [])).
  vm_compute. reflexivity.
Defined.

Lemma runListed_totals_witness :
  TotalFiles (lStats (wLocal (snd (runListed (Examples.cfg [] true) Examples.ioOk
                                     Examples.schedSerialDownload Examples.walkOrphan
                                     [Examples.aTxt; Examples.bTxt]
                                     (Examples.world (Examples.clientOk []) ∅)))))
  = Z.of_nat (List.length (nonFolders [Examples.aTxt; Examples.bTxt]))
  /\ TotalFolders (lStats (wLocal (snd (runListed (Examples.cfg [] true) Examples.ioOk
                                          Examples.schedSerialDownload
                                          Examples.walkOrphan
                                          [Examples.aTxt; Examples.bTxt]
                                          (Examples.world (Examples.clientOk []) ∅)))))
     = Z.of_nat (List.length (folders [Examples.aTxt; Examples.bTxt])).
Proof.
  apply (runListed_totals (Examples.cfg [] true) Examples.ioOk
           Examples.schedSerialDownload Examples.walkOrphan
           [Examples.aTxt; Examples.bTxt]
           (Examples.world (Examples.clientOk []) ∅)
           (fst (runListed (Examples.cfg [] true) Examples.ioOk
                   Examples.schedSerialDownload Examples.walkOrphan
                   [Examples.aTxt; Examples.bTxt]
                   (Examples.world (Examples.clientOk []) ∅)))).
  - simpl. lia.
  - vm_compute. reflexivity.
Defined.

(** A run that downloads the two files of the listing and returns [nil],
    with a local file that is not in Dropbox. *)
Lemma Run_without_delete_witness :
  fst (Run (Examples.cfg [] false) Examples.ioOk Examples.schedSerialDownload
        Examples.walkOrphan
        (Examples.world (Examples.clientOk [Examples.aTxt; Examples.bTxt])
                     MoreExamples.fsOrphan)) = Ok tt
  /\ (lRemoved (wLocal (snd (Run (Examples.cfg [] false) Examples.ioOk Examples.schedSerialDownload
        Examples.walkOrphan
        (Examples.world (Examples.clientOk [Examples.aTxt; Examples.bTxt])
                     MoreExamples.fsOrphan))))
      = lRemoved (wLocal (Examples.world (Examples.clientOk [Examples.aTxt; Examples.bTxt])
                     MoreExamples.fsOrphan))
      /\ (forall p,
            is_Some (lFS (wLocal (Examples.world (Examples.clientOk [Examples.aTxt; Examples.bTxt])
                     MoreExamples.fsOrphan)) !! p) ->
            is_Some (lFS (wLocal (snd (Run (Examples.cfg [] false) Examples.ioOk Examples.schedSerialDownload
        Examples.walkOrphan
        (Examples.world (Examples.clientOk [Examples.aTxt; Examples.bTxt])
                     MoreExamples.fsOrphan)))) !! p))
      /\ DeletedFiles (lStats (wLocal (snd (Run (Examples.cfg [] false) Examples.ioOk Examples.schedSerialDownload
        Examples.walkOrphan
        (Examples.world (Examples.clientOk [Examples.aTxt; Examples.bTxt])
                     MoreExamples.fsOrphan))))) = 0).
Proof.
  split; [vm_compute; reflexivity |].
  apply (Run_without_delete (Examples.cfg [] false) Examples.ioOk
           Examples.schedSerialDownload Examples.walkOrphan
           (Examples.world (Examples.clientOk [Examples.aTxt; Examples.bTxt])
                     MoreExamples.fsOrphan)
           (fst (Run (Examples.cfg [] false) Examples.ioOk Examples.schedSerialDownload
        Examples.walkOrphan
        (Examples.world (Examples.clientOk [Examples.aTxt; Examples.bTxt])
                     MoreExamples.fsOrphan)))).
  - reflexivity.
  - vm_compute. reflexivity.
Defined.

Lemma Run_refresh_fails_witness :
  Run (Examples.cfg [] false) Examples.ioOk Examples.schedSerialDownload
      Examples.walkOrphan (Examples.world MoreExamples.clientInvalid ∅)
  = (Fail (Wrapped "failed to refresh token" Examples.refreshError),
     logCall CallRefreshToken (mkScript false [] [])
       (logCall CallIsTokenValid
          (wClient (Examples.world MoreExamples.clientInvalid ∅))
          (freshStats (Examples.world MoreExamples.clientInvalid ∅)))).
Proof.
  apply (Run_refresh_fails (Examples.cfg [] false) Examples.ioOk
           Examples.schedSerialDownload Examples.walkOrphan
           (Examples.world MoreExamples.clientInvalid ∅)
           Examples.refreshError (mkScript false [] []));
    reflexivity.
Defined.

Lemma Run_first_listing_witness :
  Run (Examples.cfg [] false) Examples.ioOk Examples.schedSerialDownload
      Examples.walkOrphan
      (Examples.world (Examples.clientOk [Examples.aTxt; Examples.bTxt]) ∅)
  = runListed (Examples.cfg [] false) Examples.ioOk Examples.schedSerialDownload
      Examples.walkOrphan [Examples.aTxt; Examples.bTxt]
      (logCall CallListAll (mkScript true [] [])
         (logCall CallIsTokenValid
            (Examples.clientOk [Examples.aTxt; Examples.bTxt])
            (freshStats (Examples.world
                           (Examples.clientOk [Examples.aTxt; Examples.bTxt]) ∅))))
  /\ wCalls (snd (Run (Examples.cfg [] false) Examples.ioOk
                    Examples.schedSerialDownload Examples.walkOrphan
                    (Examples.world
                       (Examples.clientOk [Examples.aTxt; Examples.bTxt]) ∅)))
     = (wCalls (logCall CallIsTokenValid
                  (Examples.clientOk [Examples.aTxt; Examples.bTxt])
                  (freshStats (Examples.world
                                 (Examples.clientOk [Examples.aTxt; Examples.bTxt])
                                 ∅)))
        ++ [CallListAll])%list
  /\ wClient (snd (Run (Examples.cfg [] false) Examples.ioOk
                     Examples.schedSerialDownload Examples.walkOrphan
                     (Examples.world
                        (Examples.clientOk [Examples.aTxt; Examples.bTxt]) ∅)))
     = mkScript true [] [].
Proof.
  apply (Run_first_listing (Examples.cfg [] false) Examples.ioOk
           Examples.schedSerialDownload Examples.walkOrphan
           (Examples.world (Examples.clientOk [Examples.aTxt; Examples.bTxt]) ∅)
           (logCall CallIsTokenValid
              (Examples.clientOk [Examples.aTxt; Examples.bTxt])
              (freshStats (Examples.world
                             (Examples.clientOk [Examples.aTxt; Examples.bTxt]) ∅)))
           [Examples.aTxt; Examples.bTxt] (mkScript true [] []));
    reflexivity.
Defined.

Lemma formatBytes_unit_witness :
  (1536 < 1024 -> formatBytes 1536 = Some (PlainBytes 1536))
  /\ (1024 <= 1536 ->
      exists exp c,
        formatBytes 1536 = Some (ScaledBytes 1536 (1024 ^ (exp + 1)) c)
        /\ 0 <= exp <= 5
        /\ byteAt "KMGTPE" exp = Some c
        /\ 1024 ^ (exp + 1) <= 1536 < 1024 * 1024 ^ (exp + 1)).
Proof.
  apply (formatBytes_unit 1536).
  unfold Int.is_uint64, Int.uint64_max. lia.
Defined.

Lemma IsTokenValid_five_minutes_witness :
  Dropbox.IsTokenValid (Some MoreExamples.token) (Time.mk 63800000000 0) = true
  <-> Dropbox.AccessToken MoreExamples.token <> ""
      /\ (Dropbox.Expiry MoreExamples.token = Time.zero
          \/ Dropbox.nanos (Time.mk 63800000000 0) + 5 * Dropbox.Minute
             <= Dropbox.nanos (Dropbox.Expiry MoreExamples.token)).
Proof.
  apply (IsTokenValid_five_minutes MoreExamples.token (Time.mk 63800000000 0));
    unfold Dropbox.normal; simpl; lia.
Defined.

Lemma Load_ok_witness :
  (config.ClientID MoreExamples.loaded
   = config.getenv (MoreExamples.env MoreExamples.credentials "")
                   "DROPBOX_CLIENT_ID"
   /\ config.ClientSecret MoreExamples.loaded
      = config.getenv (MoreExamples.env MoreExamples.credentials "")
                      "DROPBOX_CLIENT_SECRET"
   /\ config.AccessToken MoreExamples.loaded
      = config.getenv (MoreExamples.env MoreExamples.credentials "")
                      "DROPBOX_ACCESS_TOKEN"
   /\ config.RefreshToken MoreExamples.loaded
      = config.getenv (MoreExamples.env MoreExamples.credentials "")
                      "DROPBOX_REFRESH_TOKEN")
  /\ (config.ClientID MoreExamples.loaded <> ""
      /\ config.ClientSecret MoreExamples.loaded <> "")
  /\ (In (config.LogLevel MoreExamples.loaded) ["debug"; "info"; "warn"; "error"]
      /\ (config.oLogLevel (MoreExamples.opts "backups") = "" ->
          config.LogLevel MoreExamples.loaded = "error")
      /\ (config.oLogLevel (MoreExamples.opts "backups") <> "" ->
          config.LogLevel MoreExamples.loaded
          = config.oLogLevel (MoreExamples.opts "backups")))
  /\ (config.Delete MoreExamples.loaded
      = config.oDelete (MoreExamples.opts "backups")
      /\ config.Exclude MoreExamples.loaded
         = config.oExclude (MoreExamples.opts "backups")
      /\ config.ShowCount MoreExamples.loaded
         = config.oShowCount (MoreExamples.opts "backups")
      /\ config.ShowSize MoreExamples.loaded
         = config.oShowSize (MoreExamples.opts "backups"))
  /\ (config.MaxConcurrency MoreExamples.loaded = 5
      /\ config.RetryAttempts MoreExamples.loaded = 3
      /\ config.RetryDelay MoreExamples.loaded = 2000000000)
  /\ (["/home/user/backups"] = [config.BackupDir MoreExamples.loaded]
      /\ config.mkdirAll (MoreExamples.env MoreExamples.credentials "")
                         (config.BackupDir MoreExamples.loaded) = None).
Proof.
  apply (Load_ok (MoreExamples.env MoreExamples.credentials "")
           (MoreExamples.opts "backups") MoreExamples.loaded
           ["/home/user/backups"]).
  vm_compute. reflexivity.
Defined.

Lemma Load_BackupDir_absolute_witness :
  Strings.HasPrefix (config.BackupDir MoreExamples.loaded) "/" = true.
Proof.
  apply (Load_BackupDir_absolute (MoreExamples.env MoreExamples.credentials "")
           (MoreExamples.opts "backups") MoreExamples.loaded
           ["/home/user/backups"]).
  - intros wd Hwd. injection Hwd as <-. reflexivity.
  - vm_compute. reflexivity.
Defined.

Lemma Load_backup_dir_priority_witness :
  config.Load (MoreExamples.env
                 (MoreExamples.setenv "DROPBOX_BACKUP_FOLDER" "/mnt/a"
                                      MoreExamples.credentials)
                 "2024-01-02-03-04-05")
              (MoreExamples.opts "backups")
  = config.Load (MoreExamples.env
                   (MoreExamples.setenv "DROPBOX_BACKUP_FOLDER" "/mnt/b"
                                        MoreExamples.credentials)
                   "2025-06-07-08-09-10")
                (MoreExamples.opts "backups").
Proof.
  apply (Load_backup_dir_priority
           (MoreExamples.env
              (MoreExamples.setenv "DROPBOX_BACKUP_FOLDER" "/mnt/a"
                                   MoreExamples.credentials)
              "2024-01-02-03-04-05")
           (MoreExamples.env
              (MoreExamples.setenv "DROPBOX_BACKUP_FOLDER" "/mnt/b"
                                   MoreExamples.credentials)
              "2025-06-07-08-09-10")
           (MoreExamples.opts "backups")).
  - intros k Hk. simpl. unfold MoreExamples.setenv at 1 2.
    destruct (String.eqb_spec k "DROPBOX_BACKUP_FOLDER");
      [contradiction | reflexivity].
  - reflexivity.
  - reflexivity.
  - left. simpl. discriminate.
Defined.

Lemma Load_mkdir_before_validation_witness :
  (exists cause dir,
      Wrapped "configuration validation failed"
        (ErrorString "DROPBOX_CLIENT_ID environment variable is required")
      = Wrapped "configuration validation failed" cause
      /\ ["/home/user/backups"] = [dir]
      /\ config.mkdirAll (MoreExamples.env (fun _ => "") "") dir = None)
  \/ (exists cause dir,
        Wrapped "configuration validation failed"
          (ErrorString "DROPBOX_CLIENT_ID environment variable is required")
        = Wrapped "failed to set backup directory"
            (Wrapped "failed to create backup directory" cause)
        /\ ["/home/user/backups"] = [dir]
        /\ config.mkdirAll (MoreExamples.env (fun _ => "") "") dir
           = Some cause)
  \/ (exists cause,
        Wrapped "configuration validation failed"
          (ErrorString "DROPBOX_CLIENT_ID environment variable is required")
        = Wrapped "failed to set backup directory"
            (Wrapped "failed to get absolute path for backup directory" cause)
        /\ ["/home/user/backups"] = []).
Proof.
  apply (Load_mkdir_before_validation (MoreExamples.env (fun _ => "") "")
           (MoreExamples.opts "backups")).
  vm_compute. reflexivity.
Defined.

Lemma handleCallback_guards_witness :
  ([MoreExamples.code] = []
   \/ ([MoreExamples.code] = [MoreExamples.callback MoreExamples.code "xyz" "code"]
       /\ MoreExamples.callback MoreExamples.code "xyz" "error" = ""
       /\ MoreExamples.callback MoreExamples.code "xyz" "state" = "xyz"
       /\ MoreExamples.callback MoreExamples.code "xyz" "code" <> ""))
  /\ ((exists token,
         OAuth.mkAuthResult (Some MoreExamples.token) None
         = OAuth.mkAuthResult (Some token) None
         /\ 200 = 200
         /\ MoreExamples.exchange
              (MoreExamples.callback MoreExamples.code "xyz" "code") = inr token
         /\ [MoreExamples.code]
            = [MoreExamples.callback MoreExamples.code "xyz" "code"])
      \/ (exists err,
            OAuth.mkAuthResult (Some MoreExamples.token) None
            = OAuth.mkAuthResult None (Some err)
            /\ (200 = 400 /\ [MoreExamples.code] = [] \/ 200 = 500))).
Proof.
  apply (handleCallback_guards "xyz" "" MoreExamples.exchange
           (MoreExamples.callback MoreExamples.code "xyz")
           (OAuth.mkHandled (OAuth.mkAuthResult (Some MoreExamples.token) None)
                            200 [MoreExamples.code])).
  vm_compute. reflexivity.
Defined.

Lemma handleCallback_short_code_witness :
  OAuth.handleCallback "xyz" "" MoreExamples.exchange
    (MoreExamples.callback "abc" "xyz") = None.
Proof.
  apply (handleCallback_short_code "xyz" "" MoreExamples.exchange
           (MoreExamples.callback "abc" "xyz")).
  - reflexivity.
  - reflexivity.
  - simpl. lia.
Defined.

Lemma callback_handlers_agree_witness :
  snd (OAuth.HandleOAuthCallback MoreExamples.exchange MoreExamples.parse
         MoreExamples.callbackURL "xyz" "")
  = [MoreExamples.code]
  /\ forall token,
       fst (OAuth.HandleOAuthCallback MoreExamples.exchange MoreExamples.parse
              MoreExamples.callbackURL "xyz" "") = inr token
       <-> Some MoreExamples.token = Some token.
Proof.
  apply (callback_handlers_agree "xyz" "" MoreExamples.exchange
           (MoreExamples.callback MoreExamples.code "xyz")
           MoreExamples.parse MoreExamples.callbackURL ""
           (OAuth.mkHandled (OAuth.mkAuthResult (Some MoreExamples.token) None)
                            200 [MoreExamples.code])).
  - reflexivity.
  - vm_compute. reflexivity.
Defined.

Lemma downloadFiles_never_deadlocks_witness :
  exists l s',
    l <> LCancel
    /\ dstep (Examples.cfg [] false) Examples.ioOk [Examples.aTxt; Examples.bTxt] l
             (MoreExamples.stateAfter (Examples.cfg [] false) Examples.ioOk
                [Examples.aTxt; Examples.bTxt] MoreExamples.schedBothHold
                emptyStats ∅)
       = Some s'.
Proof.
  apply (downloadFiles_never_deadlocks (Examples.cfg [] false) Examples.ioOk
           [Examples.aTxt; Examples.bTxt] emptyStats ∅).
  - simpl. lia.
  - apply (dexec_reachable _ _ _ _ _ MoreExamples.schedBothHold _ _
             (reach_init _ _ _ _ _)).
    vm_compute. reflexivity.
  - intros err. vm_compute. discriminate.
Defined.
